(** * Project and workspace classification engine, repository URL codec

    A shallow embedding of [src/utils/workspace-detector.js] and
    [src/utils/repository-manager.js], and the properties of the
    specification that are decided by that code.

    Conventions of the embedding.
    - A JavaScript string is a [string]: a sequence of 8-bit characters.  The
      line terminators that exist in that range are LF (10) and CR (13).
    - An [async] function that may reject is a function into [result]; a
      [try]/[catch] block is [try_catch].  A function that mutates the
      [detection] object before it rejects is a function into [effect]: the
      state reached is kept next to the exception, as the caller's [catch]
      returns the very object that was mutated.
    - The file system, [glob] and the platform's [path] module are the
      capability the engine consumes: the record [Env].  One detection reads
      one state of the file system, so the capability is a function.
    - A number is an IEEE 754 double: the confidence is computed with the
      division and the multiplication of doubles, and kept as the rational
      number that the resulting double is. *)

From Stdlib Require Import List String Ascii Bool Arith ZArith QArith Qminmax Lia Lqa.
From Stdlib Require Import Permutation Sorted Qround SpecFloat.
Import ListNotations.

Set Warnings "-register-all".

Open Scope string_scope.
Open Scope list_scope.

Infix "+++" := String.append (right associativity, at level 60).

(* ===================================================================== *)
(** ** Results of fallible calls *)

Module Result.

Inductive result (A : Type) : Type :=
| Ok (a : A)
| Throw (msg : string).

Arguments Ok {A} a.
Arguments Throw {A} msg.

Definition bind {A B : Type} (m : result A) (f : A -> result B) : result B :=
  match m with
  | Ok a => f a
  | Throw e => Throw e
  end.

(** [try { body } catch (error) { handler }] *)
Definition try_catch {A : Type} (body : result A) (handler : string -> A) : A :=
  match body with
  | Ok a => a
  | Throw e => handler e
  end.

End Result.
Export Result.

Notation "x <- m ;; k" := (bind m (fun x => k))
  (at level 61, m at next level, right associativity).

(* ===================================================================== *)
(** ** Strings *)

Module Str.

Definition quote : ascii := ascii_of_nat 34.
Definition LF : ascii := ascii_of_nat 10.
Definition CR : ascii := ascii_of_nat 13.

Fixpoint drop (n : nat) (s : string) : string :=
  match n, s with
  | O, _ => s
  | S n', EmptyString => EmptyString
  | S n', String _ s' => drop n' s'
  end.

Fixpoint take (n : nat) (s : string) : string :=
  match n, s with
  | O, _ => EmptyString
  | S n', EmptyString => EmptyString
  | S n', String a s' => String a (take n' s')
  end.

Definition is_empty (s : string) : bool :=
  match s with EmptyString => true | _ => false end.

(** [s.startsWith(p)] *)
Definition startsWith (s p : string) : bool := String.prefix p s.

(** [s.endsWith(p)] *)
Definition endsWith (s p : string) : bool :=
  (String.length p <=? String.length s)%nat
  && String.eqb (drop (String.length s - String.length p) s) p.

(** The first occurrence of [pat] in [s]: what stands before it and what
    stands after it. *)
Fixpoint split_at_first (pat s : string) : option (string * string) :=
  if String.prefix pat s then Some (EmptyString, drop (String.length pat) s)
  else match s with
       | EmptyString => None
       | String a s' =>
           match split_at_first pat s' with
           | Some (b, r) => Some (String a b, r)
           | None => None
           end
       end.

(** [s.includes(pat)] *)
Definition includes (s pat : string) : bool :=
  match split_at_first pat s with Some _ => true | None => false end.

(** Every character of [s] satisfies [p]. *)
Fixpoint all (p : ascii -> bool) (s : string) : bool :=
  match s with
  | EmptyString => true
  | String a s' => p a && all p s'
  end.

(** [s.split(c)] for a one-character separator [c]. *)
Fixpoint split_on (c : ascii) (s : string) : list string :=
  match s with
  | EmptyString => [EmptyString]
  | String a s' =>
      if Ascii.eqb a c then EmptyString :: split_on c s'
      else match split_on c s' with
           | h :: t => String a h :: t
           | [] => [String a EmptyString]
           end
  end.

(** White space and line terminators, as [\s] and [trim] read them. *)
Definition is_space (a : ascii) : bool :=
  let n := nat_of_ascii a in
  (((9 <=? n) && (n <=? 13)) || (n =? 32) || (n =? 160))%nat.

Fixpoint trimStart (s : string) : string :=
  match s with
  | String a s' => if is_space a then trimStart s' else s
  | EmptyString => EmptyString
  end.

Fixpoint rev_onto (s acc : string) : string :=
  match s with
  | EmptyString => acc
  | String a s' => rev_onto s' (String a acc)
  end.

Definition rev (s : string) : string := rev_onto s EmptyString.

(** [s.trim()] *)
Definition trim (s : string) : string := rev (trimStart (rev (trimStart s))).

Definition lower_char (a : ascii) : ascii :=
  let n := nat_of_ascii a in
  if (((65 <=? n) && (n <=? 90))
      || ((192 <=? n) && (n <=? 222) && negb (n =? 215)))%nat
  then ascii_of_nat (n + 32) else a.

(** [s.toLowerCase()] *)
Fixpoint toLowerCase (s : string) : string :=
  match s with
  | EmptyString => EmptyString
  | String a s' => String (lower_char a) (toLowerCase s')
  end.

(** *** The replacement text of [String.prototype.replace]

    [GetSubstitution] with no capture group: [$$] is a dollar sign, [$&] the
    matched text, [$`] what precedes the match and [$'] what follows it; any
    other character stands for itself. *)
Fixpoint getSubstitution (matched before after tpl : string) : string :=
  match tpl with
  | EmptyString => EmptyString
  | String a t =>
      if Ascii.eqb a "$" then
        match t with
        | String b t' =>
            if Ascii.eqb b "$" then String "$" (getSubstitution matched before after t')
            else if Ascii.eqb b "&" then matched +++ getSubstitution matched before after t'
            else if Ascii.eqb b "`" then before +++ getSubstitution matched before after t'
            else if Ascii.eqb b "'" then after +++ getSubstitution matched before after t'
            else String a (getSubstitution matched before after t)
        | EmptyString => String a EmptyString
        end
      else String a (getSubstitution matched before after t)
  end.

(** Characters that the replacement text and the search for a placeholder
    read as they stand. *)
Definition no_dollar (a : ascii) : bool := negb (Ascii.eqb a "$").
Definition no_brace (a : ascii) : bool := negb (Ascii.eqb a "{").

(** [s.replace(pat, rep)] for a string pattern: the first occurrence only. *)
Definition replace (s pat rep : string) : string :=
  match split_at_first pat s with
  | Some (b, r) => b +++ getSubstitution pat b r rep +++ r
  | None => s
  end.

End Str.

(* ===================================================================== *)
(** ** Regular expressions

    The backtracking matcher of the regular expressions the source uses:
    characters and classes, sequence, alternative, greedy and lazy
    repetition, capture groups and the two anchors (no flag is ever set).  No
    capture group of the source stands under a repetition. *)

Module Regex.

Inductive regex : Type :=
| Eps
| Chr (p : ascii -> bool)
| Seq (r1 r2 : regex)
| Alt (r1 r2 : regex)
| Star (greedy : bool) (r : regex)
| Group (i : nat) (r : regex)
| Bol
| Eol.

(** The captures of a match, by group number as in [m[1]], [m[2]], ...; the
    entry 0 is not used. *)
Definition caps := list (option string).

Fixpoint set_cap (i : nat) (v : string) (c : caps) : caps :=
  match i, c with
  | O, _ :: c' => Some v :: c'
  | O, [] => [Some v]
  | S i', x :: c' => x :: set_cap i' v c'
  | S i', [] => None :: set_cap i' v []
  end.

Definition get_cap (i : nat) (c : caps) : option string :=
  match nth_error c i with
  | Some (Some v) => Some v
  | _ => None
  end.

(** What was read between the input [s] and its suffix [s']. *)
Definition consumed (s s' : string) : string :=
  Str.take (String.length s - String.length s') s.

Definition orelse {A : Type} (x y : option A) : option A :=
  match x with Some _ => x | None => y end.

Section Matcher.

Variable R : Type.
(** The length of the whole subject: [^] holds where nothing is read yet. *)
Variable total : nat.

(** The repetition of what [m] matches: one more round before the
    continuation when greedy, after it when lazy; a round that reads nothing
    is refused.  The subject gets shorter at each round, so its length is
    enough fuel. *)
Fixpoint repeat_match (m : string -> caps -> (string -> caps -> option R) -> option R)
         (greedy : bool) (k : string -> caps -> option R)
         (fuel : nat) (s : string) (c : caps) {struct fuel} : option R :=
  match fuel with
  | O => k s c
  | S fuel' =>
      let again :=
        m s c (fun s' c' =>
                 if (String.length s' <? String.length s)%nat
                 then repeat_match m greedy k fuel' s' c' else None) in
      if greedy then orelse again (k s c) else orelse (k s c) again
  end.

Fixpoint rmatch (r : regex) (s : string) (c : caps)
         (k : string -> caps -> option R) {struct r} : option R :=
  match r with
  | Eps => k s c
  | Chr p =>
      match s with
      | String a s' => if p a then k s' c else None
      | EmptyString => None
      end
  | Seq r1 r2 => rmatch r1 s c (fun s' c' => rmatch r2 s' c' k)
  | Alt r1 r2 => orelse (rmatch r1 s c k) (rmatch r2 s c k)
  | Star greedy r1 => repeat_match (rmatch r1) greedy k (String.length s) s c
  | Group i r1 =>
      rmatch r1 s c (fun s' c' => k s' (set_cap i (consumed s s') c'))
  | Bol => if (String.length s =? total)%nat then k s c else None
  | Eol => match s with EmptyString => k s c | _ => None end
  end.

(** The repetition of a class, by recursion on the subject. *)
Fixpoint class_star_greedy (p : ascii -> bool) (k : string -> caps -> option R)
         (s : string) (c : caps) : option R :=
  match s with
  | String a s' =>
      if p a then orelse (class_star_greedy p k s' c) (k s c) else k s c
  | EmptyString => k s c
  end.

Fixpoint class_star_lazy (p : ascii -> bool) (k : string -> caps -> option R)
         (s : string) (c : caps) : option R :=
  orelse (k s c)
    match s with
    | String a s' => if p a then class_star_lazy p k s' c else None
    | EmptyString => None
    end.

End Matcher.

Arguments rmatch {R} total r s c k.
Arguments repeat_match {R} m greedy k fuel s c.
Arguments class_star_greedy {R} p k s c.
Arguments class_star_lazy {R} p k s c.

(** A successful match: what precedes it, the captures, what follows it. *)
Record found := { before : string; groups : caps; after : string }.

(** The continuation at the end of a pattern. *)
Definition finish (s : string) (c : caps) : option (caps * string) := Some (c, s).

Fixpoint exec_from (r : regex) (total : nat) (pre : string) (s : string) : option found :=
  match rmatch total r s [] finish with
  | Some (c, s') =>
      Some {| before := Str.rev pre; groups := c; after := s' |}
  | None =>
      match s with
      | EmptyString => None
      | String a s' => exec_from r total (String a pre) s'
      end
  end.

(** [s.match(r)] for a regular expression without the [g] flag: the leftmost
    match, [None] for [null]. *)
Definition exec (r : regex) (s : string) : option found :=
  exec_from r (String.length s) EmptyString s.

(** [s.replace(r, rep)] where [rep] holds no dollar sign. *)
Definition replace (s : string) (r : regex) (rep : string) : string :=
  match exec r s with
  | Some m => before m +++ rep +++ after m
  | None => s
  end.

(** The groups that a match of [r] sets, whatever the subject. *)
Fixpoint sets (r : regex) : list nat :=
  match r with
  | Seq r1 r2 => sets r1 ++ sets r2
  | Alt r1 r2 => filter (fun i => existsb (Nat.eqb i) (sets r2)) (sets r1)
  | Group i r1 => i :: sets r1
  | _ => []
  end.

(** *** The notation of the source's patterns *)

Definition chr (a : ascii) : regex := Chr (Ascii.eqb a).
Definition not_chr (a : ascii) : regex := Chr (fun x => negb (Ascii.eqb x a)).
(** [.] : any character but a line terminator *)
Definition any_char (x : ascii) : bool :=
  negb (Ascii.eqb x Str.LF || Ascii.eqb x Str.CR).
Definition dot : regex := Chr any_char.
(** The classes "[^/]" and "[^:]", as predicates. *)
Definition no_slash (x : ascii) : bool := negb (Ascii.eqb x "/").
Definition no_colon (x : ascii) : bool := negb (Ascii.eqb x ":").
(** [\s] *)
Definition space : regex := Chr Str.is_space.

Fixpoint lit (s : string) : regex :=
  match s with
  | EmptyString => Eps
  | String a EmptyString => chr a
  | String a s' => Seq (chr a) (lit s')
  end.

Definition star (r : regex) : regex := Star true r.
Definition plus (r : regex) : regex := Seq r (Star true r).
Definition plus_lazy (r : regex) : regex := Seq r (Star false r).
Definition opt (r : regex) : regex := Alt r Eps.

Fixpoint seq (rs : list regex) : regex :=
  match rs with
  | [] => Eps
  | [r] => r
  | r :: rs' => Seq r (seq rs')
  end.

End Regex.

(* ===================================================================== *)
(** ** [src/utils/repository-manager.js] *)

Module RepositoryManager.

Import Regex.

Record repositoryType := {
  rt_name : string;
  description : string;
  baseUrl : option string;
  sshFormat : option string;
  httpsFormat : option string;
  webFormat : option string;
  supportsPages : bool;
  supportsActions : bool;
  supportsPackages : bool
}.

(** [this.repositoryTypes], in the order of the object literal. *)
Definition repositoryTypes : list (string * repositoryType) :=
  [ ("github",
     {| rt_name := "GitHub";
        description := "GitHub.com - Public and private repositories";
        baseUrl := Some "https://github.com";
        sshFormat := Some "git@github.com:{owner}/{repo}.git";
        httpsFormat := Some "https://github.com/{owner}/{repo}.git";
        webFormat := Some "https://github.com/{owner}/{repo}";
        supportsPages := true; supportsActions := true; supportsPackages := true |});
    ("gitea",
     {| rt_name := "Gitea";
        description := "Self-hosted Git service with a web interface";
        baseUrl := None;
        sshFormat := Some "git@{host}:{owner}/{repo}.git";
        httpsFormat := Some "https://{host}/{owner}/{repo}.git";
        webFormat := Some "https://{host}/{owner}/{repo}";
        supportsPages := true; supportsActions := true; supportsPackages := false |});
    ("gitlab",
     {| rt_name := "GitLab";
        description := "GitLab.com or self-hosted GitLab instance";
        baseUrl := Some "https://gitlab.com";
        sshFormat := Some "git@{host}:{owner}/{repo}.git";
        httpsFormat := Some "https://{host}/{owner}/{repo}.git";
        webFormat := Some "https://{host}/{owner}/{repo}";
        supportsPages := true; supportsActions := true; supportsPackages := true |});
    ("bitbucket",
     {| rt_name := "Bitbucket";
        description := "Atlassian Bitbucket Cloud or Server";
        baseUrl := Some "https://bitbucket.org";
        sshFormat := Some "git@{host}:{owner}/{repo}.git";
        httpsFormat := Some "https://{host}/{owner}/{repo}.git";
        webFormat := Some "https://{host}/{owner}/{repo}";
        supportsPages := false; supportsActions := true; supportsPackages := false |});
    ("azure",
     {| rt_name := "Azure DevOps";
        description := "Microsoft Azure DevOps Services";
        baseUrl := Some "https://dev.azure.com";
        sshFormat := Some "git@ssh.dev.azure.com:v3/{org}/{project}/{repo}";
        httpsFormat := Some "https://dev.azure.com/{org}/{project}/_git/{repo}";
        webFormat := Some "https://dev.azure.com/{org}/{project}/_git/{repo}";
        supportsPages := false; supportsActions := true; supportsPackages := true |});
    ("custom",
     {| rt_name := "Custom Repository";
        description := "Custom Git repository (self-hosted or other)";
        baseUrl := None;
        sshFormat := None;
        httpsFormat := None;
        webFormat := None;
        supportsPages := false; supportsActions := false; supportsPackages := false |}) ].

(** [this.repositoryTypes[type]] *)
Fixpoint lookup (type : string) (table : list (string * repositoryType))
  : option repositoryType :=
  match table with
  | [] => None
  | (k, v) :: rest => if String.eqb k type then Some v else lookup type rest
  end.

(** *** [parseRepositoryUrl] *)

Record info := {
  host : option string;
  owner : option string;
  repo : option string;
  org : option string
}.

(** The pattern "/git@([^:]+):(.+)\/(.+?)(?:\.git)?$/" *)
Definition sshPattern : regex :=
  seq [ lit "git@"; Group 1 (plus (not_chr ":")); chr ":";
        Group 2 (plus dot); chr "/"; Group 3 (plus_lazy dot);
        opt (lit ".git"); Eol ].

(** The pattern "/https:\/\/dev\.azure\.com\/([^/]+)\/([^/]+)\/_git\/(.+)/" *)
Definition azurePattern : regex :=
  seq [ lit "https://dev.azure.com/"; Group 1 (plus (not_chr "/")); chr "/";
        Group 2 (plus (not_chr "/")); lit "/_git/"; Group 3 (plus dot) ].

(** The pattern "/https:\/\/([^/]+)\/(.+?)\/(.+?)(?:\.git)?(?:\/.*" ")?$/" *)
Definition httpsPattern : regex :=
  seq [ lit "https://"; Group 1 (plus (not_chr "/")); chr "/";
        Group 2 (plus_lazy dot); chr "/"; Group 3 (plus_lazy dot);
        opt (lit ".git"); opt (Seq (chr "/") (star dot)); Eol ].

(** The value [{ host: null, owner: null, repo: null, org: null }] that [info]
    holds before any match. *)
Definition info0 : info := {| host := None; owner := None; repo := None; org := None |}.

(** The [try] block has no operation that throws on a string: the function is
    total, and its [catch] branch is never taken. *)
Definition parseRepositoryUrl (url : string) (type : string) : info :=
  if Str.startsWith url "git@" then
    match exec sshPattern url with
    | Some sshMatch =>
        {| host := get_cap 1 (groups sshMatch);
           owner := get_cap 2 (groups sshMatch);
           repo := get_cap 3 (groups sshMatch);
           org := None |}
    | None => info0
    end
  else if Str.startsWith url "https://" then
    if String.eqb type "azure" then
      match exec azurePattern url with
      | Some azureMatch =>
          {| host := Some "dev.azure.com";
             owner := get_cap 2 (groups azureMatch);
             repo := get_cap 3 (groups azureMatch);
             org := get_cap 1 (groups azureMatch) |}
      | None => info0
      end
    else
      match exec httpsPattern url with
      | Some httpsMatch =>
          {| host := get_cap 1 (groups httpsMatch);
             owner := get_cap 2 (groups httpsMatch);
             repo := get_cap 3 (groups httpsMatch);
             org := None |}
      | None => info0
      end
  else info0.

(** *** [generateRepositoryUrl] *)

(** The fields of [details] that the generator reads; [None] is [undefined]. *)
Record details := {
  d_host : option string;
  d_owner : option string;
  d_repo : option string;
  d_project : option string;
  d_protocol : option string;
  d_url : option string
}.

(** A string or [undefined], read as a condition. *)
Definition truthy (v : option string) : bool :=
  match v with
  | Some s => negb (Str.is_empty s)
  | None => false
  end.

(** [a || b] *)
Definition or_else (a b : option string) : option string :=
  if truthy a then a else b.

(** A string or [undefined], where a string is expected. *)
Definition toString (v : option string) : string :=
  match v with
  | Some s => s
  | None => "undefined"
  end.

(** [details.host || config.baseUrl?.replace('https://', '') || 'github.com'] *)
Definition effectiveHost (config : repositoryType) (d : details) : string :=
  toString
    (or_else
       (or_else (d_host d)
          (option_map (fun b => Str.replace b "https://" EmptyString) (baseUrl config)))
       (Some "github.com")).

Definition generateRepositoryUrl (type : string) (d : details)
  : result (option string) :=
  let config := lookup type repositoryTypes in
  if String.eqb type "custom" then Ok (d_url d)
  else
    match config with
    | None => Throw "TypeError: Cannot read properties of undefined"
    | Some config =>
        let host := effectiveHost config d in
        let protocol := toString (or_else (d_protocol d) (Some "https")) in
        let template :=
          if String.eqb protocol "ssh" then sshFormat config
          else httpsFormat config in
        match template with
        | None => Throw "TypeError: Cannot read properties of null"
        | Some template =>
            let url :=
              Str.replace
                (Str.replace (Str.replace template "{host}" host)
                   "{owner}" (toString (d_owner d)))
                "{repo}" (toString (d_repo d)) in
            let url :=
              if String.eqb type "azure" then
                Str.replace
                  (Str.replace url "{org}" (toString (d_owner d)))
                  "{project}" (toString (d_project d))
              else url in
            Ok (Some url)
        end
    end.

(** *** The vocabulary of the round trip

    A segment is a non-empty string without a slash, a dollar sign, an
    opening brace or a line terminator.  The providers with a two-segment
    path; the host that a parse of the generated address returns. *)
Definition plain_char (x : ascii) : bool :=
  negb (Ascii.eqb x "/") && negb (Ascii.eqb x "$") && negb (Ascii.eqb x "{")
  && negb (Ascii.eqb x Str.LF) && negb (Ascii.eqb x Str.CR).

Definition segment (s : string) : Prop :=
  s <> EmptyString /\ Str.all plain_char s = true.

Definition two_segment (type : string) : bool :=
  existsb (String.eqb type) ["github"; "gitea"; "gitlab"; "bitbucket"].

Definition returned_host (type : string) (config : repositoryType) (d : details)
  : string :=
  if String.eqb type "github" then "github.com" else effectiveHost config d.

End RepositoryManager.

(* ===================================================================== *)
(** ** Values read from JSON files *)

Module Json.

Inductive json : Type :=
| JNull
| JBool (b : bool)
| JNum (q : Q)
| JStr (s : string)
| JArr (items : list json)
| JObj (fields : list (string * json)).

Fixpoint assoc (k : string) (fields : list (string * json)) : option json :=
  match fields with
  | [] => None
  | (k', v) :: rest => if String.eqb k' k then Some v else assoc k rest
  end.

(** [v.k] where [v] is neither [null] nor [undefined]; [None] is
    [undefined].  None of the property names the source reads is inherited
    from a prototype. *)
Definition prop (v : json) (k : string) : option json :=
  match v with
  | JObj fields => assoc k fields
  | _ => None
  end.

(** [v.k], which throws on [null]. *)
Definition get (v : json) (k : string) : result (option json) :=
  match v with
  | JNull => Throw "TypeError: Cannot read properties of null"
  | _ => Ok (prop v k)
  end.

(** A value read as a condition. *)
Definition truthy (v : json) : bool :=
  match v with
  | JNull => false
  | JBool b => b
  | JNum q => negb (Qeq_bool q 0)
  | JStr s => negb (Str.is_empty s)
  | JArr _ | JObj _ => true
  end.

(** [a && a.k]: the value when it is truthy. *)
Definition truthy_prop (v : json) (k : string) : option json :=
  if truthy v then
    match prop v k with
    | Some x => if truthy x then Some x else None
    | None => None
    end
  else None.

Fixpoint chars (s : string) : list json :=
  match s with
  | EmptyString => []
  | String a s' => JStr (String a EmptyString) :: chars s'
  end.

(** The values that [for (const x of v)] visits; other values are not
    iterable. *)
Definition iterate (v : json) : result (list json) :=
  match v with
  | JArr items => Ok items
  | JStr s => Ok (chars s)
  | _ => Throw "TypeError: value is not iterable"
  end.

End Json.
Export Json.

(* ===================================================================== *)
(** ** Numbers

    The numbers of the program are IEEE 754 doubles, with the operations of
    [SpecFloat] at the precision and the exponent range of the binary64
    format: each operation rounds its exact result to the nearest double,
    to the even one at a tie. *)

Module Double.

Definition prec : Z := 53.
Definition emax : Z := 1024.

(** The double of an integer literal or of an integer that the program
    counted. *)
Definition of_Z (z : Z) : spec_float := binary_normalize prec emax z 0 false.

Definition div : spec_float -> spec_float -> spec_float := SFdiv prec emax.

Definition mul : spec_float -> spec_float -> spec_float := SFmul prec emax.

(** [Math.min(a, b)]: not a number when one of the two is not, and the
    negative zero when the two are zeros of different signs. *)
Definition min (a b : spec_float) : spec_float :=
  match SFcompare a b with
  | Some Lt => a
  | Some Gt => b
  | Some Eq =>
      match a, b with
      | S754_zero sa, S754_zero sb => S754_zero (sa || sb)
      | _, _ => a
      end
  | None => S754_nan
  end.

(** The rational number that a finite double is, in lowest terms.  The
    infinite doubles and the double that is not a number are no rational
    numbers; they are given the value 0 here and arise from no total weight
    of the registry (lemma [confidence_is_finite]). *)
Definition value (x : spec_float) : Q :=
  match x with
  | S754_finite s m e =>
      let n := if s then Zneg m else Zpos m in
      match e with
      | Zneg k => Qred (n # Pos.pow 2 k)
      | _ => inject_Z (n * 2 ^ e)
      end
  | _ => 0
  end.

Definition is_finite (x : spec_float) : bool :=
  match x with
  | S754_finite _ _ _ | S754_zero _ => true
  | _ => false
  end.

End Double.

(* ===================================================================== *)
(** ** [src/utils/workspace-detector.js] *)

Module WorkspaceDetector.

Import Regex.

(** *** The capability consumed: file system, glob and path *)

Record Stats := { st_size : Z; st_mtime : Z; st_isDirectory : bool }.

Record Dirent := { de_name : string; de_isDirectory : bool }.

Record GlobOptions := { cwd : string; nodir : bool; ignore : list string }.

Record Env := {
  (** [fs.pathExists] of fs-extra: it answers [false] on any error *)
  pathExists : string -> bool;
  glob : string -> GlobOptions -> result (list string);
  readJSON : string -> result json;
  readFile : string -> result string;
  stat : string -> result Stats;
  readdir : string -> result (list Dirent);
  path_join : string -> string -> string;
  path_resolve : list string -> string;
  path_isAbsolute : string -> bool;
  path_basename : string -> string;
  path_extname : string -> string
}.

(** *** The registries *)

Record indicator := { ind_type : string; weight : Z }.

(** [Object.entries(this.workspaceIndicators)]: the keys are not integers, so
    the order is the order of the object literal. *)
Definition workspaceIndicators : list (string * string) :=
  [ ("workspace.json", "Generic Workspace");
    ("workspace.yaml", "Generic Workspace");
    ("workspace.yml", "Generic Workspace");
    ("*.code-workspace", "VS Code Workspace");
    ("lerna.json", "Lerna Monorepo");
    ("nx.json", "Nx Workspace");
    ("rush.json", "Rush Monorepo");
    ("pnpm-workspace.yaml", "pnpm Workspace");
    ("pnpm-lock.yaml", "pnpm Workspace");
    ("yarn.lock", "Yarn Workspace");
    ("WORKSPACE", "Bazel Workspace");
    ("WORKSPACE.bazel", "Bazel Workspace");
    ("Cargo.toml", "Cargo Workspace");
    ("pom.xml", "Maven Multi-Module");
    ("*.sln", ".NET Solution") ].

(** [Object.entries(this.projectIndicators)] *)
Definition projectIndicators : list (string * indicator) :=
  [ ("package.json", {| ind_type := "nodejs"; weight := 10 |});
    ("tsconfig.json", {| ind_type := "typescript"; weight := 8 |});
    ("next.config.js", {| ind_type := "nextjs"; weight := 15 |});
    ("nuxt.config.js", {| ind_type := "nuxtjs"; weight := 9 |});
    ("vue.config.js", {| ind_type := "vue"; weight := 9 |});
    ("angular.json", {| ind_type := "angular"; weight := 10 |});
    ("svelte.config.js", {| ind_type := "svelte"; weight := 9 |});
    ("pyproject.toml", {| ind_type := "python"; weight := 10 |});
    ("requirements.txt", {| ind_type := "python"; weight := 8 |});
    ("setup.py", {| ind_type := "python"; weight := 9 |});
    ("Pipfile", {| ind_type := "python"; weight := 8 |});
    ("poetry.lock", {| ind_type := "python"; weight := 7 |});
    ("Cargo.toml", {| ind_type := "rust"; weight := 10 |});
    ("go.mod", {| ind_type := "go"; weight := 10 |});
    ("go.sum", {| ind_type := "go"; weight := 8 |});
    ("*.csproj", {| ind_type := "dotnet"; weight := 10 |});
    ("*.vbproj", {| ind_type := "dotnet"; weight := 10 |});
    ("*.fsproj", {| ind_type := "dotnet"; weight := 10 |});
    ("pom.xml", {| ind_type := "java"; weight := 9 |});
    ("build.gradle", {| ind_type := "java"; weight := 9 |});
    ("gradle.properties", {| ind_type := "java"; weight := 7 |});
    ("composer.json", {| ind_type := "php"; weight := 10 |});
    ("Gemfile", {| ind_type := "ruby"; weight := 10 |});
    ("Dockerfile", {| ind_type := "docker"; weight := 5 |});
    ("docker-compose.yml", {| ind_type := "docker"; weight := 6 |}) ].

(** *** The data model *)

Record project := {
  name : json;
  path : json;
  absolutePath : string;
  type : string;
  confidence : Q;
  indicators : list string;
  fileCount : nat;
  size : Z;
  modified : Z;
  (** absent, hence falsy, until [analyzeVSCodeWorkspace] sets it *)
  isExternal : bool
}.

Inductive structure_kind := SingleProject | MultiProject | Workspace.

Record detection := {
  isWorkspace : bool;
  workspaceType : option string;
  workspaceConfig : json;
  projects : list project;
  structure : structure_kind;
  packagePatterns : option json;
  projectsConfig : option json;
  externalProjects : option (list project)
}.

(** *** The project scorer *)

Section Engine.

Variable env : Env.

(** What the loop of [analyzeProjectDirectory] carries from one indicator
    to the next. *)
Record scoring := {
  sc_indicators : list string;
  totalWeight : Z;
  maxWeight : Z;
  primaryType : string
}.

Definition scoring0 : scoring :=
  {| sc_indicators := []; totalWeight := 0; maxWeight := 0;
     primaryType := "unknown" |}.

(** [indicators[filename] = info], of which only the keys are read: a key
    that is already set keeps its place. *)
Definition set_key (k : string) (keys : list string) : list string :=
  if existsb (String.eqb k) keys then keys else keys ++ [k].

(** The condition [filePath && await fs.pathExists(filePath)] for one
    indicator, after [filePath] is computed. *)
Definition probe (dirPath filename : string) : result bool :=
  if Str.includes filename "*" then
    matches <- glob env filename {| cwd := dirPath; nodir := false; ignore := [] |} ;;
    match matches with
    | m :: _ =>
        let filePath := path_join env dirPath m in
        Ok (negb (Str.is_empty filePath) && pathExists env filePath)
    | [] => Ok false
    end
  else
    let filePath := path_join env dirPath filename in
    Ok (negb (Str.is_empty filePath) && pathExists env filePath).

Definition score_step (dirPath : string) (acc : scoring)
           (entry : string * indicator) : result scoring :=
  let (filename, info) := entry in
  matched <- probe dirPath filename ;;
  Ok (if matched then
        {| sc_indicators := set_key filename (sc_indicators acc);
           totalWeight := totalWeight acc + weight info;
           maxWeight :=
             if weight info >? maxWeight acc then weight info
             else maxWeight acc;
           primaryType :=
             if weight info >? maxWeight acc then ind_type info
             else primaryType acc |}
      else acc)%Z.

Fixpoint score_loop (dirPath : string) (entries : list (string * indicator))
         (acc : scoring) : result scoring :=
  match entries with
  | [] => Ok acc
  | entry :: rest =>
      acc' <- score_step dirPath acc entry ;;
      score_loop dirPath rest acc'
  end.

(** The vocabulary of the properties: an indicator is matched by a directory
    when its probe answers [true]; the weight of a set of indicators. *)
Definition is_matched (dirPath : string) (e : string * indicator) : bool :=
  match probe dirPath (fst e) with
  | Ok true => true
  | _ => false
  end.

Definition sum_weights (l : list (string * indicator)) : Z :=
  fold_right (fun e acc => (weight (snd e) + acc)%Z) 0%Z l.

(** [e] is the first of the heaviest indicators of [registry] that are
    matched. *)
Definition first_heaviest (matched : string * indicator -> bool)
           (registry : list (string * indicator)) (e : string * indicator) : Prop :=
  exists pre post,
    registry = pre ++ e :: post /\ matched e = true /\
    (forall e', In e' pre -> matched e' = true -> (weight (snd e') < weight (snd e))%Z) /\
    (forall e', In e' post -> matched e' = true -> (weight (snd e') <= weight (snd e))%Z).

(** [Math.min(100, (totalWeight / 20) * 100)], as a double: the total
    weight is a sum of the integer weights of the registry, which doubles
    hold exactly. *)
Definition confidence_double (totalWeight : Z) : spec_float :=
  Double.min (Double.of_Z 100)
    (Double.mul (Double.div (Double.of_Z totalWeight) (Double.of_Z 20))
       (Double.of_Z 100)).

Definition confidence_of (totalWeight : Z) : Q :=
  Double.value (confidence_double totalWeight).

(** The pattern "/name\s*=\s*<quote>([^<quote>]+)<quote>/" *)
Definition namePattern : regex :=
  seq [ lit "name"; star space; chr "="; star space; chr Str.quote;
        Group 1 (plus (not_chr Str.quote)); chr Str.quote ].

(** The pattern "/module\s+([^\s\n]+)/" *)
Definition modulePattern : regex :=
  seq [ lit "module"; plus space;
        Group 1 (plus (Chr (fun x => negb (Str.is_space x || Ascii.eqb x Str.LF)))) ].

(** [array.pop()] *)
Definition pop (l : list string) : option string := List.last (map Some l) None.

(** The manifest's name by a match of [pattern] in the text of [file]. *)
Definition name_by_pattern (file : string) (pattern : regex)
           (pick : string -> option json) : result (option json) :=
  if pathExists env file then
    content <- readFile env file ;;
    match exec pattern content with
    | Some m =>
        match get_cap 1 (groups m) with
        | Some v => Ok (pick v)
        | None => Ok None
        end
    | None => Ok None
    end
  else Ok None.

(** [None] is [null] or [undefined]. *)
Definition extractProjectName (dirPath projectType : string) : option json :=
  let case t := String.eqb projectType t in
  try_catch
    (if case "nodejs" || case "typescript" || case "nextjs" || case "vue"
        || case "nuxtjs" || case "svelte" then
       let packageJson := path_join env dirPath "package.json" in
       if pathExists env packageJson then
         pkg <- readJSON env packageJson ;;
         Json.get pkg "name"
       else Ok None
     else if case "rust" then
       name_by_pattern (path_join env dirPath "Cargo.toml") namePattern
         (fun v => Some (JStr v))
     else if case "python" then
       name_by_pattern (path_join env dirPath "pyproject.toml") namePattern
         (fun v => Some (JStr v))
     else if case "go" then
       name_by_pattern (path_join env dirPath "go.mod") modulePattern
         (fun modulePath => option_map JStr (pop (Str.split_on "/" modulePath)))
     else Ok None)
    (fun _ => None).

Definition countFiles (dirPath : string) : nat :=
  try_catch
    (files <- glob env "**/*"
               {| cwd := dirPath; nodir := true;
                  ignore := ["node_modules/**"; ".git/**"; "target/**";
                             "dist/**"; "build/**"] |} ;;
     Ok (List.length files))
    (fun _ => 0%nat).

(** [a || b] *)
Definition or_json (a : option json) (b : json) : json :=
  match a with
  | Some v => if Json.truthy v then v else b
  | None => b
  end.

(** [None] is [null]: no indicator matched, or an operation of the body
    threw and the [catch] of the function answered. *)
Definition analyzeProjectDirectory (dirPath : string) (dirName : json)
  : option project :=
  try_catch
    (acc <- score_loop dirPath projectIndicators scoring0 ;;
     if (totalWeight acc =? 0)%Z then Ok None
     else
       let confidence := confidence_of (totalWeight acc) in
       stats <- stat env dirPath ;;
       let fileCount := countFiles dirPath in
       let projectName :=
         or_json (extractProjectName dirPath (primaryType acc)) dirName in
       Ok (Some {| name := projectName;
                   path := dirName;
                   absolutePath := dirPath;
                   type := primaryType acc;
                   confidence := confidence;
                   indicators := sc_indicators acc;
                   fileCount := fileCount;
                   size := st_size stats;
                   modified := st_mtime stats;
                   isExternal := false |}))
    (fun _ => None).

(** *** Discovery *)

Definition ignoredDirs : list string :=
  [ "node_modules"; ".git"; ".svn"; ".hg";
    "dist"; "build"; "target"; "bin"; "obj";
    "__pycache__"; ".pytest_cache";
    ".vscode"; ".idea"; ".vs";
    "coverage"; ".nyc_output" ].

Definition shouldIgnoreDirectory (dirName : string) : bool :=
  existsb (String.eqb dirName) ignoredDirs || Str.startsWith dirName ".".

(** [Array.prototype.sort] with a comparator: the result is the stable
    arrangement, [a] before [b] where [cmp a b < 0]; the order of two
    elements is exchanged only where the comparator is positive. *)
Fixpoint sort_insert {A : Type} (cmp : A -> A -> Q) (x : A) (l : list A) : list A :=
  match l with
  | [] => [x]
  | y :: l' =>
      if Qle_bool (cmp x y) 0 then x :: l else y :: sort_insert cmp x l'
  end.

Definition sort {A : Type} (cmp : A -> A -> Q) (l : list A) : list A :=
  fold_right (sort_insert cmp) [] l.

Definition append_some {A : Type} (l : list A) (x : option A) : list A :=
  match x with Some a => l ++ [a] | None => l end.

(** The candidates in the order they are pushed: the root, then the
    directories in listing order. *)
Definition discovered (rootDir : string) (items : list Dirent) : list project :=
  let directories :=
    map de_name
      (filter (fun item => de_isDirectory item
                           && negb (shouldIgnoreDirectory (de_name item))) items) in
  fold_left
    (fun projects dirName =>
       let dirPath := path_join env rootDir dirName in
       append_some projects (analyzeProjectDirectory dirPath (JStr dirName)))
    directories
    (append_some [] (analyzeProjectDirectory rootDir (JStr "."))).

(** [b.confidence - a.confidence], of which the sort reads the sign: the
    difference of two finite doubles rounds to a double of the same sign, so
    that the sign is the one of the difference of their values. *)
Definition by_confidence (a b : project) : Q := confidence b - confidence a.

Definition scanForProjects (rootDir : string) : list project :=
  try_catch
    (items <- readdir env rootDir ;;
     Ok (sort by_confidence (discovered rootDir items)))
    (fun _ => []).

(** The vocabulary of the properties of discovery: a sequence in descending
    order of confidence; the candidates of one confidence; the discovery
    order of a root directory. *)
Definition descending (l : list project) : Prop :=
  StronglySorted (fun a b => (confidence b <= confidence a)%Q) l.


Definition discovery_order (rootDir : string) : list project :=
  match readdir env rootDir with
  | Ok items => discovered rootDir items
  | Throw _ => []
  end.

(** *** Workspace indicators *)

Definition readWorkspaceConfig (filePath : string) (_type : string) : json :=
  try_catch
    (let ext := Str.toLowerCase (path_extname env filePath) in
     if String.eqb ext ".json" || Str.endsWith filePath ".code-workspace" then
       readJSON env filePath
     else if String.eqb ext ".yaml" || String.eqb ext ".yml" then
       content <- readFile env filePath ;;
       Ok (JObj [("content", JStr (Str.take 200 content +++ "..."))])
     else if String.eqb ext ".toml" then
       content <- readFile env filePath ;;
       Ok (JObj [("content", JStr (Str.take 200 content +++ "..."))])
     else
       stats <- stat env filePath ;;
       Ok (JObj [("size", JNum (inject_Z (st_size stats)));
                 ("modified", JNum (inject_Z (st_mtime stats)))]))
    (fun _ => JNull).

(** The answer [{ found: true, type, file, config }]; [{ found: false }] is
    [None]. *)
Record workspaceInfo := {
  wi_type : string;
  wi_file : string;
  wi_config : json
}.

Fixpoint find_indicator (rootDir : string) (entries : list (string * string))
  : result (option workspaceInfo) :=
  match entries with
  | [] => Ok None
  | (filename, type) :: rest =>
      let filePath := path_join env rootDir filename in
      if Str.includes filename "*" then
        matches <- glob env filename {| cwd := rootDir; nodir := false; ignore := [] |} ;;
        match matches with
        | m :: _ =>
            let config := readWorkspaceConfig (path_join env rootDir m) type in
            Ok (Some {| wi_type := type; wi_file := m; wi_config := config |})
        | [] => find_indicator rootDir rest
        end
      else if pathExists env filePath then
        let config := readWorkspaceConfig filePath type in
        Ok (Some {| wi_type := type; wi_file := filename; wi_config := config |})
      else find_indicator rootDir rest
  end.

Definition findWorkspaceIndicators (rootDir : string) : result (option workspaceInfo) :=
  find_indicator rootDir workspaceIndicators.

(** *** Operations on the [detection] object

    An operation mutates the object and then returns or throws; the object
    as it stands is part of both outcomes. *)

Definition effect (A : Type) : Type := detection -> detection * result A.

Definition ret {A : Type} (a : A) : effect A := fun d => (d, Ok a).

Definition ebind {A B : Type} (m : effect A) (f : A -> effect B) : effect B :=
  fun d =>
    match m d with
    | (d', Ok a) => f a d'
    | (d', Throw e) => (d', Throw e)
    end.

Definition lift {A : Type} (r : result A) : effect A := fun d => (d, r).

Definition read {A : Type} (field : detection -> A) : effect A :=
  fun d => (d, Ok (field d)).

Definition update (f : detection -> detection) : effect unit :=
  fun d => (f d, Ok tt).

Definition when (b : bool) (m : effect unit) : effect unit :=
  if b then m else ret tt.

Notation "x <~ m ;; k" := (ebind m (fun x => k))
  (at level 61, m at next level, right associativity).
Notation "m ;;; k" := (ebind m (fun _ => k))
  (at level 61, right associativity).

(** [for (const x of l) { body }] *)
Fixpoint for_of {A : Type} (l : list A) (body : A -> effect unit) : effect unit :=
  match l with
  | [] => ret tt
  | x :: l' => body x ;;; for_of l' body
  end.

Definition set_projects (ps : list project) (d : detection) : detection :=
  {| isWorkspace := isWorkspace d; workspaceType := workspaceType d;
     workspaceConfig := workspaceConfig d; projects := ps;
     structure := structure d; packagePatterns := packagePatterns d;
     projectsConfig := projectsConfig d;
     externalProjects := externalProjects d |}.

Definition set_packagePatterns (v : json) (d : detection) : detection :=
  {| isWorkspace := isWorkspace d; workspaceType := workspaceType d;
     workspaceConfig := workspaceConfig d; projects := projects d;
     structure := structure d; packagePatterns := Some v;
     projectsConfig := projectsConfig d;
     externalProjects := externalProjects d |}.

Definition set_projectsConfig (v : json) (d : detection) : detection :=
  {| isWorkspace := isWorkspace d; workspaceType := workspaceType d;
     workspaceConfig := workspaceConfig d; projects := projects d;
     structure := structure d; packagePatterns := packagePatterns d;
     projectsConfig := Some v;
     externalProjects := externalProjects d |}.

Definition set_externalProjects (ps : list project) (d : detection) : detection :=
  {| isWorkspace := isWorkspace d; workspaceType := workspaceType d;
     workspaceConfig := workspaceConfig d; projects := projects d;
     structure := structure d; packagePatterns := packagePatterns d;
     projectsConfig := projectsConfig d;
     externalProjects := Some ps |}.

(** [detection.projects.push(p)] *)
Definition push_project (p : project) (d : detection) : detection :=
  set_projects (projects d ++ [p]) d.

(** [a === b].  An array or an object is equal to itself only; the values
    compared here are read from two distinct candidates. *)
Definition strict_equal (a b : json) : bool :=
  match a, b with
  | JNull, JNull => true
  | JBool x, JBool y => Bool.eqb x y
  | JNum x, JNum y => Qeq_bool x y
  | JStr x, JStr y => String.eqb x y
  | _, _ => false
  end.

(** [pattern.replace(a, b)], which is no function unless [pattern] is a
    string. *)
Definition replace_method (pattern : json) (a b : string) : result string :=
  match pattern with
  | JStr s => Ok (Str.replace s a b)
  | _ => Throw "TypeError: pattern.replace is not a function"
  end.

(** The vocabulary of the properties of the sub-analyzers: [d'] is [d]
    with the same classification and more candidates after those of [d]. *)
Definition extends (d d' : detection) : Prop :=
  isWorkspace d' = isWorkspace d /\
  workspaceType d' = workspaceType d /\
  structure d' = structure d /\
  exists extras, projects d' = projects d ++ extras.

(** An operation respects a relation on the states of [detection] when the
    state it leaves, by return or by exception, is related to the state it
    started from. *)
Definition respects (R : detection -> detection -> Prop) {A : Type}
           (m : effect A) : Prop :=
  forall d, R d (fst (m d)).

(** *** Convention sub-analyzers *)

Definition analyzeLernaWorkspace (rootDir : string) : effect unit :=
  config <~ read workspaceConfig ;;
  match truthy_prop config "packages" with
  | Some packages =>
      update (set_packagePatterns packages) ;;;
      patterns <~ lift (iterate packages) ;;
      for_of patterns (fun pattern =>
        cleanPattern <~ lift (replace_method pattern "/*" EmptyString) ;;
        let packagesDir := path_join env rootDir cleanPattern in
        when (pathExists env packagesDir)
          (subdirs <~ lift (readdir env packagesDir) ;;
           for_of (map de_name subdirs) (fun subdir =>
             let projectPath := path_join env packagesDir subdir in
             st <~ lift (stat env projectPath) ;;
             when (st_isDirectory st)
               (let project :=
                  analyzeProjectDirectory projectPath
                    (JStr (cleanPattern +++ "/" +++ subdir)) in
                ps <~ read projects ;;
                match project with
                | Some project =>
                    when (negb (existsb (fun p => strict_equal (path p) (path project)) ps))
                      (update (push_project project))
                | None => ret tt
                end))))
  | None => ret tt
  end.

(** The pattern "/packages:\s*\n((?:\s*-\s*.+\n?)*" ")/" *)
Definition pnpmPackagesPattern : regex :=
  seq [ lit "packages:"; star space; chr Str.LF;
        Group 1 (star (seq [ star space; chr "-"; star space; plus dot;
                             opt (chr Str.LF) ])) ].

Definition quoteChar : regex :=
  Chr (fun x => Ascii.eqb x "'" || Ascii.eqb x Str.quote).

(** The pattern "/^\s*-\s*[<apostrophe><quote>]?/" *)
Definition pnpmItemStart : regex :=
  seq [ Bol; star space; chr "-"; star space; opt quoteChar ].

(** The pattern "/[<apostrophe><quote>]?\s*$/" *)
Definition pnpmItemEnd : regex :=
  seq [ opt quoteChar; star space; Eol ].

Definition analyzePnpmWorkspace (rootDir : string) : effect unit :=
  let workspaceFile := path_join env rootDir "pnpm-workspace.yaml" in
  when (pathExists env workspaceFile)
    (content <~ lift (readFile env workspaceFile) ;;
     match exec pnpmPackagesPattern content with
     | Some packagesMatch =>
         let lines :=
           Str.split_on Str.LF
             (match get_cap 1 (groups packagesMatch) with
              | Some v => v
              | None => EmptyString
              end) in
         let packages :=
           filter (fun p => negb (Str.is_empty p))
             (map (fun line =>
                     Regex.replace
                       (Regex.replace line pnpmItemStart EmptyString)
                       pnpmItemEnd EmptyString)
                (filter (fun line => Str.startsWith (Str.trim line) "-") lines)) in
         update (set_packagePatterns (JArr (map JStr packages)))
     | None => ret tt
     end).

Definition isArray (v : json) : bool :=
  match v with JArr _ => true | _ => false end.

Definition analyzeYarnWorkspace (rootDir : string) : effect unit :=
  let packageJsonPath := path_join env rootDir "package.json" in
  when (pathExists env packageJsonPath)
    (packageJson <~ lift (readJSON env packageJsonPath) ;;
     workspaces <~ lift (Json.get packageJson "workspaces") ;;
     match workspaces with
     | Some workspaces =>
         when (Json.truthy workspaces)
           (update (set_packagePatterns
                      (if isArray workspaces then workspaces
                       else or_json (prop workspaces "packages") (JArr []))))
     | None => ret tt
     end).

Definition analyzeNxWorkspace (rootDir : string) : effect unit :=
  config <~ read workspaceConfig ;;
  match truthy_prop config "projects" with
  | Some projects => update (set_projectsConfig projects)
  | None => ret tt
  end.

Definition mark_external (absolutePath : string) (folderName : json)
           (p : project) : project :=
  {| name := name p; path := folderName; absolutePath := absolutePath;
     type := type p; confidence := confidence p;
     indicators := indicators p; fileCount := fileCount p;
     size := size p; modified := modified p; isExternal := true |}.

(** The body of the loop over [detection.workspaceConfig.folders]: the
    candidate that the folder adds to the local array [externalProjects],
    if any. *)
Definition vscode_folder (rootDir : string) (folder : json)
  : result (option project) :=
  folderPath <- Json.get folder "path" ;;
  match folderPath with
  | Some (JStr folderPath) =>
      let absolutePath :=
        if path_isAbsolute env folderPath then folderPath
        else path_resolve env [rootDir; folderPath] in
      if pathExists env absolutePath
         && negb (String.eqb (path_resolve env [absolutePath])
                             (path_resolve env [rootDir]))
      then
        let folderName :=
          or_json (prop folder "name") (JStr (path_basename env absolutePath)) in
        match analyzeProjectDirectory absolutePath folderName with
        | Some project => Ok (Some (mark_external absolutePath folderName project))
        | None => Ok None
        end
      else Ok None
  | _ => Throw "TypeError: The path argument must be of type string"
  end.

(** The loop; it leaves [detection] as it is. *)
Fixpoint vscode_folders (rootDir : string) (folders : list json)
         (externalProjects : list project) : result (list project) :=
  match folders with
  | [] => Ok externalProjects
  | folder :: rest =>
      added <- vscode_folder rootDir folder ;;
      vscode_folders rootDir rest (append_some externalProjects added)
  end.

Definition analyzeVSCodeWorkspace (rootDir : string) : effect unit :=
  config <~ read workspaceConfig ;;
  match truthy_prop config "folders" with
  | Some folders =>
      items <~ lift (iterate folders) ;;
      externalProjects <~ lift (vscode_folders rootDir items []) ;;
      ps <~ read projects ;;
      update (set_projects (ps ++ externalProjects)) ;;;
      update (set_externalProjects externalProjects)
  | None => ret tt
  end.

(** The vocabulary of the properties of the two sub-analyzers that add
    candidates.

    The candidates that a convention declares, in the order of the
    declaration: for Lerna, pattern after pattern and under each pattern the
    entries of its directory in listing order; for VS Code, folder after
    folder.  A step that throws declares nothing. *)
Definition lerna_entry (packagesDir cleanPattern subdir : string) : list project :=
  let projectPath := path_join env packagesDir subdir in
  match stat env projectPath with
  | Ok st =>
      if st_isDirectory st then
        match analyzeProjectDirectory projectPath
                (JStr (cleanPattern +++ "/" +++ subdir)) with
        | Some project => [project]
        | None => []
        end
      else []
  | Throw _ => []
  end.

Definition lerna_pattern (rootDir : string) (pattern : json) : list project :=
  match replace_method pattern "/*" EmptyString with
  | Ok cleanPattern =>
      let packagesDir := path_join env rootDir cleanPattern in
      if pathExists env packagesDir then
        match readdir env packagesDir with
        | Ok subdirs =>
            flat_map (lerna_entry packagesDir cleanPattern) (map de_name subdirs)
        | Throw _ => []
        end
      else []
  | Throw _ => []
  end.

Definition vscode_entry (rootDir : string) (folder : json) : list project :=
  match vscode_folder rootDir folder with
  | Ok (Some project) => [project]
  | _ => []
  end.

(** The items of the array under the key [k] of the configuration. *)
Definition listed (config : json) (k : string) : list json :=
  match truthy_prop config k with
  | Some v =>
      match iterate v with
      | Ok items => items
      | Throw _ => []
      end
  | None => []
  end.

Definition is_type (d : detection) (t : string) : bool :=
  match workspaceType d with
  | Some w => String.eqb w t
  | None => false
  end.

Definition declared (rootDir : string) (d : detection) : list project :=
  if is_type d "Lerna Monorepo" then
    flat_map (lerna_pattern rootDir) (listed (workspaceConfig d) "packages")
  else if is_type d "VS Code Workspace" then
    flat_map (vscode_entry rootDir) (listed (workspaceConfig d) "folders")
  else [].

(** The test of the Lerna sub-analyzer, [projects.some(p => p.path ===
    project.path)]: the key is the [path] of a candidate, the string under
    which it was found. *)
Definition path_among (seen : list project) (p : project) : bool :=
  existsb (fun q => strict_equal (path q) (path p)) seen.

(** The candidates of [l], in order, without those whose [path] is the one
    of a candidate of [seen] or of a candidate before them in [l]: of two
    candidates with one [path] the first stays. *)
Fixpoint fresh (seen l : list project) : list project :=
  match l with
  | [] => []
  | p :: l' =>
      if path_among seen p then fresh seen l' else p :: fresh (seen ++ [p]) l'
  end.

(** What a sub-analyzer appends of the candidates [reached]: the Lerna one
    leaves out the paths that are already there, the VS Code one nothing. *)
Definition appended (d : detection) (scan reached : list project) : list project :=
  if is_type d "Lerna Monorepo" then fresh scan reached else reached.

Definition prefix_of {A : Type} (l1 l2 : list A) : Prop := exists rest, l2 = l1 ++ rest.

(** An operation appends the candidates [decl], without the paths that are
    already there: the state it leaves has the candidates it started from
    and after them the fresh ones of [decl], or of the first of [decl] when
    it throws before the end. *)
Definition appends {A : Type} (m : effect A) (decl : list project) : Prop :=
  forall d, exists reached,
    projects (fst (m d)) = projects d ++ fresh (projects d) reached /\
    match snd (m d) with
    | Ok _ => reached = decl
    | Throw _ => prefix_of reached decl
    end.

Definition analyzeWorkspaceStructure (rootDir : string) : effect unit :=
  workspaceType <~ read workspaceType ;;
  let case t :=
    match workspaceType with
    | Some w => String.eqb w t
    | None => false
    end in
  if case "Lerna Monorepo" then analyzeLernaWorkspace rootDir
  else if case "pnpm Workspace" then analyzePnpmWorkspace rootDir
  else if case "Yarn Workspace" then analyzeYarnWorkspace rootDir
  else if case "Nx Workspace" then analyzeNxWorkspace rootDir
  else if case "VS Code Workspace" then analyzeVSCodeWorkspace rootDir
  else ret tt.

(** *** [detectWorkspace] *)

Definition detection0 : detection :=
  {| isWorkspace := false; workspaceType := None; workspaceConfig := JNull;
     projects := []; structure := SingleProject; packagePatterns := None;
     projectsConfig := None; externalProjects := None |}.

Definition set_found (w : workspaceInfo) (d : detection) : detection :=
  {| isWorkspace := true; workspaceType := Some (wi_type w);
     workspaceConfig := wi_config w; projects := projects d;
     structure := Workspace; packagePatterns := packagePatterns d;
     projectsConfig := projectsConfig d;
     externalProjects := externalProjects d |}.

Definition set_implicit (d : detection) : detection :=
  {| isWorkspace := isWorkspace d;
     workspaceType := Some "Implicit Multi-Project";
     workspaceConfig := workspaceConfig d; projects := projects d;
     structure := MultiProject; packagePatterns := packagePatterns d;
     projectsConfig := projectsConfig d;
     externalProjects := externalProjects d |}.

(** The body of the [try] block. *)
Definition detect_body (rootDir : string) : effect unit :=
  workspaceInfo <~ lift (findWorkspaceIndicators rootDir) ;;
  match workspaceInfo with
  | Some w => update (set_found w)
  | None => ret tt
  end ;;;
  let projects := scanForProjects rootDir in
  update (set_projects projects) ;;;
  isWs <~ read isWorkspace ;;
  when (negb isWs && (1 <? List.length projects)%nat) (update set_implicit) ;;;
  isWs <~ read isWorkspace ;;
  when isWs (analyzeWorkspaceStructure rootDir).

(** Both the [return] of the [try] block and the one of the [catch] block
    give the [detection] object as it stands. *)
Definition detectWorkspace (rootDir : string) : detection :=
  fst (detect_body rootDir detection0).

End Engine.

End WorkspaceDetector.

(* ===================================================================== *)
(** ** The two libraries behind a probe

    The engine reaches the file system through [fs-extra] and [glob].  Below
    the two libraries an operation of the file system answers or fails, and
    the libraries turn a failure into an answer:
    - [fs.pathExists(p)] of fs-extra is
      [fs.access(p).then(() => true).catch(() => false)];
    - [glob(pattern, { cwd })] lists the directory that the pattern walks
      and takes a directory that it cannot list for an empty one. *)

Module Libraries.

Import WorkspaceDetector.

Record FileSystem := {
  (** [fs.access] *)
  access : string -> result unit;
  (** the listing of a directory, by the names of its entries *)
  scandir : string -> result (list string)
}.

Section Over.

Variable fs : FileSystem.

(** The names that a pattern of one segment matches. *)
Variable minimatch : string -> string -> bool.

(** The rest of the capability. *)
Variable env : Env.

Definition pathExists_over (p : string) : bool :=
  match access fs p with
  | Ok _ => true
  | Throw _ => false
  end.

(** The expansion of a pattern of one segment, as the patterns of the two
    registries are, with the option [cwd] alone: the entries of [cwd] that
    the pattern matches.  The expansion of a pattern of several segments is
    left to the capability. *)
Definition glob_over (pattern : string) (o : GlobOptions) : result (list string) :=
  if Str.includes pattern "/" then glob env pattern o
  else
    Ok (match scandir fs (cwd o) with
        | Ok names => filter (minimatch pattern) names
        | Throw _ => []
        end).

Definition with_libraries : Env :=
  {| pathExists := pathExists_over;
     glob := glob_over;
     readJSON := readJSON env;
     readFile := readFile env;
     stat := stat env;
     readdir := readdir env;
     path_join := path_join env;
     path_resolve := path_resolve env;
     path_isAbsolute := path_isAbsolute env;
     path_basename := path_basename env;
     path_extname := path_extname env |}.

(** The vocabulary of the property of a failed probe: an operation of the
    file system that the probe of [filename] in [dirPath] needs fails, the
    listing of the directory for a glob pattern or the access to the file
    that the probe looks for. *)
Definition probe_fails (dirPath filename : string) : Prop :=
  if Str.includes filename "*" then
    match scandir fs dirPath with
    | Throw _ => True
    | Ok names =>
        match filter (minimatch filename) names with
        | m :: _ => exists e, access fs (path_join env dirPath m) = Throw e
        | [] => False
        end
    end
  else exists e, access fs (path_join env dirPath filename) = Throw e.

End Over.

End Libraries.

(* ===================================================================== *)
(** ** File systems given in extension

    A directory tree written down as the list of its files and the listing
    of its directories, under absolute POSIX paths.  The
    examples of the development run the engine on such trees. *)

Module Fixture.

Import WorkspaceDetector Libraries.

Inductive content :=
| Text (s : string)
| Data (j : json).

Record tree := {
  files : list (string * content);
  dirs : list (string * list Dirent);
  (** answers of [glob] that the listing does not give: failures *)
  glob_failures : list (string * string)
}.

Fixpoint lookup {A : Type} (k : string) (l : list (string * A)) : option A :=
  match l with
  | [] => None
  | (k', v) :: rest => if String.eqb k' k then Some v else lookup k rest
  end.

Fixpoint walk (segments stack : list string) : list string :=
  match segments with
  | [] => List.rev stack
  | seg :: rest =>
      if Str.is_empty seg || String.eqb seg "." then walk rest stack
      else if String.eqb seg ".." then walk rest (List.tl stack)
      else walk rest (seg :: stack)
  end.

(** An absolute path without empty, [.] and [..] segments. *)
Definition normalize (p : string) : string :=
  "/" +++ String.concat "/" (walk (Str.split_on "/" p) []).

Definition join (a b : string) : string := normalize (a +++ "/" +++ b).

Definition basename (p : string) : string :=
  List.last (Str.split_on "/" p) EmptyString.

(** The extension: from the last dot of the base name, when that dot is not
    its first character. *)
Definition extname (p : string) : string :=
  match List.rev (Str.split_on "." (basename p)) with
  | ext :: _ :: _ =>
      if Str.is_empty (Str.take (String.length (basename p) - String.length ext - 1)
                                (basename p))
      then EmptyString else "." +++ ext
  | _ => EmptyString
  end.

Definition isAbsolute (p : string) : bool := Str.startsWith p "/".

Definition resolve (ps : list string) : string :=
  normalize (fold_left (fun acc p => if isAbsolute p then p else acc +++ "/" +++ p) ps "/").

Definition file (n : string) : Dirent := {| de_name := n; de_isDirectory := false |}.
Definition dir (n : string) : Dirent := {| de_name := n; de_isDirectory := true |}.

Definition exists_in (t : tree) (p : string) : bool :=
  match lookup p (files t), lookup p (dirs t) with
  | None, None => false
  | _, _ => true
  end.

(** The files below [cwd], by their relative paths, without those that have
    a hidden segment and those below an ignored directory. *)
Definition files_below (t : tree) (o : GlobOptions) : list string :=
  let base := cwd o +++ "/" in
  let relative p := Str.drop (String.length base) p in
  let hidden r := existsb (fun seg => Str.startsWith seg ".") (Str.split_on "/" r) in
  let ignored r :=
    existsb (fun pat => Str.startsWith r (Str.replace pat "**" EmptyString)) (ignore o) in
  map relative
    (filter (fun p => Str.startsWith p base
                      && negb (hidden (relative p)) && negb (ignored (relative p)))
       (map fst (files t))).

(** The pattern of all files matches the files below [cwd]; a pattern made
    of a star and a suffix matches the visible entries of [cwd] that end
    with the suffix; any other pattern matches the entry of that name. *)
Definition glob_in (t : tree) (pattern : string) (o : GlobOptions)
  : result (list string) :=
  if existsb (fun f => String.eqb (fst f) (cwd o) && String.eqb (snd f) pattern)
             (glob_failures t)
  then Throw "EACCES: permission denied"
  else if String.eqb pattern "**/*" then Ok (files_below t o)
  else
    match lookup (cwd o) (dirs t) with
    | None => Ok []
    | Some entries =>
        let visible :=
          filter (fun e => negb (Str.startsWith (de_name e) ".")) entries in
        Ok (map de_name
              (match pattern with
               | String "*" suffix =>
                   filter (fun e => Str.endsWith (de_name e) suffix) visible
               | _ => filter (fun e => String.eqb (de_name e) pattern) visible
               end))
    end.

(** The file system of a tree in which the directories [unreadable] cannot
    be listed, although their entries can be reached. *)
Definition fs_of (t : tree) (unreadable : list string) : FileSystem :=
  {| access := fun p =>
       if exists_in t p then Ok tt else Throw "ENOENT: no such file or directory";
     scandir := fun p =>
       if existsb (String.eqb p) unreadable then Throw "EACCES: permission denied"
       else
         match lookup p (dirs t) with
         | Some entries => Ok (map de_name entries)
         | None => Throw "ENOENT: no such file or directory"
         end |}.

(** A pattern made of a star and a suffix matches the visible names that end
    with the suffix; any other pattern matches the name that it is. *)
Definition matches (pattern name : string) : bool :=
  negb (Str.startsWith name ".")
  && match pattern with
     | String "*" suffix => Str.endsWith name suffix
     | _ => String.eqb name pattern
     end.

Definition env_of (t : tree) : Env :=
  {| pathExists := exists_in t;
     glob := glob_in t;
     readJSON := fun p =>
       match lookup p (files t) with
       | Some (Data j) => Ok j
       | Some (Text _) => Throw "SyntaxError: Unexpected token in JSON"
       | None => Throw "ENOENT: no such file or directory"
       end;
     readFile := fun p =>
       match lookup p (files t) with
       | Some (Text s) => Ok s
       | Some (Data _) => Throw "the text of this file is not given"
       | None => Throw "ENOENT: no such file or directory"
       end;
     stat := fun p =>
       match lookup p (files t), lookup p (dirs t) with
       | Some _, _ => Ok {| st_size := 64; st_mtime := 0; st_isDirectory := false |}
       | None, Some _ => Ok {| st_size := 4096; st_mtime := 0; st_isDirectory := true |}
       | None, None => Throw "ENOENT: no such file or directory"
       end;
     readdir := fun p =>
       match lookup p (dirs t) with
       | Some entries => Ok entries
       | None => Throw "ENOENT: no such file or directory"
       end;
     path_join := join;
     path_resolve := resolve;
     path_isAbsolute := isAbsolute;
     path_basename := basename;
     path_extname := extname |}.

End Fixture.

(* ===================================================================== *)
(** ** Directory trees of the examples *)

Module Examples.

Import WorkspaceDetector Fixture.

(** A Next.js application: the ecosystem manifest and the framework's own
    configuration file. *)
Definition nextjs_app : tree :=
  {| files := [ ("/app/package.json", Data (JObj [("name", JStr "nextjs-app")]));
                ("/app/next.config.js", Text "module.exports = {}") ];
     dirs := [ ("/app", [file "package.json"; file "next.config.js"]) ];
     glob_failures := [] |}.

(** A directory with a manifest only, and the same with a TypeScript
    configuration next to it. *)
Definition node_only : tree :=
  {| files := [ ("/app/package.json", Data (JObj [("name", JStr "app")])) ];
     dirs := [ ("/app", [file "package.json"]) ];
     glob_failures := [] |}.

Definition node_typescript : tree :=
  {| files := [ ("/app/package.json", Data (JObj [("name", JStr "app")]));
                ("/app/tsconfig.json", Data (JObj [])) ];
     dirs := [ ("/app", [file "package.json"; file "tsconfig.json"]) ];
     glob_failures := [] |}.

(** The directory [node_only] when it cannot be listed. *)
Definition unlisted_node_only : Env :=
  Libraries.with_libraries (fs_of node_only ["/app"]) matches (env_of node_only).

(** A directory whose only indicator is the lightest of the registry. *)
Definition docker_only : tree :=
  {| files := [ ("/srv/Dockerfile", Text "FROM scratch") ];
     dirs := [ ("/srv", [file "Dockerfile"]) ];
     glob_failures := [] |}.

(** A Lerna monorepo whose root has a Dockerfile only and whose package has
    a manifest. *)
Definition lerna_repo : tree :=
  {| files := [ ("/ws/lerna.json", Data (JObj [("packages", JArr [JStr "packages/*"])]));
                ("/ws/Dockerfile", Text "FROM scratch");
                ("/ws/packages/api/package.json", Data (JObj [("name", JStr "api")])) ];
     dirs := [ ("/ws", [file "lerna.json"; file "Dockerfile"; dir "packages"]);
               ("/ws/packages", [dir "api"]);
               ("/ws/packages/api", [file "package.json"]) ];
     glob_failures := [] |}.

Definition lerna_root_candidate : project :=
  {| name := JStr "."; path := JStr "."; absolutePath := "/ws";
     type := "docker"; confidence := 25;
     indicators := ["Dockerfile"];
     fileCount := 3; size := 4096; modified := 0; isExternal := false |}.

Definition lerna_api_candidate : project :=
  {| name := JStr "api"; path := JStr "packages/api";
     absolutePath := "/ws/packages/api";
     type := "nodejs"; confidence := 50;
     indicators := ["package.json"];
     fileCount := 1; size := 4096; modified := 0; isExternal := false |}.

(** A Lerna monorepo with two patterns, declared in the other order than
    the one in which the root lists their directories. *)
Definition lerna_two_patterns : tree :=
  {| files := [ ("/ws/lerna.json",
                 Data (JObj [("packages", JArr [JStr "libs/*"; JStr "apps/*"])]));
                ("/ws/apps/web/package.json", Data (JObj [("name", JStr "web")]));
                ("/ws/libs/core/package.json", Data (JObj [("name", JStr "core")])) ];
     dirs := [ ("/ws", [file "lerna.json"; dir "apps"; dir "libs"]);
               ("/ws/apps", [dir "web"]);
               ("/ws/libs", [dir "core"]);
               ("/ws/apps/web", [file "package.json"]);
               ("/ws/libs/core", [file "package.json"]) ];
     glob_failures := [] |}.

Definition core_candidate : project :=
  {| name := JStr "core"; path := JStr "libs/core"; absolutePath := "/ws/libs/core";
     type := "nodejs"; confidence := 50;
     indicators := ["package.json"];
     fileCount := 1; size := 4096; modified := 0; isExternal := false |}.

Definition web_candidate : project :=
  {| name := JStr "web"; path := JStr "apps/web"; absolutePath := "/ws/apps/web";
     type := "nodejs"; confidence := 50;
     indicators := ["package.json"];
     fileCount := 1; size := 4096; modified := 0; isExternal := false |}.

(** A Lerna monorepo that declares the same pattern twice. *)
Definition lerna_twice : tree :=
  {| files := [ ("/ws/lerna.json",
                 Data (JObj [("packages", JArr [JStr "packages/*"; JStr "packages/*"])]));
                ("/ws/packages/api/package.json", Data (JObj [("name", JStr "api")])) ];
     dirs := [ ("/ws", [file "lerna.json"; dir "packages"]);
               ("/ws/packages", [dir "api"]);
               ("/ws/packages/api", [file "package.json"]) ];
     glob_failures := [] |}.

(** A Lerna monorepo whose pattern names the directories of the root
    itself. *)
Definition lerna_root_pattern : tree :=
  {| files := [ ("/ws/lerna.json", Data (JObj [("packages", JArr [JStr "./*"])]));
                ("/ws/web/package.json", Data (JObj [("name", JStr "web")])) ];
     dirs := [ ("/ws", [file "lerna.json"; dir "web"]);
               ("/ws/web", [file "package.json"]) ];
     glob_failures := [] |}.

Definition web_scanned : project :=
  {| name := JStr "web"; path := JStr "web"; absolutePath := "/ws/web";
     type := "nodejs"; confidence := 50;
     indicators := ["package.json"];
     fileCount := 1; size := 4096; modified := 0; isExternal := false |}.

Definition web_declared : project :=
  {| name := JStr "web"; path := JStr "./web"; absolutePath := "/ws/web";
     type := "nodejs"; confidence := 50;
     indicators := ["package.json"];
     fileCount := 1; size := 4096; modified := 0; isExternal := false |}.

(** A VS Code workspace whose descriptor names a folder of the root. *)
Definition vscode_inner : tree :=
  {| files := [ ("/ws/dev.code-workspace",
                 Data (JObj [("folders", JArr [JObj [("path", JStr "app")]])]));
                ("/ws/app/package.json", Data (JObj [("name", JStr "app")])) ];
     dirs := [ ("/ws", [file "dev.code-workspace"; dir "app"]);
               ("/ws/app", [file "package.json"]) ];
     glob_failures := [] |}.

Definition inner_scanned : project :=
  {| name := JStr "app"; path := JStr "app"; absolutePath := "/ws/app";
     type := "nodejs"; confidence := 50;
     indicators := ["package.json"];
     fileCount := 1; size := 4096; modified := 0; isExternal := false |}.

Definition inner_declared : project :=
  {| name := JStr "app"; path := JStr "app"; absolutePath := "/ws/app";
     type := "nodejs"; confidence := 50;
     indicators := ["package.json"];
     fileCount := 1; size := 4096; modified := 0; isExternal := true |}.

(** The workspace of the unit test: a descriptor with the root itself and a
    folder outside the root under a display name. *)
Definition vscode_external : tree :=
  {| files := [ ("/fixtures/test-workspace/workspace.code-workspace",
                 Data (JObj [("folders",
                              JArr [JObj [("path", JStr ".")];
                                    JObj [("path", JStr "../external-project");
                                          ("name", JStr "External Project")]]);
                             ("settings", JObj []);
                             ("extensions", JObj [])]));
                ("/fixtures/external-project/package.json",
                 Data (JObj [("name", JStr "external-ml-project");
                             ("version", JStr "1.0.0")])) ];
     dirs := [ ("/fixtures", [dir "test-workspace"; dir "external-project"]);
               ("/fixtures/test-workspace", [file "workspace.code-workspace"]);
               ("/fixtures/external-project", [file "package.json"]) ];
     glob_failures := [] |}.

Definition external_folder : json :=
  JObj [("path", JStr "../external-project"); ("name", JStr "External Project")].

Definition external_candidate : project :=
  {| name := JStr "external-ml-project"; path := JStr "External Project";
     absolutePath := "/fixtures/external-project";
     type := "nodejs"; confidence := 50;
     indicators := ["package.json"];
     fileCount := 1; size := 4096; modified := 0; isExternal := true |}.

Definition external_folders : list json :=
  [ JObj [("path", JStr ".")]; external_folder ].

Definition external_info : workspaceInfo :=
  {| wi_type := "VS Code Workspace";
     wi_file := "workspace.code-workspace";
     wi_config := JObj [("folders", JArr external_folders);
                        ("settings", JObj []);
                        ("extensions", JObj [])] |}.

(** What the scorer answers for the folder outside the root, before the
    sub-analyzer marks it. *)
Definition external_scored : project :=
  {| name := JStr "external-ml-project"; path := JStr "External Project";
     absolutePath := "/fixtures/external-project";
     type := "nodejs"; confidence := 50;
     indicators := ["package.json"];
     fileCount := 1; size := 4096; modified := 0; isExternal := false |}.

(** Two sibling projects under a root without any workspace file. *)
Definition two_projects : tree :=
  {| files := [ ("/ws/web/package.json", Data (JObj [("name", JStr "web")]));
                ("/ws/svc/go.mod", Text "module example.com/svc") ];
     dirs := [ ("/ws", [dir "web"; dir "svc"]);
               ("/ws/web", [file "package.json"]);
               ("/ws/svc", [file "go.mod"]) ];
     glob_failures := [] |}.

(** The candidates that the scorer gives for these directories. *)
Definition nextjs_candidate : project :=
  {| name := JStr "nextjs-app"; path := JStr "."; absolutePath := "/app";
     type := "nextjs"; confidence := 100;
     indicators := ["package.json"; "next.config.js"];
     fileCount := 2; size := 4096; modified := 0; isExternal := false |}.

Definition node_only_candidate : project :=
  {| name := JStr "app"; path := JStr "."; absolutePath := "/app";
     type := "nodejs"; confidence := 50;
     indicators := ["package.json"];
     fileCount := 1; size := 4096; modified := 0; isExternal := false |}.

Definition node_typescript_candidate : project :=
  {| name := JStr "app"; path := JStr "."; absolutePath := "/app";
     type := "nodejs"; confidence := 90;
     indicators := ["package.json"; "tsconfig.json"];
     fileCount := 2; size := 4096; modified := 0; isExternal := false |}.

Definition docker_candidate : project :=
  {| name := JStr "."; path := JStr "."; absolutePath := "/srv";
     type := "docker"; confidence := 25;
     indicators := ["Dockerfile"];
     fileCount := 1; size := 4096; modified := 0; isExternal := false |}.

End Examples.

(* ===================================================================== *)
(** ** Repository details of the examples *)

Module CodecExamples.

Import RepositoryManager.

(** The details of the unit tests. *)
Definition github_details : details :=
  {| d_host := None; d_owner := Some "mycompany"; d_repo := Some "myproject";
     d_project := None; d_protocol := Some "https"; d_url := None |}.

Definition github_config : repositoryType :=
  {| rt_name := "GitHub";
     description := "GitHub.com - Public and private repositories";
     baseUrl := Some "https://github.com";
     sshFormat := Some "git@github.com:{owner}/{repo}.git";
     httpsFormat := Some "https://github.com/{owner}/{repo}.git";
     webFormat := Some "https://github.com/{owner}/{repo}";
     supportsPages := true; supportsActions := true; supportsPackages := true |}.

Definition azure_details : details :=
  {| d_host := None; d_owner := Some "myorg"; d_repo := Some "myrepo";
     d_project := Some "myproject"; d_protocol := Some "https"; d_url := None |}.

(** An owner with a dollar sign before an ampersand. *)
Definition dollar_details : details :=
  {| d_host := None; d_owner := Some "R$&D"; d_repo := Some "tools";
     d_project := None; d_protocol := Some "https"; d_url := None |}.

(** A Gitea host with a port, over SSH. *)
Definition port_details : details :=
  {| d_host := Some "git.example.com:2222"; d_owner := Some "team";
     d_repo := Some "project"; d_project := None; d_protocol := Some "ssh";
     d_url := None |}.

End CodecExamples.

(* ===================================================================== *)
(** ** [src/utils/repository-manager.js]: remotes of an existing repository *)

Module RepositoryRemotes.

Import Regex RepositoryManager WorkspaceDetector.

(** [s.matchAll(r)] for a regular expression with the [g] flag and without
    an anchor: the successive leftmost matches, each sought in what follows
    the one before; after a match of the empty text the search resumes one
    character further.  Every round but the last shortens the subject, so
    its length and one is enough fuel. *)
Fixpoint matchAll_from (r : regex) (fuel : nat) (s : string) : list found :=
  match fuel with
  | O => []
  | S fuel' =>
      match exec r s with
      | Some m =>
          let rest :=
            if (String.length (before m) + String.length (after m) =? String.length s)%nat
            then Str.drop 1 (after m) else after m in
          m :: matchAll_from r fuel' rest
      | None => []
      end
  end.

Definition matchAll (r : regex) (s : string) : list found :=
  matchAll_from r (S (String.length s)) s.

(** The pattern
    "/\[remote <quote>([^<quote>]+)<quote>\]\s*\n\s*url\s*=\s*(.+)/g" *)
Definition remotePattern : regex :=
  seq [ lit "[remote "; chr Str.quote; Group 1 (plus (not_chr Str.quote));
        chr Str.quote; chr "]"; star space; chr Str.LF; star space; lit "url";
        star space; chr "="; star space; Group 2 (plus dot) ].

(** The pattern "/ref: refs\/heads\/(.+)/" *)
Definition headPattern : regex :=
  seq [ lit "ref: refs/heads/"; Group 1 (plus dot) ].

Definition detectRepositoryType (url : string) : string :=
  if Str.includes url "github.com" then "github"
  else if Str.includes url "gitlab.com" || Str.includes url "gitlab" then "gitlab"
  else if Str.includes url "bitbucket.org" || Str.includes url "bitbucket" then "bitbucket"
  else if Str.includes url "dev.azure.com" || Str.includes url "visualstudio.com"
  then "azure"
  else if Str.includes url "gitea" then "gitea"
  else "custom".

(** The object [{ name, url, type, ...repoInfo }]. *)
Record remote := {
  r_name : string;
  r_url : string;
  r_type : string;
  r_host : option string;
  r_owner : option string;
  r_repo : option string;
  r_org : option string
}.

(** [m[i].trim()], which throws where the group did not take part in the
    match. *)
Definition trimmed_group (m : found) (i : nat) : result string :=
  match get_cap i (groups m) with
  | Some v => Ok (Str.trim v)
  | None => Throw "TypeError: Cannot read properties of undefined"
  end.

(** The body of the loop over the matches. *)
Definition remote_of_match (m : found) : result remote :=
  url <- trimmed_group m 2 ;;
  let repoType := detectRepositoryType url in
  let repoInfo := parseRepositoryUrl url repoType in
  name <- trimmed_group m 1 ;;
  Ok {| r_name := name; r_url := url; r_type := repoType;
        r_host := host repoInfo; r_owner := owner repoInfo;
        r_repo := repo repoInfo; r_org := org repoInfo |}.

Fixpoint collect {A B : Type} (f : A -> result B) (l : list A) : result (list B) :=
  match l with
  | [] => Ok []
  | a :: l' =>
      b <- f a ;;
      bs <- collect f l' ;;
      Ok (b :: bs)
  end.

Definition parseGitRemotes (configContent : string) : result (list remote) :=
  collect remote_of_match (matchAll remotePattern configContent).

Record repoInfo := {
  hasGit : bool;
  remotes : list remote;
  currentBranch : option string;
  hasCommits : bool
}.

Definition repoInfo0 : repoInfo :=
  {| hasGit := false; remotes := []; currentBranch := None; hasCommits := false |}.

Section Inspection.

Variable env : Env.

(** [repoInfo.remotes], when the file [config] exists. *)
Definition read_remotes (gitDir : string) : result (option (list remote)) :=
  let gitConfig := path_join env gitDir "config" in
  if pathExists env gitConfig then
    configContent <- readFile env gitConfig ;;
    remotes <- parseGitRemotes configContent ;;
    Ok (Some remotes)
  else Ok None.

(** [repoInfo.currentBranch], when the file [HEAD] exists and names a
    branch; a failure to read the file is caught where it occurs. *)
Definition read_branch (gitDir : string) : result (option string) :=
  let headFile := path_join env gitDir "HEAD" in
  if pathExists env headFile then
    let headContent := try_catch (readFile env headFile) (fun _ => EmptyString) in
    match exec headPattern headContent with
    | Some branchMatch =>
        branch <- trimmed_group branchMatch 1 ;;
        Ok (Some branch)
    | None => Ok None
    end
  else Ok None.

(** [repoInfo.hasCommits], when the directory [refs/heads] exists; a failure
    to list it is caught where it occurs.  [path.join] of three segments is
    the join of the first two with the third. *)
Definition read_commits (gitDir : string) : option bool :=
  let refsHeads := path_join env (path_join env gitDir "refs") "heads" in
  if pathExists env refsHeads then
    let branches := try_catch (readdir env refsHeads) (fun _ => []) in
    Some (0 <? List.length branches)%nat
  else None.

Definition set_remotes (v : option (list remote)) (info : repoInfo) : repoInfo :=
  match v with
  | Some l =>
      {| hasGit := hasGit info; remotes := l; currentBranch := currentBranch info;
         hasCommits := hasCommits info |}
  | None => info
  end.

Definition set_currentBranch (v : option string) (info : repoInfo) : repoInfo :=
  match v with
  | Some b =>
      {| hasGit := hasGit info; remotes := remotes info; currentBranch := Some b;
         hasCommits := hasCommits info |}
  | None => info
  end.

Definition set_hasCommits (v : option bool) (info : repoInfo) : repoInfo :=
  match v with
  | Some b =>
      {| hasGit := hasGit info; remotes := remotes info;
         currentBranch := currentBranch info; hasCommits := b |}
  | None => info
  end.

(** The [catch] block returns the object as the [try] block left it. *)
Definition analyzeExistingRepositories (projectPath : string) : repoInfo :=
  let repoInfo := repoInfo0 in
  let gitDir := path_join env projectPath ".git" in
  if negb (pathExists env gitDir) then repoInfo
  else
    let repoInfo :=
      {| hasGit := true; remotes := remotes repoInfo;
         currentBranch := currentBranch repoInfo; hasCommits := hasCommits repoInfo |} in
    match read_remotes gitDir with
    | Throw _ => repoInfo
    | Ok remotes =>
        let repoInfo := set_remotes remotes repoInfo in
        match read_branch gitDir with
        | Throw _ => repoInfo
        | Ok branch =>
            let repoInfo := set_currentBranch branch repoInfo in
            set_hasCommits (read_commits gitDir) repoInfo
        end
    end.

End Inspection.

End RepositoryRemotes.

(* ===================================================================== *)
(** ** [src/utils/repository-manager.js]: web addresses, commands, summary *)

Module RepositoryCommands.

Import RepositoryManager.

(** What reading a property of the registry gives: one of its own entries,
    or a member that the registry, an object literal, inherits from
    [Object.prototype]; of an inherited member only the property [name] is
    ever set among those that the code reads. *)
Inductive member :=
| Own (config : repositoryType)
| Inherited (name : option string).

(** The members of [Object.prototype]: functions that carry their own name,
    the constructor [Object], and [__proto__], which reads the prototype
    itself and has no name. *)
Definition prototypeMembers : list (string * member) :=
  [ ("constructor", Inherited (Some "Object"));
    ("__defineGetter__", Inherited (Some "__defineGetter__"));
    ("__defineSetter__", Inherited (Some "__defineSetter__"));
    ("hasOwnProperty", Inherited (Some "hasOwnProperty"));
    ("__lookupGetter__", Inherited (Some "__lookupGetter__"));
    ("__lookupSetter__", Inherited (Some "__lookupSetter__"));
    ("isPrototypeOf", Inherited (Some "isPrototypeOf"));
    ("propertyIsEnumerable", Inherited (Some "propertyIsEnumerable"));
    ("toString", Inherited (Some "toString"));
    ("valueOf", Inherited (Some "valueOf"));
    ("__proto__", Inherited None);
    ("toLocaleString", Inherited (Some "toLocaleString")) ].

Fixpoint inherited (key : string) (table : list (string * member)) : option member :=
  match table with
  | [] => None
  | (k, v) :: rest => if String.eqb k key then Some v else inherited key rest
  end.

(** [this.repositoryTypes[type]], where the property may be inherited;
    [None] is [undefined]. *)
Definition member_of (type : string) : option member :=
  match lookup type repositoryTypes with
  | Some config => Some (Own config)
  | None => inherited type prototypeMembers
  end.

(** The address of the repository's page; [Ok None] is [null]. *)
Definition generateWebUrl (type : string) (d : details) : result (option string) :=
  let config := member_of type in
  if String.eqb type "custom" then Ok None
  else
    match config with
    | None => Throw "TypeError: Cannot read properties of undefined"
    | Some (Inherited _) => Ok None
    | Some (Own config) =>
        if negb (truthy (webFormat config)) then Ok None
        else
          let host := effectiveHost config d in
          let url :=
            Str.replace
              (Str.replace (Str.replace (toString (webFormat config)) "{host}" host)
                 "{owner}" (toString (d_owner d)))
              "{repo}" (toString (d_repo d)) in
          let url :=
            if String.eqb type "azure" then
              Str.replace
                (Str.replace url "{org}" (toString (d_owner d)))
                "{project}" (toString (d_project d))
            else url in
          Ok (Some url)
    end.

(** An entry of the array [repositories]: the fields that the functions
    below read, [None] for [undefined].  The same object is handed to
    [generateWebUrl], which reads its [host], [owner], [repo] and
    [project]. *)
Record repository := {
  rp_action : option string;
  rp_name : option string;
  rp_type : string;
  rp_url : option string;
  rp_visibility : option string;
  rp_host : option string;
  rp_owner : option string;
  rp_repo : option string;
  rp_project : option string
}.

Definition as_details (repo : repository) : details :=
  {| d_host := rp_host repo; d_owner := rp_owner repo; d_repo := rp_repo repo;
     d_project := rp_project repo; d_protocol := None; d_url := rp_url repo |}.

(** A value in a template literal. *)
Definition shown (v : option string) : string :=
  match v with
  | Some s => s
  | None => "undefined"
  end.

Definition shown_or_null (v : option string) : string :=
  match v with
  | Some s => s
  | None => "null"
  end.

(** [config?.flag], read as a condition. *)
Definition flag (f : repositoryType -> bool) (config : option member) : bool :=
  match config with
  | Some (Own c) => f c
  | _ => false
  end.

(** [config.name] *)
Definition name_of (config : member) : option string :=
  match config with
  | Own c => Some (rt_name c)
  | Inherited name => name
  end.

(** [config?.name] *)
Definition name_if_any (config : option member) : option string :=
  match config with
  | Some c => name_of c
  | None => None
  end.

Definition generateDeployCommands (repo : repository) : result (list string) :=
  let commands := [] in
  let config := member_of (rp_type repo) in
  let commands :=
    if flag supportsActions config
       && (String.eqb (rp_type repo) "github" || String.eqb (rp_type repo) "gitlab")
    then commands ++ ["# " +++ shown (name_if_any config)
                      +++ " Actions/CI deployment will be triggered automatically on push"]
    else commands in
  commands <-
    (if flag supportsPages config && String.eqb (rp_type repo) "github" then
       webUrl <- generateWebUrl (rp_type repo) (as_details repo) ;;
       Ok (commands ++ ["# Enable GitHub Pages: Visit " +++ shown_or_null webUrl
                        +++ "/settings/pages"])
     else Ok commands) ;;
  let commands :=
    if flag supportsPackages config
    then commands ++ ["# Package publishing available for " +++ shown (name_if_any config)]
    else commands in
  Ok commands.

Record commands := {
  setup : list string;
  push : list string;
  deploy : list string
}.

Definition commands0 : commands := {| setup := []; push := []; deploy := [] |}.

(** [repo.action === 'add'] *)
Definition is_add (repo : repository) : bool :=
  match rp_action repo with
  | Some a => String.eqb a "add"
  | None => false
  end.

(** The body of [repositories.forEach]. *)
Definition add_commands (acc : commands) (repo : repository) : result commands :=
  if is_add repo then
    let setup' :=
      setup acc ++ ["git remote add " +++ shown (rp_name repo) +++ " "
                    +++ shown (rp_url repo)] in
    let push' := push acc ++ ["git push -u " +++ shown (rp_name repo) +++ " main"] in
    deployCommands <- generateDeployCommands repo ;;
    Ok {| setup := setup'; push := push'; deploy := deploy acc ++ deployCommands |}
  else Ok acc.

Fixpoint forEach {S A : Type} (body : S -> A -> result S) (l : list A) (acc : S)
  : result S :=
  match l with
  | [] => Ok acc
  | a :: l' =>
      acc' <- body acc a ;;
      forEach body l' acc'
  end.

Definition generateRepositoryCommands (repositories : list repository) : result commands :=
  forEach add_commands repositories commands0.

Record features := { pages : bool; actions : bool; packages : bool }.

Record summary := {
  s_name : option string;
  s_type : string;
  s_url : option string;
  s_webUrl : option string;
  s_visibility : string;
  s_features : features
}.

Definition summarize (repo : repository) : result summary :=
  let config := member_of (rp_type repo) in
  webUrl <- generateWebUrl (rp_type repo) (as_details repo) ;;
  Ok {| s_name := rp_name repo;
        s_type := toString (or_else (name_if_any config) (Some (rp_type repo)));
        s_url := rp_url repo;
        s_webUrl := webUrl;
        s_visibility := toString (or_else (rp_visibility repo) (Some "unknown"));
        s_features :=
          {| pages := flag supportsPages config;
             actions := flag supportsActions config;
             packages := flag supportsPackages config |} |}.

(** [repositories.map(...)]: the first call that throws ends the map. *)
Fixpoint formatRepositorySummary (repositories : list repository) : result (list summary) :=
  match repositories with
  | [] => Ok []
  | repo :: rest =>
      s <- summarize repo ;;
      ss <- formatRepositorySummary rest ;;
      Ok (s :: ss)
  end.

Definition getVisibilityDescription (visibility : string) : string :=
  if String.eqb visibility "private" then "Private - Only collaborators can access"
  else if String.eqb visibility "public" then "Public - Anyone can view"
  else if String.eqb visibility "internal"
  then "Internal - Organization members can access"
  else "Unknown visibility".

End RepositoryCommands.

(* ===================================================================== *)
(** ** [src/utils/repository-manager.js]: the questions of the dialogue *)

Module RepositoryPrompts.

Import RepositoryManager RepositoryRemotes RepositoryCommands.

Record choice := { c_name : string; c_value : string }.

(** [array.splice(i, 0, x)] *)
Definition splice_insert {A : Type} (i : nat) (x : A) (l : list A) : list A :=
  firstn i l ++ x :: skipn i l.

Definition getVisibilityChoices (type : string) : list choice :=
  let baseChoices :=
    [ {| c_name := "Private - Only you and collaborators can access";
         c_value := "private" |};
      {| c_name := "Public - Anyone can view this repository"; c_value := "public" |} ] in
  let baseChoices :=
    if String.eqb type "gitlab" || String.eqb type "azure" then
      splice_insert 1
        {| c_name := "Internal - Organization/group members can access";
           c_value := "internal" |} baseChoices
    else baseChoices in
  let baseChoices :=
    if String.eqb type "github" then
      splice_insert 1
        {| c_name := "Internal - Enterprise members can access (GitHub Enterprise only)";
           c_value := "internal" |} baseChoices
    else baseChoices in
  baseChoices.

Definition getDefaultVisibility (_type : string) : string := "private".

(** [this.defaultRemoteNames] *)
Definition defaultRemoteNames : list (string * string) :=
  [ ("github", "origin"); ("gitea", "gitea"); ("gitlab", "gitlab");
    ("bitbucket", "bitbucket"); ("azure", "azure"); ("custom", "custom") ].

Fixpoint remote_name (type : string) (table : list (string * string)) : option string :=
  match table with
  | [] => None
  | (k, v) :: rest => if String.eqb k type then Some v else remote_name type rest
  end.

(** The answer of a [validate] function: [true], or the message shown. *)
Inductive validation :=
| Valid
| Invalid (message : string).

(** [(input) => input.length > 0 || message] *)
Definition required (message : string) (input : string) : validation :=
  if (0 <? String.length input)%nat then Valid else Invalid message.

(** The default answer of a question: a value, or a member inherited by the
    table of remote names. *)
Inductive default :=
| Given (j : json)
| Member (m : member).

(** [this.defaultRemoteNames[type] || type] *)
Definition defaultRemoteName (type : string) : default :=
  match remote_name type defaultRemoteNames with
  | Some n => Given (JStr (toString (or_else (Some n) (Some type))))
  | None =>
      match inherited type prototypeMembers with
      | Some m => Member m
      | None => Given (JStr type)
      end
  end.

(** [config.baseUrl === null] *)
Definition baseUrl_is_null (config : member) : bool :=
  match config with
  | Own c => match baseUrl c with None => true | Some _ => false end
  | Inherited _ => false
  end.

Record prompt := {
  p_type : string;
  p_name : string;
  p_message : string;
  p_default : option default;
  p_validate : option (string -> validation);
  p_choices : list choice
}.

Definition input (name message : string) (default : option default)
           (validate : option (string -> validation)) : prompt :=
  {| p_type := "input"; p_name := name; p_message := message;
     p_default := default; p_validate := validate; p_choices := [] |}.

Definition list_of (name message : string) (choices : list choice) (default : string)
  : prompt :=
  {| p_type := "list"; p_name := name; p_message := message;
     p_default := Some (Given (JStr default)); p_validate := None; p_choices := choices |}.

Definition promptForRepositoryDetails (type : string) (projectName : json)
  : result (list prompt) :=
  let config := member_of type in
  let prompts := [] in
  if String.eqb type "custom" then
    let prompts :=
      prompts ++ [input "name" "Remote name:" (Some (Given (JStr "origin"))) None] in
    let prompts :=
      prompts ++ [input "url" "Repository URL:" None
                    (Some (required "Repository URL is required"))] in
    let prompts :=
      prompts ++
      [list_of "visibility" "Repository visibility:"
         [ {| c_name := "Private - Only you and collaborators can access";
              c_value := "private" |};
           {| c_name := "Public - Anyone can view this repository";
              c_value := "public" |};
           {| c_name := "Internal - Organization members can access";
              c_value := "internal" |};
           {| c_name := "Unknown - Visibility not specified"; c_value := "unknown" |} ]
         "private"] in
    Ok prompts
  else
    match config with
    | None => Throw "TypeError: Cannot read properties of undefined"
    | Some config =>
        let prompts :=
          prompts ++
          [input "name" ("Remote name for " +++ shown (name_of config) +++ ":")
             (Some (defaultRemoteName type)) None] in
        let prompts :=
          if String.eqb type "gitea"
             || (String.eqb type "gitlab" && baseUrl_is_null config)
          then prompts ++
               [input "host" (shown (name_of config) +++ " host (e.g., git.example.com):")
                  None
                  (Some (required "Host is required"))]
          else prompts in
        let prompts :=
          prompts ++
          [input "owner"
             (if String.eqb type "azure" then "Organization:"
              else "Repository owner/username:")
             None (Some (required "Owner is required"))] in
        let prompts :=
          if String.eqb type "azure"
          then prompts ++
               [input "project" "Project name:" None
                  (Some (required "Project name is required"))]
          else prompts in
        let prompts :=
          prompts ++
          [input "repo" "Repository name:" (Some (Given projectName))
             (Some (required "Repository name is required"))] in
        let prompts :=
          prompts ++
          [list_of "visibility" "Repository visibility:" (getVisibilityChoices type)
             (getDefaultVisibility type)] in
        let prompts :=
          prompts ++
          [list_of "protocol" "Preferred protocol:"
             [ {| c_name := "HTTPS (recommended for most users)"; c_value := "https" |};
               {| c_name := "SSH (requires SSH key setup)"; c_value := "ssh" |} ]
             "https"] in
        Ok prompts
    end.

(** The value of an entry of the menu. *)
Inductive selection :=
| Keep (r : remote)
| Add (type : string)
| Skip.

Inductive entry :=
| Separator (line : string)
| Item (name : string) (value : selection) (checked : bool).

Definition keep_item (r : remote) : entry :=
  let repoType := member_of (r_type r) in
  Item ("Keep " +++ r_name r +++ " ("
        +++ toString (or_else (name_if_any repoType) (Some (r_type r)))
        +++ ") - " +++ r_url r)
       (Keep r) true.

Definition generateRepositoryChoices (existingRemotes : list remote) : list entry :=
  let choices := [] in
  let choices :=
    if (0 <? List.length existingRemotes)%nat then
      (choices ++ [Separator "--- Existing Remotes ---"]) ++ map keep_item existingRemotes
    else choices in
  let choices := choices ++ [Separator "--- Add New Repository ---"] in
  let choices :=
    choices ++
    map (fun e : string * repositoryType =>
           let (key, config) := e in
           Item (rt_name config +++ " - " +++ description config) (Add key) false)
        (filter (fun e => negb (String.eqb (fst e) "custom")) repositoryTypes) in
  let choices :=
    choices ++
    [Item "Custom Repository - Specify your own Git server" (Add "custom") false] in
  let choices := choices ++ [Separator "--- Other Options ---"] in
  let choices := choices ++ [Item "Skip repository configuration" Skip false] in
  choices.

End RepositoryPrompts.

(* ===================================================================== *)
(** ** [src/utils/workspace-detector.js]: the summary of a detection *)

Module DetectionSummary.

Import WorkspaceDetector.

(** [Math.round]: the nearest integer, the larger one at a tie. *)
Definition round (q : Q) : Z := Qfloor (q + (1 # 2)).

Record projectSummary := {
  ps_name : json;
  ps_type : string;
  ps_path : json;
  ps_confidence : Z
}.

Record detectionSummary := {
  ds_structure : structure_kind;
  ds_type : string;
  projectCount : nat;
  ds_projects : list projectSummary
}.

Definition formatDetectionSummary (d : detection) : detectionSummary :=
  {| ds_structure := structure d;
     ds_type :=
       RepositoryManager.toString
         (RepositoryManager.or_else (workspaceType d) (Some "Single Project"));
     projectCount := List.length (projects d);
     ds_projects :=
       map (fun p => {| ps_name := name p; ps_type := type p; ps_path := path p;
                        ps_confidence := round (confidence p) |})
           (projects d) |}.

End DetectionSummary.

(* ===================================================================== *)
(** ** Vocabulary of the further properties *)

Module Vocabulary.

Import WorkspaceDetector.

(** The test that [findWorkspaceIndicators] makes for one entry of its
    registry: a glob pattern is present when its expansion under the root
    is not empty, a plain name when the path exists. *)
Definition indicator_present (env : Env) (rootDir filename : string) : result bool :=
  if Str.includes filename "*" then
    matches <- glob env filename {| cwd := rootDir; nodir := false; ignore := [] |} ;;
    Ok (negb (Nat.eqb (List.length matches) 0))
  else Ok (pathExists env (path_join env rootDir filename)).

(** A text that [replace] copies as it stands and in which no placeholder
    is sought: no dollar sign, no opening brace. *)
Definition verbatim (s : string) : Prop :=
  Str.all Str.no_dollar s = true /\ Str.all Str.no_brace s = true.

(** A repository name that does not end with the suffix [.git]. *)
Definition bare (repo : string) : Prop := forall u, repo <> u +++ ".git".

(** A section of a git configuration file that declares a remote, as git
    writes it: the header with the name between quotes, the line of the
    address after an indentation, then other lines. *)
Record remoteSection := {
  sec_name : string;
  sec_indent : string;
  sec_url : string;
  sec_rest : string
}.

Definition render (s : remoteSection) : string :=
  "[remote " +++ String Str.quote (sec_name s) +++ String Str.quote "]"
  +++ String Str.LF (sec_indent s) +++ "url = " +++ sec_url s
  +++ String Str.LF (sec_rest s).

(** The text of successive sections. *)
Fixpoint sections_text (l : list remoteSection) : string :=
  match l with
  | [] => EmptyString
  | s :: l' => render s +++ sections_text l'
  end.

Definition no_quote (x : ascii) : bool := negb (Ascii.eqb x Str.quote).

(** A space or a tab. *)
Definition blank (x : ascii) : bool := Ascii.eqb x " " || Ascii.eqb x (ascii_of_nat 9).

(** The name is not empty and holds no quote; the address is not empty,
    stands on one line and does not begin with white space; the lines that
    follow hold no quote. *)
Definition well_formed (s : remoteSection) : Prop :=
  sec_name s <> EmptyString /\ Str.all no_quote (sec_name s) = true /\
  Str.all blank (sec_indent s) = true /\
  sec_url s <> EmptyString /\ Str.all Regex.any_char (sec_url s) = true /\
  (forall a r, sec_url s = String a r -> Str.is_space a = false) /\
  Str.all no_quote (sec_rest s) = true.

(** The remote that a section declares. *)
Definition remote_of_section (s : remoteSection) : RepositoryRemotes.remote :=
  let url := Str.trim (sec_url s) in
  let repoType := RepositoryRemotes.detectRepositoryType url in
  let repoInfo := RepositoryManager.parseRepositoryUrl url repoType in
  {| RepositoryRemotes.r_name := Str.trim (sec_name s);
     RepositoryRemotes.r_url := url;
     RepositoryRemotes.r_type := repoType;
     RepositoryRemotes.r_host := RepositoryManager.host repoInfo;
     RepositoryRemotes.r_owner := RepositoryManager.owner repoInfo;
     RepositoryRemotes.r_repo := RepositoryManager.repo repoInfo;
     RepositoryRemotes.r_org := RepositoryManager.org repoInfo |}.

(** What the pattern of HTTPS addresses reads after the repository. *)
Definition https_tail : Regex.regex :=
  Regex.seq [ Regex.opt (Regex.lit ".git");
              Regex.opt (Regex.Seq (Regex.chr "/") (Regex.star Regex.dot));
              Regex.Eol ].

(** The entry that the dialogue of [src/index.js] makes of a remote that is
    kept: [{ action: 'keep', ...selection.remote }]. *)
Definition kept (r : RepositoryRemotes.remote) : RepositoryCommands.repository :=
  {| RepositoryCommands.rp_action := Some "keep";
     RepositoryCommands.rp_name := Some (RepositoryRemotes.r_name r);
     RepositoryCommands.rp_type := RepositoryRemotes.r_type r;
     RepositoryCommands.rp_url := Some (RepositoryRemotes.r_url r);
     RepositoryCommands.rp_visibility := None;
     RepositoryCommands.rp_host := RepositoryRemotes.r_host r;
     RepositoryCommands.rp_owner := RepositoryRemotes.r_owner r;
     RepositoryCommands.rp_repo := RepositoryRemotes.r_repo r;
     RepositoryCommands.rp_project := None |}.

(** The values that the entries of a menu offer, without the separators, and
    those that are checked beforehand. *)
Definition offered (menu : list RepositoryPrompts.entry) : list RepositoryPrompts.selection :=
  flat_map (fun e => match e with
                     | RepositoryPrompts.Item _ v _ => [v]
                     | RepositoryPrompts.Separator _ => []
                     end) menu.

Definition checked (menu : list RepositoryPrompts.entry) : list RepositoryPrompts.selection :=
  flat_map (fun e => match e with
                     | RepositoryPrompts.Item _ v true => [v]
                     | _ => []
                     end) menu.

(** The characters of the class "[^\s\n]" of the pattern of module paths. *)
Definition word_char (x : ascii) : bool := negb (Str.is_space x || Ascii.eqb x Str.LF).

(** The total weight of the indicators that a directory matches. *)
Definition matched_weight (env : Env) (dirPath : string) : Z :=
  sum_weights (filter (is_matched env dirPath) projectIndicators).

End Vocabulary.

(* ===================================================================== *)
(** ** Further examples *)

Module RepositoryExamples.

Import WorkspaceDetector Fixture RepositoryManager RepositoryRemotes Vocabulary.

(** A single Rust crate. *)
Definition rust_crate : tree :=
  {| files := [ ("/crate/Cargo.toml", Text "[package]") ];
     dirs := [ ("/crate", [file "Cargo.toml"]) ];
     glob_failures := [] |}.

(** The directory [node_only] where the listing of all files fails. *)
Definition node_listing_failure : tree :=
  {| files := files Examples.node_only;
     dirs := dirs Examples.node_only;
     glob_failures := [ ("/app", "**/*") ] |}.

(** The details of the unit test of the Azure-style provider, over SSH. *)
Definition azure_ssh_details : details :=
  {| d_host := None; d_owner := Some "myorg"; d_repo := Some "myrepo";
     d_project := Some "myproject"; d_protocol := Some "ssh"; d_url := None |}.

(** The configuration file of the unit test: a first section without
    quotes, then two remotes. *)
Definition config_start : string :=
  String Str.LF ("[core]" +++ String Str.LF ("    repositoryformatversion = 0"
                                              +++ String Str.LF EmptyString)).

Definition origin_section : remoteSection :=
  {| sec_name := "origin"; sec_indent := "    ";
     sec_url := "https://github.com/user/repo.git";
     sec_rest := "    fetch = +refs/heads/*:refs/remotes/origin/*"
                 +++ String Str.LF EmptyString |}.

Definition upstream_section : remoteSection :=
  {| sec_name := "upstream"; sec_indent := "    ";
     sec_url := "git@github.com:upstream/repo.git";
     sec_rest := "    fetch = +refs/heads/*:refs/remotes/upstream/*"
                 +++ String Str.LF "      " |}.

Definition origin_remote : remote :=
  {| r_name := "origin"; r_url := "https://github.com/user/repo.git";
     r_type := "github"; r_host := Some "github.com"; r_owner := Some "user";
     r_repo := Some "repo"; r_org := None |}.

Definition upstream_remote : remote :=
  {| r_name := "upstream"; r_url := "git@github.com:upstream/repo.git";
     r_type := "github"; r_host := Some "github.com"; r_owner := Some "upstream";
     r_repo := Some "repo"; r_org := None |}.

(** A project with a repository on the branch [main], and the same with a
    file [config] that cannot be read. *)
Definition git_project : tree :=
  {| files := [ ("/proj/.git/config",
                 Text (config_start +++ render origin_section));
                ("/proj/.git/HEAD", Text ("ref: refs/heads/main" +++ String Str.LF EmptyString));
                ("/proj/.git/refs/heads/main", Text "0000") ];
     dirs := [ ("/proj", [dir ".git"]);
               ("/proj/.git", [file "config"; file "HEAD"; dir "refs"]);
               ("/proj/.git/refs", [dir "heads"]);
               ("/proj/.git/refs/heads", [file "main"]) ];
     glob_failures := [] |}.

Definition git_project_unreadable : tree :=
  {| files := [ ("/proj/.git/config", Data JNull);
                ("/proj/.git/HEAD", Text ("ref: refs/heads/main" +++ String Str.LF EmptyString));
                ("/proj/.git/refs/heads/main", Text "0000") ];
     dirs := dirs git_project;
     glob_failures := [] |}.

End RepositoryExamples.

(* ===================================================================== *)
(** * Properties *)

(** ** The project scorer *)

Module ScorerProofs.

Import WorkspaceDetector Fixture Examples.

Section Scoring.
Variable env : Env.
Variable dirPath : string.

Lemma is_matched_probe e : is_matched env dirPath e = true <-> probe env dirPath (fst e) = Ok true.
Proof.
  unfold is_matched. destruct (probe env dirPath (fst e)) as [[|]|m]; split; congruence.
Qed.

Lemma score_loop_total entries : forall acc acc',
  score_loop env dirPath entries acc = Ok acc' ->
  totalWeight acc' = (totalWeight acc + sum_weights (filter (is_matched env dirPath) entries))%Z.
Proof.
  induction entries as [|[f i] rest IH]; simpl; intros acc acc' H.
  - inversion H. lia.
  - unfold is_matched at 1. simpl.
    destruct (probe env dirPath f) as [b|m]; simpl in H; [|discriminate].
    apply IH in H. rewrite H. destruct b; simpl; lia.
Qed.

Lemma score_loop_throw entries : forall acc f i m,
  In (f, i) entries -> probe env dirPath f = Throw m ->
  exists m', score_loop env dirPath entries acc = Throw m'.
Proof.
  induction entries as [|[f0 i0] rest IH]; simpl; intros acc f i m Hin Hp; [tauto|].
  destruct Hin as [Heq|Hin].
  - inversion Heq; subst. rewrite Hp. simpl. eauto.
  - destruct (probe env dirPath f0) as [b|m0]; simpl; eauto.
Qed.

Lemma gtb_false (a b : Z) : (a >? b)%Z = false -> (a <= b)%Z.
Proof. rewrite Z.gtb_ltb, Z.ltb_ge. trivial. Qed.

Lemma set_key_fresh k keys : ~ In k keys -> set_key k keys = keys ++ [k].
Proof.
  intros H. unfold set_key.
  destruct (existsb (String.eqb k) keys) eqn:E; [|reflexivity].
  apply existsb_exists in E. destruct E as [x [Hx Hk]].
  apply String.eqb_eq in Hk. subst. contradiction.
Qed.

Lemma score_loop_indicators entries : forall acc acc',
  NoDup (map fst entries) ->
  (forall k, In k (sc_indicators acc) -> ~ In k (map fst entries)) ->
  score_loop env dirPath entries acc = Ok acc' ->
  sc_indicators acc' = sc_indicators acc ++ map fst (filter (is_matched env dirPath) entries).
Proof.
  induction entries as [|[f i] rest IH]; simpl; intros acc acc' Hnd Hfresh H.
  - inversion H. now rewrite app_nil_r.
  - inversion Hnd as [|? ? Hnotin Hnd']; subst.
    unfold is_matched at 1. simpl.
    destruct (probe env dirPath f) as [b|m]; simpl in H; [|discriminate].
    apply IH in H; trivial.
    + rewrite H. destruct b; simpl; [|reflexivity].
      rewrite set_key_fresh.
      * now rewrite <- app_assoc.
      * intros Hin. apply (Hfresh _ Hin). now left.
    + intros k Hk. destruct b; simpl in Hk.
      * rewrite set_key_fresh in Hk by (intros Hin; apply (Hfresh _ Hin); now left).
        apply in_app_or in Hk. destruct Hk as [Hk|[Hk|[]]].
        -- intros Hin. apply (Hfresh _ Hk). now right.
        -- now subst.
      * intros Hin. apply (Hfresh _ Hk). now right.
Qed.

(** The loop keeps, next to the largest weight seen, the first indicator
    that reached it. *)
Lemma score_loop_best entries : forall done acc acc',
  Forall (fun e => (0 < weight (snd e))%Z) entries ->
  ((maxWeight acc = 0%Z /\ forall e, In e done -> is_matched env dirPath e = false)
   \/ exists pre f i post,
        done = pre ++ (f, i) :: post /\
        is_matched env dirPath (f, i) = true /\
        primaryType acc = ind_type i /\ maxWeight acc = weight i /\
        (forall e, In e pre -> is_matched env dirPath e = true -> (weight (snd e) < weight i)%Z) /\
        (forall e, In e post -> is_matched env dirPath e = true -> (weight (snd e) <= weight i)%Z)) ->
  score_loop env dirPath entries acc = Ok acc' ->
  ((maxWeight acc' = 0%Z /\ forall e, In e (done ++ entries) -> is_matched env dirPath e = false)
   \/ exists pre f i post,
        done ++ entries = pre ++ (f, i) :: post /\
        is_matched env dirPath (f, i) = true /\
        primaryType acc' = ind_type i /\ maxWeight acc' = weight i /\
        (forall e, In e pre -> is_matched env dirPath e = true -> (weight (snd e) < weight i)%Z) /\
        (forall e, In e post -> is_matched env dirPath e = true -> (weight (snd e) <= weight i)%Z)).
Proof.
  induction entries as [|[f i] rest IH]; simpl; intros done acc acc' Hpos Hinv H.
  - inversion H; subst. now rewrite app_nil_r.
  - inversion Hpos as [|? ? Hp Hpos']; subst. simpl in Hp.
    destruct (probe env dirPath f) as [b|m] eqn:Hprobe; simpl in H; [|discriminate].
    replace (done ++ (f, i) :: rest) with ((done ++ [(f, i)]) ++ rest)
      by (now rewrite <- app_assoc).
    eapply IH; [exact Hpos' | | exact H]. clear IH H.
    assert (Hm : is_matched env dirPath (f, i) = b).
    { unfold is_matched. simpl. rewrite Hprobe. now destruct b. }
    destruct b; simpl.
    + (* the indicator matched *)
      destruct (weight i >? maxWeight acc)%Z eqn:Hgt.
      * right. exists done, f, i, []. repeat split; trivial.
        -- intros e He Hme.
           destruct Hinv as [[H0 Hnone]|(pre & f' & i' & post & Hd & Hm' & Ht & Hw & Hpre & Hpost)].
           ++ rewrite (Hnone e He) in Hme. discriminate.
           ++ subst done. apply Z.gtb_lt in Hgt. rewrite Hw in Hgt.
              apply in_app_or in He. destruct He as [He|[He|He]].
              ** specialize (Hpre e He Hme). lia.
              ** subst e. simpl. lia.
              ** specialize (Hpost e He Hme). lia.
        -- intros e [].
      * destruct Hinv as [[H0 Hnone]|(pre & f' & i' & post & Hd & Hm' & Ht & Hw & Hpre & Hpost)].
        -- rewrite H0 in Hgt. apply gtb_false in Hgt. lia.
        -- right. exists pre, f', i', (post ++ [(f, i)]). subst done.
           repeat split; trivial.
           ++ now rewrite <- app_assoc.
           ++ intros e He Hme. apply in_app_or in He. destruct He as [He|[He|[]]].
              ** now apply Hpost.
              ** subst e. simpl. rewrite <- Hw. now apply gtb_false.
    + (* it did not *)
      destruct Hinv as [[H0 Hnone]|(pre & f' & i' & post & Hd & Hm' & Ht & Hw & Hpre & Hpost)].
      * left. split; trivial. intros e He. apply in_app_or in He.
        destruct He as [He|[He|[]]]; [now apply Hnone|now subst e].
      * right. exists pre, f', i', (post ++ [(f, i)]). subst done.
        repeat split; trivial.
        -- now rewrite <- app_assoc.
        -- intros e He Hme. apply in_app_or in He. destruct He as [He|[He|[]]].
           ++ now apply Hpost.
           ++ subst e. rewrite Hm in Hme. discriminate.
Qed.

End Scoring.

Lemma weights_positive : Forall (fun e => (0 < weight (snd e))%Z) projectIndicators.
Proof. repeat constructor. Qed.

Lemma weights_at_least_5 : Forall (fun e => (5 <= weight (snd e))%Z) projectIndicators.
Proof. repeat constructor; simpl; lia. Qed.

Lemma sum_weights_lower (l : list (string * indicator)) :
  Forall (fun e => (5 <= weight (snd e))%Z) l ->
  l = [] \/ (5 <= sum_weights l)%Z.
Proof.
  induction 1 as [|e l He Hl IH]; [now left|right]. simpl.
  destruct IH as [->|IH]; simpl; lia.
Qed.

Lemma sum_weights_incl (m1 m2 : string * indicator -> bool) (l : list (string * indicator)) :
  Forall (fun e => (0 < weight (snd e))%Z) l ->
  (forall e, In e l -> m1 e = true -> m2 e = true) ->
  (sum_weights (filter m1 l) <= sum_weights (filter m2 l))%Z.
Proof.
  induction 1 as [|e l He Hl IH]; intros Hsub; simpl; [lia|].
  assert (IH' : (sum_weights (filter m1 l) <= sum_weights (filter m2 l))%Z).
  { apply IH. intros e' He'. apply Hsub. now right. }
  destruct (m1 e) eqn:E1.
  - rewrite (Hsub e (or_introl eq_refl) E1). simpl. lia.
  - destruct (m2 e); simpl; lia.
Qed.

(** The total weight of a set of matched indicators is at most the weight of
    the whole registry. *)
Lemma sum_weights_filter (m : string * indicator -> bool) (l : list (string * indicator)) :
  Forall (fun e => (0 < weight (snd e))%Z) l ->
  (0 <= sum_weights (filter m l) <= sum_weights l)%Z.
Proof.
  induction 1 as [|e l He Hl IH]; simpl; [lia|].
  destruct (m e); simpl; lia.
Qed.

Lemma matched_weight_bounds (m : string * indicator -> bool) :
  (0 <= sum_weights (filter m projectIndicators) <= 226)%Z.
Proof.
  change 226%Z with (sum_weights projectIndicators).
  apply sum_weights_filter, weights_positive.
Qed.

(** A property of the total weights from 0 to [n] that a computation
    decides holds of each of them. *)
Lemma checked_upto (P : Z -> bool) (n : nat) :
  forallb P (map Z.of_nat (seq 0 (S n))) = true ->
  forall w, (0 <= w <= Z.of_nat n)%Z -> P w = true.
Proof.
  intros Hall w Hw. rewrite forallb_forall in Hall. apply Hall.
  apply in_map_iff. exists (Z.to_nat w). split; [lia|].
  apply in_seq. lia.
Qed.

(** No total weight of the registry leaves the finite doubles. *)
Lemma confidence_is_finite w :
  (0 <= w <= 226)%Z -> Double.is_finite (confidence_double w) = true.
Proof.
  apply (checked_upto (fun w => Double.is_finite (confidence_double w)) 226).
  vm_compute. reflexivity.
Qed.

(** One more unit of weight does not lower the confidence: the division and
    the multiplication of doubles round, and the rounded results are still
    in order. *)
Lemma confidence_of_step w :
  (0 <= w <= 225)%Z -> (confidence_of w <= confidence_of (w + 1))%Q.
Proof.
  intros Hw. apply Qle_bool_iff.
  revert w Hw.
  apply (checked_upto (fun w => Qle_bool (confidence_of w) (confidence_of (w + 1))) 225).
  vm_compute. reflexivity.
Qed.

Lemma confidence_of_mono w1 w2 :
  (0 <= w1)%Z -> (w1 <= w2)%Z -> (w2 <= 226)%Z ->
  (confidence_of w1 <= confidence_of w2)%Q.
Proof.
  intros H0 H12 H2.
  replace w2 with (w1 + Z.of_nat (Z.to_nat (w2 - w1)))%Z by lia.
  assert (Hn : (w1 + Z.of_nat (Z.to_nat (w2 - w1)) <= 226)%Z) by lia.
  revert Hn. generalize (Z.to_nat (w2 - w1)) as n.
  induction n as [|n IH]; intros Hn.
  - rewrite Z.add_0_r. apply Qle_refl.
  - eapply Qle_trans; [apply IH; lia|].
    replace (w1 + Z.of_nat (S n))%Z with (w1 + Z.of_nat n + 1)%Z by lia.
    apply confidence_of_step. lia.
Qed.

(** The confidence of a total weight of 5 or more is between 25 and 100. *)
Lemma confidence_of_bounds w :
  (5 <= w <= 226)%Z -> (25 <= confidence_of w)%Q /\ (confidence_of w <= 100)%Q.
Proof.
  intros Hw.
  assert (H : ((w <? 5)%Z
               || (Qle_bool 25 (confidence_of w) && Qle_bool (confidence_of w) 100))
              = true).
  { revert w Hw.
    assert (Hall : forall w, (0 <= w <= Z.of_nat 226)%Z ->
              ((w <? 5)%Z
               || (Qle_bool 25 (confidence_of w) && Qle_bool (confidence_of w) 100))
              = true).
    { apply (checked_upto
               (fun w => (w <? 5)%Z
                         || (Qle_bool 25 (confidence_of w)
                             && Qle_bool (confidence_of w) 100)) 226).
      vm_compute. reflexivity. }
    intros w Hw. apply Hall. lia. }
  apply orb_true_iff in H. destruct H as [H|H].
  - apply Z.ltb_lt in H. lia.
  - apply andb_true_iff in H. destruct H as [H1 H2].
    split; now apply Qle_bool_iff.
Qed.

(** What a non-null answer of the scorer says about the run. *)
Lemma analyze_some env dirPath dirName p :
  analyzeProjectDirectory env dirPath dirName = Some p ->
  exists acc,
    score_loop env dirPath projectIndicators scoring0 = Ok acc /\
    totalWeight acc <> 0%Z /\
    type p = primaryType acc /\
    confidence p = confidence_of (totalWeight acc) /\
    indicators p = sc_indicators acc /\
    name p = or_json (extractProjectName env dirPath (primaryType acc)) dirName /\
    path p = dirName /\ absolutePath p = dirPath /\ isExternal p = false.
Proof.
  unfold analyzeProjectDirectory.
  destruct (score_loop env dirPath projectIndicators scoring0) as [acc|m];
    cbn [bind try_catch]; [|discriminate].
  destruct (totalWeight acc =? 0)%Z eqn:E; cbn [bind try_catch]; [discriminate|].
  destruct (stat env dirPath) as [stats|m]; cbn [bind try_catch]; [|discriminate].
  intros H. inversion H; subst; clear H.
  exists acc. apply Z.eqb_neq in E. repeat split; trivial.
Qed.

Lemma analyze_total_weight env dirPath dirName p :
  analyzeProjectDirectory env dirPath dirName = Some p ->
  confidence p =
    confidence_of (sum_weights (filter (is_matched env dirPath) projectIndicators)) /\
  filter (is_matched env dirPath) projectIndicators <> [].
Proof.
  intros H. apply analyze_some in H.
  destruct H as (acc & Hloop & Hnz & _ & Hconf & _).
  apply score_loop_total in Hloop.
  change (totalWeight scoring0) with 0%Z in Hloop. rewrite Z.add_0_l in Hloop.
  rewrite Hconf, Hloop. split; [reflexivity|].
  intros Hnil. rewrite Hnil in Hloop. contradiction.
Qed.

Lemma registry_keys_distinct : NoDup (map fst projectIndicators).
Proof.
  assert (H : nodup string_dec (map fst projectIndicators) = map fst projectIndicators)
    by (vm_compute; reflexivity).
  rewrite <- H. apply NoDup_nodup.
Qed.

(** C6.  The primary type of a candidate is the type of the heaviest matched
    indicator, and of the first of them in the order of the registry when
    several matched indicators have the largest weight. *)
Theorem primary_type_first_heaviest env dirPath dirName p :
  analyzeProjectDirectory env dirPath dirName = Some p ->
  exists f i,
    first_heaviest (is_matched env dirPath) projectIndicators (f, i) /\
    type p = ind_type i.
Proof.
  intros H. apply analyze_some in H.
  destruct H as (acc & Hloop & Hnz & Hty & _).
  pose proof (score_loop_total _ _ _ _ _ Hloop) as Htot.
  change (totalWeight scoring0) with 0%Z in Htot. rewrite Z.add_0_l in Htot.
  apply (score_loop_best env dirPath projectIndicators []) in Hloop.
  - rewrite app_nil_l in Hloop.
    destruct Hloop as [[_ Hnone]|(pre & f & i & post & Hreg & Hm & Hp & _ & Hpre & Hpost)].
    + exfalso. apply Hnz. rewrite Htot.
      replace (filter (is_matched env dirPath) projectIndicators) with (@nil (string * indicator));
        [reflexivity|].
      symmetry. generalize projectIndicators Hnone. clear.
      induction l as [|e l IH]; intros Hnone; [reflexivity|]. simpl.
      rewrite (Hnone e (or_introl eq_refl)). apply IH.
      intros e' He'. apply Hnone. now right.
    + exists f, i. split; [|congruence].
      exists pre, post. repeat split; trivial.
  - exact weights_positive.
  - left. split; [reflexivity|]. intros e [].
Qed.

Lemma primary_type_first_heaviest_witness :
  analyzeProjectDirectory (env_of nextjs_app) "/app" (JStr ".") = Some nextjs_candidate /\
  exists f i,
    first_heaviest (is_matched (env_of nextjs_app) "/app") projectIndicators (f, i) /\
    type nextjs_candidate = ind_type i.
Proof.
  split; [reflexivity|].
  apply (primary_type_first_heaviest (env_of nextjs_app) "/app" (JStr ".")).
  reflexivity.
Defined.

(** C8.  The confidence is monotone in the set of matched indicators: when
    every indicator matched by one directory is matched by another, the
    confidence of the first candidate is at most that of the second. *)
Theorem confidence_monotone env1 dir1 name1 p1 env2 dir2 name2 p2 :
  (forall e, In e projectIndicators ->
             is_matched env1 dir1 e = true -> is_matched env2 dir2 e = true) ->
  analyzeProjectDirectory env1 dir1 name1 = Some p1 ->
  analyzeProjectDirectory env2 dir2 name2 = Some p2 ->
  (confidence p1 <= confidence p2)%Q.
Proof.
  intros Hsub H1 H2.
  apply analyze_total_weight in H1. apply analyze_total_weight in H2.
  destruct H1 as [-> _]. destruct H2 as [-> _].
  apply confidence_of_mono.
  - apply matched_weight_bounds.
  - apply sum_weights_incl; [exact weights_positive|exact Hsub].
  - apply matched_weight_bounds.
Qed.

Lemma confidence_monotone_witness :
  (forall e, In e projectIndicators ->
             is_matched (env_of node_only) "/app" e = true ->
             is_matched (env_of node_typescript) "/app" e = true) /\
  analyzeProjectDirectory (env_of node_only) "/app" (JStr ".") = Some node_only_candidate /\
  analyzeProjectDirectory (env_of node_typescript) "/app" (JStr ".")
    = Some node_typescript_candidate /\
  (confidence node_only_candidate <= confidence node_typescript_candidate)%Q.
Proof.
  assert (Hsub : forall e, In e projectIndicators ->
             is_matched (env_of node_only) "/app" e = true ->
             is_matched (env_of node_typescript) "/app" e = true).
  { intros e He. unfold projectIndicators in He. simpl in He.
    repeat (destruct He as [<-|He]; [vm_compute; auto|]). destruct He. }
  split; [exact Hsub|]. split; [reflexivity|]. split; [reflexivity|].
  apply (confidence_monotone (env_of node_only) "/app" (JStr ".") _
           (env_of node_typescript) "/app" (JStr ".") _ Hsub); reflexivity.
Defined.

(** C10.  A candidate has at least one matched indicator, and its confidence
    lies between 25 and 100: no indicator of the registry weighs less than
    5. *)
Theorem candidate_confidence_bounds env dirPath dirName p :
  analyzeProjectDirectory env dirPath dirName = Some p ->
  indicators p <> [] /\ (25 <= confidence p)%Q /\ (confidence p <= 100)%Q.
Proof.
  intros H. pose proof (analyze_total_weight _ _ _ _ H) as [Hconf Hne].
  apply analyze_some in H. destruct H as (acc & Hloop & _ & _ & _ & Hind & _).
  split.
  - rewrite Hind.
    rewrite (score_loop_indicators env dirPath projectIndicators scoring0 acc
               registry_keys_distinct (fun k (H : In k []) => match H with end) Hloop).
    change (sc_indicators scoring0) with (@nil string). rewrite app_nil_l.
    intros Hnil. apply map_eq_nil in Hnil. contradiction.
  - rewrite Hconf. apply confidence_of_bounds. split.
    + destruct (sum_weights_lower (filter (is_matched env dirPath) projectIndicators));
        trivial; [|contradiction].
      apply incl_Forall with (l1 := projectIndicators); [|exact weights_at_least_5].
      intros e He. apply filter_In in He. tauto.
    + apply matched_weight_bounds.
Qed.

Lemma candidate_confidence_bounds_witness :
  analyzeProjectDirectory (env_of docker_only) "/srv" (JStr ".") = Some docker_candidate /\
  indicators docker_candidate <> [] /\
  (25 <= confidence docker_candidate)%Q /\ (confidence docker_candidate <= 100)%Q.
Proof.
  split; [reflexivity|].
  apply (candidate_confidence_bounds (env_of docker_only) "/srv" (JStr ".")).
  reflexivity.
Defined.

(** The double is not always the quotient: for a total weight of 11 it is
    the double after 55. *)
Example confidence_of_eleven :
  confidence_of 11 = 7740561859543041 # 140737488355328 /\
  (55 < confidence_of 11)%Q /\ confidence_of 10 = 50.
Proof. repeat split. Qed.

End ScorerProofs.

(** ** Discovery and detection *)

Module DiscoveryProofs.

Import WorkspaceDetector Fixture Examples.

Lemma sort_insert_perm (x : project) l :
  Permutation (x :: l) (sort_insert by_confidence x l).
Proof.
  induction l as [|y l IH]; simpl; [reflexivity|].
  destruct (Qle_bool (by_confidence x y) 0); [reflexivity|].
  rewrite perm_swap. now constructor.
Qed.

Lemma sort_perm (l : list project) : Permutation l (sort by_confidence l).
Proof.
  induction l as [|x l IH]; simpl; [constructor|].
  rewrite <- sort_insert_perm. now constructor.
Qed.

Lemma by_confidence_le x y :
  Qle_bool (by_confidence x y) 0 = true <-> (confidence y <= confidence x)%Q.
Proof.
  rewrite Qle_bool_iff. unfold by_confidence. split; intros; lra.
Qed.

Lemma sort_insert_descending x l :
  descending l -> descending (sort_insert by_confidence x l).
Proof.
  unfold descending.
  induction 1 as [|y l Hl IH Hy]; simpl.
  - repeat constructor.
  - destruct (Qle_bool (by_confidence x y) 0) eqn:E.
    + apply by_confidence_le in E. constructor.
      * now constructor.
      * constructor; [exact E|].
        eapply Forall_impl; [|exact Hy]. simpl. intros z Hz. lra.
    + assert (Hxy : (confidence x <= confidence y)%Q).
      { destruct (Qlt_le_dec (confidence y) (confidence x)) as [Hlt|Hle]; [|exact Hle].
        exfalso. assert (Qle_bool (by_confidence x y) 0 = true)
          by (apply by_confidence_le; lra). congruence. }
      constructor; [exact IH|].
      apply (Permutation_Forall (sort_insert_perm x l)).
      constructor; [exact Hxy|exact Hy].
Qed.

Lemma sort_descending l : descending (sort by_confidence l).
Proof.
  induction l as [|x l IH]; simpl; [constructor|].
  now apply sort_insert_descending.
Qed.



Lemma scan_is_sorted_discovery env rootDir :
  scanForProjects env rootDir = sort by_confidence (discovery_order env rootDir).
Proof.
  unfold scanForProjects, discovery_order.
  destruct (readdir env rootDir); reflexivity.
Qed.

End DiscoveryProofs.

Module DetectionProofs.

Import WorkspaceDetector Fixture Examples DiscoveryProofs.

(** An operation respects a preorder on the states of [detection] when the
    state it leaves, by return or by exception, is related to the state it
    started from. *)
Section Respect.

Variable R : detection -> detection -> Prop.
Hypothesis R_refl : forall d, R d d.
Hypothesis R_trans : forall a b c, R a b -> R b c -> R a c.

Local Abbreviation respects := (respects R).

Lemma respects_ret A (a : A) : respects (ret a).
Proof. intros d. apply R_refl. Qed.

Lemma respects_lift A (r : result A) : respects (lift r).
Proof. intros d. apply R_refl. Qed.

Lemma respects_read A (field : detection -> A) : respects (read field).
Proof. intros d. apply R_refl. Qed.

Lemma respects_update f : (forall d, R d (f d)) -> respects (update f).
Proof. intros H d. apply H. Qed.

Lemma respects_bind A B (m : effect A) (f : A -> effect B) :
  respects m -> (forall a, respects (f a)) -> respects (ebind m f).
Proof.
  intros Hm Hf d. unfold ebind. specialize (Hm d).
  destruct (m d) as [d' [a|e]]; simpl in *; [|exact Hm].
  eapply R_trans; [exact Hm|apply Hf].
Qed.

Lemma respects_when b (m : effect unit) : respects m -> respects (when b m).
Proof. intros H. destruct b; [exact H|apply respects_ret]. Qed.

Lemma respects_for_of A (l : list A) (body : A -> effect unit) :
  (forall a, respects (body a)) -> respects (for_of l body).
Proof.
  intros H. induction l as [|a l IH]; simpl.
  - apply respects_ret.
  - apply respects_bind; [apply H|intros _; exact IH].
Qed.

Variable env : Env.
Variable rootDir : string.

Hypothesis R_packagePatterns : forall d v, R d (set_packagePatterns v d).
Hypothesis R_projectsConfig : forall d v, R d (set_projectsConfig v d).
Hypothesis R_push : forall d p dirPath s,
  analyzeProjectDirectory env dirPath (JStr s) = Some p ->
  existsb (fun q => strict_equal (path q) (path p)) (projects d) = false ->
  R d (push_project p d).

Ltac respect :=
  repeat first
    [ apply respects_ret | apply respects_lift | apply respects_read
    | apply respects_when | apply respects_for_of; intros ?
    | apply respects_update; auto
    | apply respects_bind; [|intros ?] ].

Lemma lerna_respects : respects (analyzeLernaWorkspace env rootDir).
Proof.
  unfold analyzeLernaWorkspace.
  apply respects_bind; [apply respects_read|intros config].
  destruct (truthy_prop config "packages") as [packages|]; [|apply respects_ret].
  apply respects_bind; [apply respects_update; auto|intros _].
  apply respects_bind; [apply respects_lift|intros patterns].
  apply respects_for_of. intros pattern.
  apply respects_bind; [apply respects_lift|intros cleanPattern].
  apply respects_when.
  apply respects_bind; [apply respects_lift|intros subdirs].
  apply respects_for_of. intros subdir.
  apply respects_bind; [apply respects_lift|intros st].
  apply respects_when.
  intros d. unfold ebind, read. cbn [fst].
  destruct (analyzeProjectDirectory env _ _) as [p|] eqn:Hp; [|apply R_refl].
  destruct (existsb _ (projects d)) eqn:Hex; cbn [negb when]; [apply R_refl|].
  unfold update. cbn [fst]. eapply R_push; eassumption.
Qed.

Lemma pnpm_respects : respects (analyzePnpmWorkspace env rootDir).
Proof.
  unfold analyzePnpmWorkspace. apply respects_when.
  apply respects_bind; [apply respects_lift|intros content].
  destruct (Regex.exec pnpmPackagesPattern content); respect.
Qed.

Lemma yarn_respects : respects (analyzeYarnWorkspace env rootDir).
Proof.
  unfold analyzeYarnWorkspace. apply respects_when.
  apply respects_bind; [apply respects_lift|intros packageJson].
  apply respects_bind; [apply respects_lift|intros [workspaces|]]; respect.
Qed.

Lemma nx_respects : respects (analyzeNxWorkspace rootDir).
Proof.
  unfold analyzeNxWorkspace.
  apply respects_bind; [apply respects_read|intros config].
  destruct (truthy_prop config "projects"); respect.
Qed.

Lemma vscode_respects :
  (forall d l, R d (set_externalProjects l (set_projects (projects d ++ l) d))) ->
  respects (analyzeVSCodeWorkspace env rootDir).
Proof.
  intros Hext. unfold analyzeVSCodeWorkspace.
  apply respects_bind; [apply respects_read|intros config].
  destruct (truthy_prop config "folders") as [folders|]; [|apply respects_ret].
  apply respects_bind; [apply respects_lift|intros items].
  apply respects_bind; [apply respects_lift|intros externalProjects].
  intros d. unfold ebind, read, update. cbn [fst]. apply Hext.
Qed.

Lemma structure_respects_but_vscode d :
  workspaceType d <> Some "VS Code Workspace" ->
  R d (fst (analyzeWorkspaceStructure env rootDir d)).
Proof.
  intros Hw. unfold analyzeWorkspaceStructure, ebind, read.
  destruct (workspaceType d) as [w|]; [|apply R_refl].
  destruct (String.eqb w "Lerna Monorepo"); [apply lerna_respects|].
  destruct (String.eqb w "pnpm Workspace"); [apply pnpm_respects|].
  destruct (String.eqb w "Yarn Workspace"); [apply yarn_respects|].
  destruct (String.eqb w "Nx Workspace"); [apply nx_respects|].
  destruct (String.eqb w "VS Code Workspace") eqn:E; [|apply R_refl].
  apply String.eqb_eq in E. congruence.
Qed.

Lemma structure_respects :
  (forall d l, R d (set_externalProjects l (set_projects (projects d ++ l) d))) ->
  respects (analyzeWorkspaceStructure env rootDir).
Proof.
  intros Hext d. unfold analyzeWorkspaceStructure, ebind, read.
  destruct (workspaceType d) as [w|]; [|apply R_refl].
  destruct (String.eqb w "Lerna Monorepo"); [apply lerna_respects|].
  destruct (String.eqb w "pnpm Workspace"); [apply pnpm_respects|].
  destruct (String.eqb w "Yarn Workspace"); [apply yarn_respects|].
  destruct (String.eqb w "Nx Workspace"); [apply nx_respects|].
  destruct (String.eqb w "VS Code Workspace"); [|apply R_refl].
  now apply vscode_respects.
Qed.

End Respect.

(** *** The relation [extends] *)

Lemma extends_refl d : extends d d.
Proof. repeat split. exists []. now rewrite app_nil_r. Qed.

Lemma extends_trans a b c : extends a b -> extends b c -> extends a c.
Proof.
  intros (H1 & H2 & H3 & x & Hx) (H1' & H2' & H3' & y & Hy).
  repeat split; try congruence.
  exists (x ++ y). now rewrite Hy, Hx, app_assoc.
Qed.

Lemma structure_extends env rootDir d :
  extends d (fst (analyzeWorkspaceStructure env rootDir d)).
Proof.
  apply (structure_respects extends extends_refl extends_trans).
  - intros d0 v. repeat split. exists []. simpl. now rewrite app_nil_r.
  - intros d0 v. repeat split. exists []. simpl. now rewrite app_nil_r.
  - intros d0 p _ _ _ _. repeat split. now exists [p].
  - intros d0 l. repeat split. now exists l.
Qed.

(** *** The three ways out of [detectWorkspace] *)

Lemma detect_cases env rootDir :
  let scan := scanForProjects env rootDir in
  (exists e, findWorkspaceIndicators env rootDir = Throw e /\
             detectWorkspace env rootDir = detection0)
  \/ (findWorkspaceIndicators env rootDir = Ok None /\
      detectWorkspace env rootDir =
        if (1 <? List.length scan)%nat
        then set_implicit (set_projects scan detection0)
        else set_projects scan detection0)
  \/ (exists w, findWorkspaceIndicators env rootDir = Ok (Some w) /\
                detectWorkspace env rootDir =
                  fst (analyzeWorkspaceStructure env rootDir
                         (set_projects scan (set_found w detection0)))).
Proof.
  intros scan. unfold detectWorkspace, detect_body.
  unfold ebind at 1. unfold lift at 1.
  destruct (findWorkspaceIndicators env rootDir) as [[w|]|e].
  - right. right. exists w. split; [reflexivity|]. reflexivity.
  - right. left. split; [reflexivity|].
    fold scan. remember (1 <? List.length scan)%nat as many.
    destruct many; reflexivity.
  - left. exists e. split; reflexivity.
Qed.

(** C7.  Whatever way [detectWorkspace] returns, a result whose structure is
    [workspace] is a workspace, and a result whose structure is
    [multi-project] is not a workspace and has more than one project. *)
Theorem structure_invariant env rootDir :
  let r := detectWorkspace env rootDir in
  (structure r = Workspace -> isWorkspace r = true) /\
  (structure r = MultiProject ->
   isWorkspace r = false /\ (1 < List.length (projects r))%nat).
Proof.
  intros r. subst r.
  destruct (detect_cases env rootDir) as [(e & _ & ->)|[(_ & ->)|(w & _ & ->)]].
  - split; discriminate.
  - destruct (1 <? List.length (scanForProjects env rootDir))%nat eqn:E.
    + split; [discriminate|]. intros _. split; [reflexivity|].
      now apply Nat.ltb_lt in E.
    + split; discriminate.
  - destruct (structure_extends env rootDir
                (set_projects (scanForProjects env rootDir) (set_found w detection0)))
      as (Hw & _ & Hs & _).
    rewrite Hw, Hs. split; [reflexivity|discriminate].
Qed.

(** *** The order of the candidates that a convention adds *)

Lemma prefix_of_refl {A : Type} (l : list A) : prefix_of l l.
Proof. exists []. now rewrite app_nil_r. Qed.

Lemma prefix_of_nil {A : Type} (l : list A) : prefix_of [] l.
Proof. now exists l. Qed.

Lemma prefix_of_app {A : Type} (l1 l2 rest : list A) :
  prefix_of l1 l2 -> prefix_of l1 (l2 ++ rest).
Proof. intros [r ->]. exists (r ++ rest). now rewrite app_assoc. Qed.

Lemma prefix_of_after {A : Type} (l l1 l2 : list A) :
  prefix_of l1 l2 -> prefix_of (l ++ l1) (l ++ l2).
Proof. intros [r ->]. exists r. now rewrite app_assoc. Qed.

Lemma fresh_app l1 : forall seen l2,
  fresh seen (l1 ++ l2) = fresh seen l1 ++ fresh (seen ++ fresh seen l1) l2.
Proof.
  induction l1 as [|p l1 IH]; intros seen l2; cbn [fresh app].
  - now rewrite app_nil_r.
  - destruct (path_among seen p).
    + apply IH.
    + rewrite IH. cbn [app]. now rewrite <- app_assoc.
Qed.

Lemma appends_nothing {A : Type} (m : effect A) :
  (forall d, projects (fst (m d)) = projects d) -> appends m [].
Proof.
  intros H d. exists []. cbn [fresh]. rewrite app_nil_r. split; [apply H|].
  destruct (snd (m d)); [reflexivity|apply prefix_of_nil].
Qed.

Lemma appends_lift {A B : Type} (r : result A) (k : A -> effect B) decl :
  (forall a, r = Ok a -> appends (k a) decl) ->
  appends (ebind (lift r) k) decl.
Proof.
  intros H d. unfold ebind, lift. destruct r as [a|e].
  - exact (H a eq_refl d).
  - exists []. cbn [fst snd fresh]. rewrite app_nil_r.
    split; [reflexivity|apply prefix_of_nil].
Qed.

Lemma appends_when b (m : effect unit) decl :
  appends m decl -> appends (when b m) (if b then decl else []).
Proof.
  intros H. destruct b; [exact H|].
  apply appends_nothing. reflexivity.
Qed.

Lemma appends_seq {A B : Type} (m1 : effect A) (m2 : effect B) l1 l2 :
  appends m1 l1 -> appends m2 l2 -> appends (ebind m1 (fun _ => m2)) (l1 ++ l2).
Proof.
  intros H1 H2 d. unfold ebind.
  destruct (H1 d) as (r1 & Hp1 & Hr1).
  destruct (m1 d) as [d1 [a|e]]; cbn [fst snd] in *.
  - subst r1. destruct (H2 d1) as (r2 & Hp2 & Hr2).
    exists (l1 ++ r2). split.
    + rewrite Hp2, Hp1, fresh_app. now rewrite app_assoc.
    + destruct (snd (m2 d1)); [now subst|].
      now apply prefix_of_after.
  - exists r1. split; [exact Hp1|]. now apply prefix_of_app.
Qed.

Lemma appends_for_of {A : Type} (l : list A) (body : A -> effect unit)
      (decl : A -> list project) :
  (forall a, appends (body a) (decl a)) -> appends (for_of l body) (flat_map decl l).
Proof.
  intros H. induction l as [|a l IH]; cbn [for_of flat_map].
  - apply appends_nothing. reflexivity.
  - apply appends_seq; [apply H|exact IH].
Qed.

(** The body of the inner loop of the Lerna sub-analyzer, after the call of
    the scorer. *)
Lemma appends_push (project : option project) :
  appends (ebind (read projects)
             (fun ps =>
                match project with
                | Some project =>
                    when (negb (existsb (fun p => strict_equal (path p) (path project)) ps))
                      (update (push_project project))
                | None => ret tt
                end))
    (match project with Some p => [p] | None => [] end).
Proof.
  intros d. unfold ebind, read. destruct project as [p|].
  - exists [p]. cbn [fresh]. unfold path_among.
    destruct (existsb (fun q => strict_equal (path q) (path p)) (projects d));
      cbn [negb when ret update fst snd push_project set_projects projects].
    + rewrite app_nil_r. now split.
    + now split.
  - exists []. cbn [fresh ret fst snd]. rewrite app_nil_r. now split.
Qed.

Lemma lerna_pattern_appends env rootDir pattern :
  appends
    (ebind (lift (replace_method pattern "/*" EmptyString))
       (fun cleanPattern =>
          let packagesDir := path_join env rootDir cleanPattern in
          when (pathExists env packagesDir)
            (ebind (lift (readdir env packagesDir))
               (fun subdirs =>
                  for_of (map de_name subdirs) (fun subdir =>
                    let projectPath := path_join env packagesDir subdir in
                    ebind (lift (stat env projectPath))
                      (fun st =>
                         when (st_isDirectory st)
                           (let project :=
                              analyzeProjectDirectory env projectPath
                                (JStr (cleanPattern +++ "/" +++ subdir)) in
                            ebind (read projects)
                              (fun ps =>
                                 match project with
                                 | Some project =>
                                     when (negb (existsb (fun p => strict_equal (path p) (path project)) ps))
                                       (update (push_project project))
                                 | None => ret tt
                                 end))))))))
    (lerna_pattern env rootDir pattern).
Proof.
  unfold lerna_pattern. apply appends_lift. intros cleanPattern ->. cbv zeta.
  set (packagesDir := path_join env rootDir cleanPattern).
  replace (if pathExists env packagesDir
           then match readdir env packagesDir with
                | Ok subdirs =>
                    flat_map (lerna_entry env packagesDir cleanPattern) (map de_name subdirs)
                | Throw _ => []
                end
           else [])
    with (if pathExists env packagesDir
          then match readdir env packagesDir with
               | Ok subdirs =>
                   flat_map (lerna_entry env packagesDir cleanPattern) (map de_name subdirs)
               | Throw _ => []
               end
          else @nil project) by reflexivity.
  apply appends_when. apply appends_lift. intros subdirs ->.
  apply appends_for_of. intros subdir. unfold lerna_entry. cbv zeta.
  apply appends_lift. intros st ->.
  apply (appends_when (st_isDirectory st)). apply appends_push.
Qed.

Lemma listed_cases config k :
  (exists v items, truthy_prop config k = Some v /\ iterate v = Ok items /\
                   listed config k = items)
  \/ (exists v e, truthy_prop config k = Some v /\ iterate v = Throw e /\
                  listed config k = [])
  \/ (truthy_prop config k = None /\ listed config k = []).
Proof.
  unfold listed. destruct (truthy_prop config k) as [v|].
  - destruct (iterate v) as [items|e] eqn:E.
    + left. exists v, items. repeat split. exact E.
    + right. left. exists v, e. repeat split. exact E.
  - right. right. split; reflexivity.
Qed.

Lemma lerna_appends env rootDir d :
  exists reached,
    prefix_of reached (flat_map (lerna_pattern env rootDir)
                         (listed (workspaceConfig d) "packages")) /\
    projects (fst (analyzeLernaWorkspace env rootDir d))
    = projects d ++ fresh (projects d) reached.
Proof.
  unfold analyzeLernaWorkspace. unfold ebind at 1. unfold read at 1.
  destruct (listed_cases (workspaceConfig d) "packages")
    as [(v & items & -> & Hit & ->)|[(v & e & -> & Hit & ->)|(-> & ->)]].
  - cbv beta iota.
    match goal with
    | |- context [fst (?m d)] =>
        assert (H : appends m ([] ++ flat_map (lerna_pattern env rootDir) items))
    end.
    { apply appends_seq; [apply appends_nothing; reflexivity|].
      apply appends_lift. intros patterns Hp. rewrite Hit in Hp.
      injection Hp as <-. apply appends_for_of. intros pattern.
      apply lerna_pattern_appends. }
    destruct (H d) as (reached & Hp & Hr). exists reached. split; [|exact Hp].
    cbn [app] in Hr.
    match type of Hr with
    | match ?s with _ => _ end => destruct s
    end; [subst; apply prefix_of_refl|exact Hr].
  - exists []. split; [apply prefix_of_nil|].
    unfold ebind, update, lift. rewrite Hit. cbn [fst fresh set_packagePatterns projects].
    now rewrite app_nil_r.
  - exists []. split; [apply prefix_of_nil|]. cbn [ret fst fresh]. now rewrite app_nil_r.
Qed.

Lemma vscode_folders_declared env rootDir folders : forall acc l,
  vscode_folders env rootDir folders acc = Ok l ->
  l = acc ++ flat_map (vscode_entry env rootDir) folders.
Proof.
  induction folders as [|folder rest IH]; intros acc l H; cbn [vscode_folders flat_map] in *.
  - injection H as <-. now rewrite app_nil_r.
  - unfold vscode_entry at 1.
    destruct (vscode_folder env rootDir folder) as [added|e]; cbn [bind] in H;
      [|discriminate].
    apply IH in H. subst l.
    destruct added as [p|]; cbn [append_some]; [|reflexivity].
    now rewrite <- app_assoc.
Qed.

Lemma vscode_appends env rootDir d :
  exists reached,
    prefix_of reached (flat_map (vscode_entry env rootDir)
                         (listed (workspaceConfig d) "folders")) /\
    projects (fst (analyzeVSCodeWorkspace env rootDir d)) = projects d ++ reached.
Proof.
  unfold analyzeVSCodeWorkspace. unfold ebind at 1. unfold read at 1.
  destruct (listed_cases (workspaceConfig d) "folders")
    as [(v & items & -> & Hit & ->)|[(v & e & -> & Hit & ->)|(-> & ->)]].
  - unfold ebind, lift, read, update. rewrite Hit.
    destruct (vscode_folders env rootDir items []) as [l|e] eqn:Hl; cbn [fst].
    + apply vscode_folders_declared in Hl. cbn [app] in Hl. subst l.
      exists (flat_map (vscode_entry env rootDir) items).
      split; [apply prefix_of_refl|reflexivity].
    + exists []. split; [apply prefix_of_nil|]. now rewrite app_nil_r.
  - exists []. split; [apply prefix_of_nil|].
    unfold ebind, lift. rewrite Hit. cbn [fst]. now rewrite app_nil_r.
  - exists []. split; [apply prefix_of_nil|]. cbn [ret fst]. now rewrite app_nil_r.
Qed.


Lemma structure_keeps_config env rootDir d :
  workspaceConfig (fst (analyzeWorkspaceStructure env rootDir d)) = workspaceConfig d /\
  workspaceType (fst (analyzeWorkspaceStructure env rootDir d)) = workspaceType d.
Proof.
  apply (structure_respects
           (fun a b => workspaceConfig b = workspaceConfig a /\
                       workspaceType b = workspaceType a)).
  - now split.
  - intros a b c [H1 H2] [H3 H4]. split; congruence.
  - now split.
  - now split.
  - now split.
  - now split.
Qed.

Lemma eqb_other (w a b : string) :
  String.eqb w a = true -> a <> b -> String.eqb w b = false.
Proof.
  intros H Hab. apply String.eqb_eq in H. subst w. now apply String.eqb_neq.
Qed.

(** What the sub-analyzer of a workspace type leaves in [projects]. *)
Lemma structure_declared env rootDir d :
  exists reached,
    prefix_of reached (declared env rootDir d) /\
    projects (fst (analyzeWorkspaceStructure env rootDir d))
    = projects d ++ appended d (projects d) reached.
Proof.
  unfold analyzeWorkspaceStructure, declared, appended, is_type, ebind, read.
  cbn [fst].
  assert (Hnone : forall d', projects d' = projects d ->
            exists reached : list project,
              prefix_of reached [] /\ projects d' = projects d ++ reached).
  { intros d' H. exists []. split; [apply prefix_of_nil|]. now rewrite app_nil_r. }
  destruct (workspaceType d) as [w|]; [|now apply Hnone].
  destruct (String.eqb w "Lerna Monorepo") eqn:E1; [apply lerna_appends|].
  destruct (String.eqb w "pnpm Workspace") eqn:E2.
  { rewrite (eqb_other w _ "VS Code Workspace" E2) by discriminate.
    apply Hnone.
    apply (pnpm_respects (fun a b => projects b = projects a)); auto; congruence. }
  destruct (String.eqb w "Yarn Workspace") eqn:E3.
  { rewrite (eqb_other w _ "VS Code Workspace" E3) by discriminate.
    apply Hnone.
    apply (yarn_respects (fun a b => projects b = projects a)); auto; congruence. }
  destruct (String.eqb w "Nx Workspace") eqn:E4.
  { rewrite (eqb_other w _ "VS Code Workspace" E4) by discriminate.
    apply Hnone.
    apply (nx_respects (fun a b => projects b = projects a)); auto; congruence. }
  destruct (String.eqb w "VS Code Workspace") eqn:E5; [apply vscode_appends|].
  now apply Hnone.
Qed.

(** The candidates of a result: those of the scan, and after them what the
    sub-analyzer of the workspace type appended of the candidates that the
    convention declares. *)
Lemma detect_declared env rootDir :
  let r := detectWorkspace env rootDir in
  let scan := scanForProjects env rootDir in
  (exists e, findWorkspaceIndicators env rootDir = Throw e /\ projects r = [])
  \/ exists reached,
       prefix_of reached (declared env rootDir r) /\
       projects r = scan ++ appended r scan reached.
Proof.
  intros r scan. subst r.
  destruct (detect_cases env rootDir) as [(e & He & ->)|[(_ & ->)|(w & _ & ->)]].
  - left. now exists e.
  - right. exists []. split; [apply prefix_of_nil|]. fold scan.
    destruct (1 <? List.length scan)%nat; unfold appended, is_type;
      cbn [workspaceType set_implicit set_projects detection0 projects String.eqb
           Ascii.eqb Bool.eqb]; now rewrite app_nil_r.
  - right. fold scan.
    set (d := set_projects scan (set_found w detection0)).
    destruct (structure_declared env rootDir d) as (reached & Hpre & Hp).
    destruct (structure_keeps_config env rootDir d) as [Hc Ht].
    exists reached. split.
    + unfold declared, is_type in *. now rewrite Hc, Ht.
    + rewrite Hp. unfold appended, is_type. now rewrite Ht.
Qed.



(** The packages of this Lerna monorepo stand in the order of the patterns
    of the configuration, which is not the order of the listing of the
    root. *)
Example patterns_in_declared_order :
  declared (env_of lerna_two_patterns) "/ws"
    (detectWorkspace (env_of lerna_two_patterns) "/ws")
  = [core_candidate; web_candidate] /\
  projects (detectWorkspace (env_of lerna_two_patterns) "/ws")
  = [core_candidate; web_candidate].
Proof. split; reflexivity. Qed.


(** *** Distinct paths *)

Lemma NoDup_snoc {A : Type} (l : list A) (x : A) :
  NoDup l -> ~ In x l -> NoDup (l ++ [x]).
Proof.
  intros Hl Hx. apply (Permutation_NoDup (Permutation_cons_append l x)).
  now constructor.
Qed.

Lemma kept_names_distinct (keep : Dirent -> bool) (items : list Dirent) :
  NoDup (map de_name items) -> NoDup (map de_name (filter keep items)).
Proof.
  intros Hitems. induction items as [|item items IH]; [constructor|].
  cbn [map filter] in *. inversion Hitems as [|? ? Hfresh Hrest]; subst.
  destruct (keep item); [|now apply IH].
  cbn [map]. constructor; [|now apply IH].
  intros Hin. apply Hfresh.
  apply in_map_iff in Hin. destruct Hin as (other & Hname & Hin).
  apply filter_In in Hin. apply in_map_iff. exists other. tauto.
Qed.

Lemma NoDup_map_JStr (l : list string) : NoDup l -> NoDup (map JStr l).
Proof.
  induction 1 as [|x l Hx Hl IH]; cbn [map]; constructor; [|exact IH].
  intros Hin. apply in_map_iff in Hin. destruct Hin as (y & Hy & Hin).
  inversion Hy; subst. contradiction.
Qed.

Lemma analyze_path env dirPath dirName p :
  analyzeProjectDirectory env dirPath dirName = Some p -> path p = dirName.
Proof.
  intros H. apply ScorerProofs.analyze_some in H.
  destruct H as (acc & H). tauto.
Qed.

Lemma fold_paths_distinct (f : string -> option project) (dirs : list string) :
  (forall d p, f d = Some p -> path p = JStr d) ->
  forall init,
    NoDup (map path init ++ map JStr dirs) ->
    NoDup (map path (fold_left (fun projects d => append_some projects (f d)) dirs init)).
Proof.
  intros Hf.
  induction dirs as [|d dirs IH]; cbn [fold_left map]; intros init H.
  - now rewrite app_nil_r in H.
  - apply IH. destruct (f d) as [p|] eqn:Hp; cbn [append_some].
    + rewrite map_app, <- app_assoc. cbn [map app]. rewrite (Hf _ _ Hp). exact H.
    + eapply NoDup_remove_1. exact H.
Qed.

Lemma discovered_paths env rootDir (dirs : list string) : forall init,
  NoDup (map path init ++ map JStr dirs) ->
  NoDup (map path
           (fold_left
              (fun projects dirName =>
                 append_some projects
                   (analyzeProjectDirectory env (path_join env rootDir dirName)
                      (JStr dirName)))
              dirs init)).
Proof.
  intros init H.
  apply (fold_paths_distinct
           (fun dirName => analyzeProjectDirectory env (path_join env rootDir dirName)
                             (JStr dirName))); [|exact H].
  intros d p Hp. exact (analyze_path _ _ _ _ Hp).
Qed.

Lemma not_ignored_not_dot items :
  ~ In "." (map de_name
              (filter (fun item => de_isDirectory item
                                   && negb (shouldIgnoreDirectory (de_name item))) items)).
Proof.
  intros Hin. apply in_map_iff in Hin. destruct Hin as (item & Hname & Hin).
  apply filter_In in Hin. destruct Hin as [_ Hf].
  destruct item as [n b]. cbn [de_name de_isDirectory] in *. subst n.
  destruct b; vm_compute in Hf; discriminate.
Qed.

Lemma scan_paths_distinct env rootDir :
  (forall items, readdir env rootDir = Ok items -> NoDup (map de_name items)) ->
  NoDup (map path (scanForProjects env rootDir)).
Proof.
  intros Hlisting. rewrite scan_is_sorted_discovery.
  apply (Permutation_NoDup (Permutation_map path (sort_perm _))).
  unfold discovery_order.
  destruct (readdir env rootDir) as [items|e]; [|constructor].
  specialize (Hlisting items eq_refl).
  unfold discovered. apply discovered_paths.
  set (directories := map de_name (filter _ items)).
  assert (Hd : NoDup (map JStr directories)).
  { apply NoDup_map_JStr. now apply kept_names_distinct. }
  destruct (analyzeProjectDirectory env rootDir (JStr ".")) as [p|] eqn:Hp;
    cbn [append_some app map]; [|exact Hd].
  constructor; [|exact Hd].
  rewrite (analyze_path _ _ _ _ Hp). intros Hin.
  apply in_map_iff in Hin. destruct Hin as (x & Hx & Hin). inversion Hx; subst.
  exact (not_ignored_not_dot items Hin).
Qed.

Lemma push_keeps_paths_distinct env d p dirPath s :
  analyzeProjectDirectory env dirPath (JStr s) = Some p ->
  existsb (fun q => strict_equal (path q) (path p)) (projects d) = false ->
  NoDup (map path (projects d)) ->
  NoDup (map path (projects (push_project p d))).
Proof.
  intros Hp Hex Hnd. cbn [push_project set_projects projects].
  rewrite map_app. cbn [map]. apply NoDup_snoc; [exact Hnd|].
  intros Hin. apply in_map_iff in Hin. destruct Hin as (q & Hq & Hin).
  assert (existsb (fun q => strict_equal (path q) (path p)) (projects d) = true).
  { apply existsb_exists. exists q. split; [exact Hin|].
    rewrite Hq, (analyze_path _ _ _ _ Hp). cbn [strict_equal]. apply String.eqb_refl. }
  congruence.
Qed.

(** *** The key of the deduplication *)

Lemma strict_equal_string (v : json) (s : string) :
  strict_equal v (JStr s) = true -> v = JStr s.
Proof.
  destruct v; cbn [strict_equal]; try discriminate.
  intros H. apply String.eqb_eq in H. now subst.
Qed.

Lemma fresh_represents l : forall seen p,
  In p l -> (exists s, path p = JStr s) ->
  exists q, In q (seen ++ fresh seen l) /\ path q = path p.
Proof.
  induction l as [|p0 l IH]; intros seen p Hin Hs; [destruct Hin|].
  cbn [fresh]. destruct (path_among seen p0) eqn:Ha.
  - destruct Hin as [<-|Hin]; [|now apply IH].
    unfold path_among in Ha. apply existsb_exists in Ha.
    destruct Ha as (q & Hq & Heq). destruct Hs as [s Hs]. rewrite Hs in Heq.
    apply strict_equal_string in Heq.
    exists q. split; [apply in_or_app; now left|congruence].
  - destruct Hin as [<-|Hin].
    + exists p0. split; [apply in_or_app; right; now left|reflexivity].
    + destruct (IH (seen ++ [p0]) p Hin Hs) as (q & Hq & Hpath).
      exists q. split; [|exact Hpath].
      rewrite <- app_assoc in Hq. exact Hq.
Qed.

Lemma lerna_declared_paths env rootDir patterns p :
  In p (flat_map (lerna_pattern env rootDir) patterns) -> exists s, path p = JStr s.
Proof.
  intros Hin. apply in_flat_map in Hin. destruct Hin as (pattern & _ & Hin).
  unfold lerna_pattern in Hin.
  destruct (replace_method pattern "/*" EmptyString) as [clean|e]; [|destruct Hin].
  destruct (pathExists env _); [|destruct Hin].
  destruct (readdir env _) as [subdirs|e]; [|destruct Hin].
  apply in_flat_map in Hin. destruct Hin as (subdir & _ & Hin).
  unfold lerna_entry in Hin.
  destruct (stat env _) as [st|e]; [|destruct Hin].
  destruct (st_isDirectory st); [|destruct Hin].
  destruct (analyzeProjectDirectory env _ _) as [p0|] eqn:Hp0; [|destruct Hin].
  destruct Hin as [<-|[]]. eexists. exact (analyze_path _ _ _ _ Hp0).
Qed.

(** C2, as the code has it.  Outside the explicit-folder convention, no two
    entries of [projects] have the same [path], the string under which a
    candidate was found and the key of the only deduplication there is.  The
    candidates of the scan are all kept; of the candidates that the
    convention declares, one whose [path] is already there is left out and
    the entry before it stays, so that every declared candidate is
    represented by the one entry with its [path]. *)
Theorem paths_distinct_first_kept env rootDir :
  (forall items, readdir env rootDir = Ok items -> NoDup (map de_name items)) ->
  workspaceType (detectWorkspace env rootDir) <> Some "VS Code Workspace" ->
  NoDup (map path (projects (detectWorkspace env rootDir))) /\
  ((exists e, findWorkspaceIndicators env rootDir = Throw e /\
              projects (detectWorkspace env rootDir) = [])
   \/ exists reached,
        prefix_of reached (declared env rootDir (detectWorkspace env rootDir)) /\
        projects (detectWorkspace env rootDir)
        = scanForProjects env rootDir ++ fresh (scanForProjects env rootDir) reached /\
        forall p, In p reached ->
                  exists q, In q (projects (detectWorkspace env rootDir)) /\
                            path q = path p).
Proof.
  intros Hlisting Hnot.
  pose proof (scan_paths_distinct env rootDir Hlisting) as Hscan.
  split.
  - destruct (detect_cases env rootDir) as [(e & He & Hr)|[(_ & Hr)|(w & _ & Hr)]].
    + rewrite Hr. constructor.
    + rewrite Hr.
      destruct (1 <? List.length (scanForProjects env rootDir))%nat; exact Hscan.
    + set (d := set_projects (scanForProjects env rootDir) (set_found w detection0)) in *.
      pose proof (structure_extends env rootDir d) as (_ & Hw & _).
      rewrite <- Hr in Hw. rewrite Hr.
      apply (structure_respects_but_vscode
               (fun a b => NoDup (map path (projects a)) -> NoDup (map path (projects b)))).
      * auto.
      * auto.
      * auto.
      * auto.
      * intros d0 p dirPath s. apply push_keeps_paths_distinct.
      * rewrite <- Hw. exact Hnot.
      * exact Hscan.
  - destruct (detect_declared env rootDir) as [Hthrow|(reached & Hpre & Hp)];
      [now left|right].
    set (r := detectWorkspace env rootDir) in *.
    set (scan := scanForProjects env rootDir) in *.
    assert (Hfresh : appended r scan reached = fresh scan reached
                     /\ forall p, In p reached -> exists s, path p = JStr s).
    { unfold appended, declared, is_type in *.
      destruct (workspaceType r) as [w|].
      - destruct (String.eqb w "Lerna Monorepo").
        + split; [reflexivity|]. intros p Hin. destruct Hpre as [rest Hrest].
          apply (lerna_declared_paths env rootDir (listed (workspaceConfig r) "packages")).
          rewrite Hrest. apply in_or_app. now left.
        + destruct (String.eqb w "VS Code Workspace") eqn:E.
          * apply String.eqb_eq in E. subst w. contradiction.
          * destruct Hpre as [rest Hrest]. destruct reached; [|discriminate Hrest].
            split; [reflexivity|intros p []].
      - destruct Hpre as [rest Hrest]. destruct reached; [|discriminate Hrest].
        split; [reflexivity|intros p []]. }
    destruct Hfresh as [Hf Hstr]. rewrite Hf in Hp.
    exists reached. split; [exact Hpre|]. split; [exact Hp|].
    intros p Hin. rewrite Hp. apply fresh_represents; [exact Hin|now apply Hstr].
Qed.

Lemma paths_distinct_first_kept_witness :
  (forall items, readdir (env_of lerna_twice) "/ws" = Ok items -> NoDup (map de_name items)) /\
  workspaceType (detectWorkspace (env_of lerna_twice) "/ws") <> Some "VS Code Workspace" /\
  declared (env_of lerna_twice) "/ws" (detectWorkspace (env_of lerna_twice) "/ws")
  = [lerna_api_candidate; lerna_api_candidate] /\
  projects (detectWorkspace (env_of lerna_twice) "/ws") = [lerna_api_candidate] /\
  NoDup (map path (projects (detectWorkspace (env_of lerna_twice) "/ws"))) /\
  ((exists e, findWorkspaceIndicators (env_of lerna_twice) "/ws" = Throw e /\
              projects (detectWorkspace (env_of lerna_twice) "/ws") = [])
   \/ exists reached,
        prefix_of reached
          (declared (env_of lerna_twice) "/ws" (detectWorkspace (env_of lerna_twice) "/ws")) /\
        projects (detectWorkspace (env_of lerna_twice) "/ws")
        = scanForProjects (env_of lerna_twice) "/ws"
          ++ fresh (scanForProjects (env_of lerna_twice) "/ws") reached /\
        forall p, In p reached ->
                  exists q, In q (projects (detectWorkspace (env_of lerna_twice) "/ws")) /\
                            path q = path p).
Proof.
  assert (H1 : forall items, readdir (env_of lerna_twice) "/ws" = Ok items ->
                             NoDup (map de_name items)).
  { intros items H. vm_compute in H. inversion H; subst. simpl.
    repeat (constructor; [simpl; intuition discriminate|]). constructor. }
  assert (H2 : workspaceType (detectWorkspace (env_of lerna_twice) "/ws")
               <> Some "VS Code Workspace") by (vm_compute; discriminate).
  split; [exact H1|]. split; [exact H2|].
  split; [reflexivity|]. split; [reflexivity|].
  exact (paths_distinct_first_kept (env_of lerna_twice) "/ws" H1 H2).
Defined.

(** C2, as stated, fails.  The pattern of this Lerna monorepo names the
    directories of the root: the directory that the scan found is declared
    again under another [path], and both candidates are kept under one
    absolute path, the scanned one first.  The folder that the descriptor
    of this VS Code workspace names is also found by the scan, and both
    candidates are kept, under one [path] even. *)
Lemma same_directory_kept_twice :
  (projects (detectWorkspace (env_of lerna_root_pattern) "/ws")
   = [web_scanned; web_declared] /\
   scanForProjects (env_of lerna_root_pattern) "/ws" = [web_scanned] /\
   absolutePath web_scanned = absolutePath web_declared /\
   path web_scanned <> path web_declared /\
   ~ NoDup (map (fun p => path_resolve (env_of lerna_root_pattern) [absolutePath p])
              (projects (detectWorkspace (env_of lerna_root_pattern) "/ws")))) /\
  (projects (detectWorkspace (env_of vscode_inner) "/ws")
   = [inner_scanned; inner_declared] /\
   scanForProjects (env_of vscode_inner) "/ws" = [inner_scanned] /\
   absolutePath inner_scanned = absolutePath inner_declared /\
   ~ NoDup (map (fun p => path_resolve (env_of vscode_inner) [absolutePath p])
              (projects (detectWorkspace (env_of vscode_inner) "/ws")))).
Proof.
  assert (H : projects (detectWorkspace (env_of lerna_root_pattern) "/ws")
              = [web_scanned; web_declared]) by reflexivity.
  assert (H' : projects (detectWorkspace (env_of vscode_inner) "/ws")
               = [inner_scanned; inner_declared]) by reflexivity.
  split.
  - split; [exact H|]. split; [reflexivity|]. split; [reflexivity|].
    split; [discriminate|].
    rewrite H. intros Hnd. inversion Hnd as [|? ? Hnotin _]; subst.
    apply Hnotin. now left.
  - split; [exact H'|]. split; [reflexivity|]. split; [reflexivity|].
    rewrite H'. intros Hnd. inversion Hnd as [|? ? Hnotin _]; subst.
    apply Hnotin. now left.
Qed.

(** *** External folders *)

Lemma vscode_folder_total env rootDir folder s :
  Json.get folder "path" = Ok (Some (JStr s)) ->
  exists added, vscode_folder env rootDir folder = Ok added.
Proof.
  intros Hget. unfold vscode_folder. rewrite Hget. cbn [bind].
  destruct (pathExists env _ && negb _); [|now exists None].
  destruct (analyzeProjectDirectory env _ _) as [p|]; eauto.
Qed.

Lemma vscode_folders_collect env rootDir folders : forall acc,
  (forall f, In f folders -> exists s, Json.get f "path" = Ok (Some (JStr s))) ->
  exists ext,
    vscode_folders env rootDir folders acc = Ok (acc ++ ext) /\
    forall folder p, In folder folders ->
                     vscode_folder env rootDir folder = Ok (Some p) -> In p ext.
Proof.
  induction folders as [|f folders IH]; intros acc Hwf.
  - exists []. split; [cbn [vscode_folders]; now rewrite app_nil_r|intros ? ? []].
  - destruct (Hwf f (or_introl eq_refl)) as [s Hs].
    destruct (vscode_folder_total env rootDir f s Hs) as [added Hadded].
    destruct (IH (append_some acc added)) as (ext & Hext & Hin).
    { intros f' Hf'. apply Hwf. now right. }
    cbn [vscode_folders]. rewrite Hadded. cbn [bind]. rewrite Hext.
    destruct added as [p0|]; cbn [append_some].
    + exists (p0 :: ext). split; [now rewrite <- app_assoc|].
      intros folder p [<-|Hfolder] Hp.
      * rewrite Hadded in Hp. inversion Hp. now left.
      * right. eapply Hin; eassumption.
    + exists ext. split; [reflexivity|].
      intros folder p [<-|Hfolder] Hp.
      * rewrite Hadded in Hp. discriminate.
      * eapply Hin; eassumption.
Qed.

(** C5, as the code has it.  The candidate of a declared folder that exists
    and is not the root itself is in [projects], marked external, under the
    absolute path of the folder; its [path] is the declared display name;
    its [name] is the name that the manifest of the folder declares, when
    [extractProjectName] finds one, and the declared display name
    otherwise. *)
Theorem external_folder_candidate env rootDir w folders folder folderPath declared p0 :
  findWorkspaceIndicators env rootDir = Ok (Some w) ->
  wi_type w = "VS Code Workspace" ->
  truthy_prop (wi_config w) "folders" = Some (JArr folders) ->
  (forall f, In f folders -> exists s, Json.get f "path" = Ok (Some (JStr s))) ->
  In folder folders ->
  Json.get folder "path" = Ok (Some (JStr folderPath)) ->
  prop folder "name" = Some (JStr declared) ->
  declared <> EmptyString ->
  let absolute :=
    if path_isAbsolute env folderPath then folderPath
    else path_resolve env [rootDir; folderPath] in
  pathExists env absolute = true ->
  path_resolve env [absolute] <> path_resolve env [rootDir] ->
  analyzeProjectDirectory env absolute (JStr declared) = Some p0 ->
  exists p,
    In p (projects (detectWorkspace env rootDir)) /\
    isExternal p = true /\
    absolutePath p = absolute /\
    path p = JStr declared /\
    name p = or_json (extractProjectName env absolute (type p)) (JStr declared).
Proof.
  intros Hfind Htype Hfolders Hwf Hin Hget Hname Hdecl absolute Hexists Hnotroot Hp0.
  assert (Hone : vscode_folder env rootDir folder
                 = Ok (Some (mark_external absolute (JStr declared) p0))).
  { unfold vscode_folder. rewrite Hget. cbn [bind]. fold absolute.
    rewrite Hexists. apply String.eqb_neq in Hnotroot. rewrite Hnotroot.
    cbn [negb andb]. rewrite Hname.
    assert (Hn : or_json (Some (JStr declared)) (JStr (path_basename env absolute))
                 = JStr declared).
    { unfold or_json. cbn [Json.truthy]. destruct declared; [contradiction|reflexivity]. }
    rewrite Hn, Hp0. reflexivity. }
  destruct (vscode_folders_collect env rootDir folders [] Hwf) as (ext & Hext & Hall).
  specialize (Hall folder _ Hin Hone).
  exists (mark_external absolute (JStr declared) p0).
  split.
  - destruct (detect_cases env rootDir) as [(e & He & _)|[(He & _)|(w' & He & ->)]];
      try congruence.
    rewrite Hfind in He. inversion He; subst w'. clear He.
    unfold analyzeWorkspaceStructure, ebind, read.
    cbn [workspaceType set_projects set_found]. rewrite Htype.
    cbn [String.eqb Ascii.eqb Bool.eqb].
    unfold analyzeVSCodeWorkspace, ebind, read, lift, update.
    cbn [workspaceConfig set_projects set_found]. rewrite Hfolders.
    cbn [iterate]. rewrite Hext.
    cbn [fst projects set_projects set_externalProjects app].
    apply in_or_app. now right.
  - apply ScorerProofs.analyze_some in Hp0.
    destruct Hp0 as (acc & _ & _ & Hty & _ & _ & Hnm & _).
    cbn [mark_external isExternal absolutePath path name type].
    repeat split. rewrite Hnm, Hty. reflexivity.
Qed.

Lemma external_folder_candidate_witness :
  let env := env_of vscode_external in
  let rootDir := "/fixtures/test-workspace" in
  let absolute := "/fixtures/external-project" in
  findWorkspaceIndicators env rootDir = Ok (Some external_info) /\
  truthy_prop (wi_config external_info) "folders" = Some (JArr external_folders) /\
  In external_folder external_folders /\
  Json.get external_folder "path" = Ok (Some (JStr "../external-project")) /\
  prop external_folder "name" = Some (JStr "External Project") /\
  pathExists env absolute = true /\
  path_resolve env [absolute] <> path_resolve env [rootDir] /\
  analyzeProjectDirectory env absolute (JStr "External Project") = Some external_scored /\
  exists p,
    In p (projects (detectWorkspace env rootDir)) /\
    isExternal p = true /\
    absolutePath p = absolute /\
    path p = JStr "External Project" /\
    name p = or_json (extractProjectName env absolute (type p)) (JStr "External Project").
Proof.
  intros env rootDir absolute.
  assert (Hin : In external_folder external_folders) by (right; now left).
  assert (Hnotroot : path_resolve env [absolute] <> path_resolve env [rootDir])
    by (vm_compute; discriminate).
  assert (Hwf : forall f, In f external_folders ->
                          exists s, Json.get f "path" = Ok (Some (JStr s))).
  { intros f [<-|[<-|[]]]; eexists; reflexivity. }
  repeat (split; [first [reflexivity | assumption]|]).
  apply (external_folder_candidate env rootDir external_info external_folders
           external_folder "../external-project" "External Project" external_scored);
    first [reflexivity | assumption | discriminate].
Defined.

(** C5, as stated, fails: in the workspace of the unit test the external
    entry takes its [path] from the declared display name and its [name]
    from the manifest of the external directory. *)
Lemma external_name_is_manifest_name :
  projects (detectWorkspace (env_of vscode_external) "/fixtures/test-workspace")
    = [external_candidate] /\
  isExternal external_candidate = true /\
  prop external_folder "name" = Some (JStr "External Project") /\
  path external_candidate = JStr "External Project" /\
  name external_candidate = JStr "external-ml-project" /\
  name external_candidate <> JStr "External Project".
Proof. repeat split; try reflexivity. discriminate. Qed.

(** The two non-trivial structures do occur. *)
Example implicit_multi_project :
  structure (detectWorkspace (env_of two_projects) "/ws") = MultiProject /\
  isWorkspace (detectWorkspace (env_of two_projects) "/ws") = false /\
  List.length (projects (detectWorkspace (env_of two_projects) "/ws")) = 2%nat.
Proof. repeat split; reflexivity. Qed.

Example lerna_is_workspace :
  structure (detectWorkspace (env_of lerna_repo) "/ws") = Workspace /\
  isWorkspace (detectWorkspace (env_of lerna_repo) "/ws") = true.
Proof. split; reflexivity. Qed.

End DetectionProofs.

(** ** Strings and regular expressions *)

Module StrFacts.

Lemma append_nil_r s : s +++ EmptyString = s.
Proof. induction s as [|a s IH]; cbn [append]; [reflexivity|now rewrite IH]. Qed.

Lemma append_assoc a b c : (a +++ b) +++ c = a +++ (b +++ c).
Proof. induction a as [|x a IH]; cbn [append]; [reflexivity|now rewrite IH]. Qed.

Lemma length_append a b : String.length (a +++ b) = (String.length a + String.length b)%nat.
Proof. induction a as [|x a IH]; cbn [append String.length]; [reflexivity|now rewrite IH]. Qed.

Lemma prefix_append p s : String.prefix p (p +++ s) = true.
Proof.
  induction p as [|x p IH]; cbn [append String.prefix]; [now destruct s|].
  destruct (ascii_dec x x); [exact IH|contradiction].
Qed.

Lemma prefix_split p : forall s,
  String.prefix p s = true -> s = p +++ Str.drop (String.length p) s.
Proof.
  induction p as [|x p IH]; intros s H; cbn [append String.length Str.drop].
  - now destruct s.
  - destruct s as [|y s]; [discriminate|]. cbn [String.prefix] in H.
    destruct (ascii_dec x y) as [->|]; [|discriminate].
    now rewrite <- (IH s H).
Qed.

Lemma prefix_head_differs a b p s : a <> b -> String.prefix (String a p) (String b s) = false.
Proof. intros H. cbn [String.prefix]. destruct (ascii_dec a b); [contradiction|reflexivity]. Qed.

Lemma drop_append p s : Str.drop (String.length p) (p +++ s) = s.
Proof. induction p as [|x p IH]; cbn [append String.length Str.drop]; [now destruct s|exact IH]. Qed.

Lemma take_append w s : Str.take (String.length w) (w +++ s) = w.
Proof.
  induction w as [|x w IH]; cbn [append String.length Str.take]; [reflexivity|now rewrite IH].
Qed.

Lemma all_append p a b : Str.all p (a +++ b) = Str.all p a && Str.all p b.
Proof.
  induction a as [|x a IH]; cbn [append Str.all]; [reflexivity|].
  now rewrite IH, andb_assoc.
Qed.

End StrFacts.

Module RegexFacts.

Import Regex StrFacts.

Lemma consumed_append w s : consumed (w +++ s) s = w.
Proof.
  unfold consumed. rewrite length_append.
  replace (String.length w + String.length s - String.length s)%nat with (String.length w) by lia.
  apply take_append.
Qed.

Section Matching.

Variable R : Type.
Variable total : nat.
Implicit Types (k : string -> caps -> option R) (s : string) (c : caps).

Lemma rmatch_seq r1 r2 s c k :
  rmatch total (Seq r1 r2) s c k
  = rmatch total r1 s c (fun s' c' => rmatch total r2 s' c' k).
Proof. reflexivity. Qed.

Lemma rmatch_chr_hit a s c k : rmatch total (chr a) (String a s) c k = k s c.
Proof. cbn [rmatch chr]. now rewrite Ascii.eqb_refl. Qed.

Lemma rmatch_chr_miss a b s c k : a <> b -> rmatch total (chr a) (String b s) c k = None.
Proof.
  intros H. cbn [rmatch chr]. apply Ascii.eqb_neq in H. now rewrite H.
Qed.

(** A literal is matched where the subject starts with it. *)
Lemma rmatch_lit p : forall s c k,
  rmatch total (lit p) s c k
  = if String.prefix p s then k (Str.drop (String.length p) s) c else None.
Proof.
  induction p as [|a p IH]; intros s c k.
  - cbn. now destruct s.
  - assert (Hstep : rmatch total (lit (String a p)) s c k
                    = rmatch total (chr a) s c (fun s' c' => rmatch total (lit p) s' c' k)).
    { destruct p; [|reflexivity]. cbn [lit rmatch chr].
      destruct s as [|b s]; [reflexivity|]. destruct (Ascii.eqb a b); reflexivity. }
    rewrite Hstep. destruct s as [|b s]; [reflexivity|].
    cbn [String.prefix String.length Str.drop].
    destruct (ascii_dec a b) as [->|Hne].
    + rewrite rmatch_chr_hit. apply IH.
    + now apply rmatch_chr_miss.
Qed.

Lemma rmatch_lit_append p s c k : rmatch total (lit p) (p +++ s) c k = k s c.
Proof. now rewrite rmatch_lit, prefix_append, drop_append. Qed.

(** The repetition of a class does not need fuel. *)
Lemma repeat_class_greedy p k : forall fuel s c,
  (String.length s <= fuel)%nat ->
  repeat_match (rmatch total (Chr p)) true k fuel s c = class_star_greedy p k s c.
Proof.
  induction fuel as [|fuel IH]; intros s c Hlen.
  - destruct s; [reflexivity|cbn in Hlen; lia].
  - destruct s as [|a s]; [reflexivity|].
    cbn [repeat_match rmatch class_star_greedy String.length] in *.
    destruct (p a); [|reflexivity].
    replace (String.length s <? S (String.length s))%nat with true
      by (symmetry; apply Nat.ltb_lt; lia).
    rewrite IH by lia. reflexivity.
Qed.

Lemma repeat_class_lazy p k : forall fuel s c,
  (String.length s <= fuel)%nat ->
  repeat_match (rmatch total (Chr p)) false k fuel s c = class_star_lazy p k s c.
Proof.
  induction fuel as [|fuel IH]; intros s c Hlen.
  - destruct s; [|cbn in Hlen; lia]. cbn. now destruct (k EmptyString c).
  - destruct s as [|a s]; [reflexivity|].
    cbn [repeat_match rmatch class_star_lazy String.length] in *.
    destruct (p a); [|reflexivity].
    replace (String.length s <? S (String.length s))%nat with true
      by (symmetry; apply Nat.ltb_lt; lia).
    rewrite IH by lia. reflexivity.
Qed.

Lemma rmatch_star_class p s c k :
  rmatch total (star (Chr p)) s c k = class_star_greedy p k s c.
Proof. cbn [rmatch star]. now apply repeat_class_greedy. Qed.

(** [cls+] and [cls+?] on a subject that starts with a character of the
    class. *)
Lemma rmatch_plus_class p a s c k :
  p a = true ->
  rmatch total (plus (Chr p)) (String a s) c k = class_star_greedy p k s c.
Proof.
  intros Ha. cbn [rmatch plus]. rewrite Ha. now apply repeat_class_greedy.
Qed.

Lemma rmatch_plus_lazy_class p a s c k :
  p a = true ->
  rmatch total (plus_lazy (Chr p)) (String a s) c k = class_star_lazy p k s c.
Proof.
  intros Ha. cbn [rmatch plus_lazy]. rewrite Ha. now apply repeat_class_lazy.
Qed.

(** A greedy repetition gives way until the continuation succeeds: it stops
    at the last place where it does. *)
Lemma class_star_greedy_none p k s c :
  (forall u v, s = u +++ v -> Str.all p u = true -> k v c = None) ->
  class_star_greedy p k s c = None.
Proof.
  induction s as [|a s IH]; intros Hk; cbn [class_star_greedy].
  - apply (Hk EmptyString EmptyString); reflexivity.
  - assert (H0 : k (String a s) c = None) by (apply (Hk EmptyString); reflexivity).
    rewrite H0. destruct (p a) eqn:Ha; [|reflexivity].
    rewrite IH; [reflexivity|].
    intros u v -> Hu. apply (Hk (String a u)); [reflexivity|].
    cbn [Str.all]. now rewrite Ha.
Qed.

Lemma class_star_greedy_last p k w rest c x :
  Str.all p w = true ->
  k rest c = Some x ->
  (forall u v, rest = u +++ v -> u <> EmptyString -> Str.all p u = true -> k v c = None) ->
  class_star_greedy p k (w +++ rest) c = Some x.
Proof.
  intros Hw Hk Hlater. induction w as [|a w IH]; cbn [append].
  - destruct rest as [|b rest]; cbn [class_star_greedy]; [exact Hk|].
    destruct (p b) eqn:Hb; [|exact Hk].
    rewrite class_star_greedy_none; [exact Hk|].
    intros u v -> Hu. apply (Hlater (String b u)); [reflexivity|discriminate|].
    cbn [Str.all]. now rewrite Hb.
  - cbn [Str.all] in Hw. apply andb_prop in Hw. destruct Hw as [Ha Hw].
    cbn [class_star_greedy]. rewrite Ha, (IH Hw). reflexivity.
Qed.

(** A lazy repetition stops at the first place where the continuation
    succeeds. *)
Lemma class_star_lazy_first p k w rest c x :
  Str.all p w = true ->
  k rest c = Some x ->
  (forall u v, w = u +++ v -> v <> EmptyString -> k (v +++ rest) c = None) ->
  class_star_lazy p k (w +++ rest) c = Some x.
Proof.
  intros Hw Hk. induction w as [|a w IH]; intros Hearlier; cbn [append].
  - destruct rest; cbn [class_star_lazy]; now rewrite Hk.
  - cbn [Str.all] in Hw. apply andb_prop in Hw. destruct Hw as [Ha Hw].
    cbn [class_star_lazy].
    assert (H0 : k (String a (w +++ rest)) c = None)
      by (apply (Hearlier EmptyString (String a w)); [reflexivity|discriminate]).
    rewrite H0. cbn [orelse]. rewrite Ha. apply (IH Hw).
    intros u v -> Hv. apply (Hearlier (String a u)); [reflexivity|exact Hv].
Qed.

(** A capture group around [cls+] and around [cls+?]. *)
Lemma group_plus_greedy_last i p w rest c k x :
  w <> EmptyString ->
  Str.all p w = true ->
  k rest (set_cap i w c) = Some x ->
  (forall u v, rest = u +++ v -> u <> EmptyString -> Str.all p u = true ->
               k v (set_cap i (w +++ u) c) = None) ->
  rmatch total (Group i (plus (Chr p))) (w +++ rest) c k = Some x.
Proof.
  intros Hne Hall Hk Hlater. destruct w as [|a w]; [contradiction|].
  cbn [Str.all] in Hall. apply andb_prop in Hall. destruct Hall as [Ha Hw].
  cbn [rmatch]. change (Seq (Chr p) (Star true (Chr p))) with (plus (Chr p)).
  cbn [append]. rewrite (rmatch_plus_class p a _ c _ Ha).
  apply class_star_greedy_last; [exact Hw| |].
  - change (String a (w +++ rest)) with (String a w +++ rest).
    now rewrite consumed_append.
  - intros u v -> Hu Hpu. cbv beta.
    change (String a (w +++ u +++ v)) with (String a w +++ u +++ v).
    rewrite <- append_assoc, consumed_append. now apply Hlater.
Qed.

Lemma group_plus_lazy_first i p w rest c k x :
  w <> EmptyString ->
  Str.all p w = true ->
  k rest (set_cap i w c) = Some x ->
  (forall u v, w = u +++ v -> u <> EmptyString -> v <> EmptyString ->
               k (v +++ rest) (set_cap i u c) = None) ->
  rmatch total (Group i (plus_lazy (Chr p))) (w +++ rest) c k = Some x.
Proof.
  intros Hne Hall Hk Hearlier. destruct w as [|a w]; [contradiction|].
  cbn [Str.all] in Hall. apply andb_prop in Hall. destruct Hall as [Ha Hw].
  cbn [rmatch]. change (Seq (Chr p) (Star false (Chr p))) with (plus_lazy (Chr p)).
  cbn [append]. rewrite (rmatch_plus_lazy_class p a _ c _ Ha).
  apply class_star_lazy_first; [exact Hw| |].
  - change (String a (w +++ rest)) with (String a w +++ rest).
    now rewrite consumed_append.
  - intros u v -> Hv. cbv beta. rewrite (append_assoc u v rest).
    change (String a (u +++ v +++ rest)) with (String a u +++ v +++ rest).
    rewrite consumed_append.
    apply (Hearlier (String a u) v); [reflexivity|discriminate|exact Hv].
Qed.

End Matching.
End RegexFacts.

Module CaptureFacts.

Import Regex StrFacts RegexFacts.

Lemma get_set_same i v : forall c, get_cap i (set_cap i v c) = Some v.
Proof.
  unfold get_cap. induction i as [|i IH]; intros [|x c]; cbn [set_cap nth_error];
    try reflexivity; apply IH.
Qed.

Lemma get_set_kept i j v : forall c,
  get_cap j c <> None -> get_cap j (set_cap i v c) <> None.
Proof.
  unfold get_cap. revert j.
  induction i as [|i IH]; intros j c H.
  - destruct c as [|x c], j as [|j]; cbn [set_cap nth_error] in *;
      first [exact H | discriminate | (exfalso; now apply H)].
  - destruct c as [|x c].
    + exfalso. apply H. now destruct j.
    + destruct j as [|j]; cbn [set_cap nth_error] in *; [exact H|now apply IH].
Qed.

(** A match never unsets a capture, and it sets the groups of [sets]. *)
Lemma repeat_match_captures {R : Type}
      (m : string -> caps -> (string -> caps -> option R) -> option R) greedy k :
  (forall s c k' x, m s c k' = Some x ->
     exists s' c', k' s' c' = Some x /\
                   forall i, get_cap i c <> None -> get_cap i c' <> None) ->
  forall fuel s c x,
    repeat_match m greedy k fuel s c = Some x ->
    exists s' c', k s' c' = Some x /\
                  forall i, get_cap i c <> None -> get_cap i c' <> None.
Proof.
  intros Hm. induction fuel as [|fuel IH]; intros s c x H; cbn [repeat_match] in H.
  - exists s, c. split; [exact H|trivial].
  - assert (Hagain : forall y,
              m s c (fun s' c' =>
                       if (String.length s' <? String.length s)%nat
                       then repeat_match m greedy k fuel s' c' else None) = Some y ->
              exists s' c', k s' c' = Some y /\
                            forall i, get_cap i c <> None -> get_cap i c' <> None).
    { intros y Hy. apply Hm in Hy. destruct Hy as (s1 & c1 & Hy & Hc1).
      destruct (String.length s1 <? String.length s)%nat; [|discriminate].
      apply IH in Hy. destruct Hy as (s2 & c2 & Hy & Hc2).
      exists s2, c2. split; [exact Hy|]. intros i Hi. now apply Hc2, Hc1. }
    assert (Hnow : forall y, k s c = Some y ->
              exists s' c', k s' c' = Some y /\
                            forall i, get_cap i c <> None -> get_cap i c' <> None).
    { intros y Hy. exists s, c. split; [exact Hy|trivial]. }
    destruct greedy; unfold orelse in H.
    + destruct (m s c _) eqn:E; [inversion H; subst; now apply Hagain|now apply Hnow].
    + destruct (k s c) eqn:E; [inversion H; subst; now apply Hnow|now apply Hagain].
Qed.

Lemma rmatch_captures {R : Type} total r : forall s c (k : string -> caps -> option R) x,
  rmatch total r s c k = Some x ->
  exists s' c', k s' c' = Some x /\
                forall i, In i (sets r) \/ get_cap i c <> None -> get_cap i c' <> None.
Proof.
  induction r as [|p|r1 IH1 r2 IH2|r1 IH1 r2 IH2|greedy r1 IH1|j r1 IH1| |];
    intros s c k x H; cbn [rmatch sets] in *.
  - exists s, c. split; [exact H|]. intros i [[]|Hi]; exact Hi.
  - destruct s as [|a s]; [discriminate|]. destruct (p a); [|discriminate].
    exists s, c. split; [exact H|]. intros i [[]|Hi]; exact Hi.
  - apply IH1 in H. destruct H as (s1 & c1 & H & Hc1).
    apply IH2 in H. destruct H as (s2 & c2 & H & Hc2).
    exists s2, c2. split; [exact H|]. intros i [Hi|Hi].
    + apply in_app_or in Hi. destruct Hi as [Hi|Hi].
      * apply Hc2. right. apply Hc1. now left.
      * apply Hc2. now left.
    + apply Hc2. right. apply Hc1. now right.
  - unfold orelse in H. destruct (rmatch total r1 s c k) eqn:E.
    + inversion H; subst. apply IH1 in E. destruct E as (s1 & c1 & E & Hc1).
      exists s1, c1. split; [exact E|]. intros i [Hi|Hi]; apply Hc1; [left|now right].
      apply filter_In in Hi. tauto.
    + apply IH2 in H. destruct H as (s1 & c1 & H & Hc1).
      exists s1, c1. split; [exact H|]. intros i [Hi|Hi]; apply Hc1; [left|now right].
      apply filter_In in Hi. destruct Hi as [_ Hi].
      apply existsb_exists in Hi. destruct Hi as (i' & Hi' & Heq).
      apply Nat.eqb_eq in Heq. now subst.
  - apply (repeat_match_captures (rmatch total r1) greedy k) in H.
    + destruct H as (s1 & c1 & H & Hc1). exists s1, c1. split; [exact H|].
      intros i [[]|Hi]. now apply Hc1.
    + intros s0 c0 k' y Hy. apply IH1 in Hy. destruct Hy as (s1 & c1 & Hy & Hc1).
      exists s1, c1. split; [exact Hy|]. intros i Hi. apply Hc1. now right.
  - apply IH1 in H. destruct H as (s1 & c1 & H & Hc1).
    exists s1, (set_cap j (consumed s s1) c1). split; [exact H|].
    intros i [[<-|Hi]|Hi].
    + rewrite get_set_same. discriminate.
    + apply (get_set_kept j i). apply Hc1. now left.
    + apply (get_set_kept j i). apply Hc1. now right.
  - destruct (String.length s =? total)%nat; [|discriminate].
    exists s, c. split; [exact H|]. intros i [[]|Hi]; exact Hi.
  - destruct s; [|discriminate].
    exists EmptyString, c. split; [exact H|]. intros i [[]|Hi]; exact Hi.
Qed.

Lemma exec_from_captures r total : forall s pre m,
  exec_from r total pre s = Some m ->
  forall i, In i (sets r) -> get_cap i (groups m) <> None.
Proof.
  induction s as [|a s IH]; intros pre m H; cbn [exec_from] in H.
  - destruct (rmatch total r EmptyString [] finish) as [[c s']|] eqn:E; [|discriminate].
    inversion H; subst. cbn [groups]. intros i Hi.
    apply rmatch_captures in E. destruct E as (s1 & c1 & E & Hc1).
    inversion E; subst. apply Hc1. now left.
  - destruct (rmatch total r (String a s) [] finish) as [[c s']|] eqn:E.
    + inversion H; subst. cbn [groups]. intros i Hi.
      apply rmatch_captures in E. destruct E as (s1 & c1 & E & Hc1).
      inversion E; subst. apply Hc1. now left.
    + exact (IH _ _ H).
Qed.

Lemma exec_captures r s m i :
  exec r s = Some m -> In i (sets r) -> exists v, get_cap i (groups m) = Some v.
Proof.
  intros H Hi. apply (exec_from_captures r _ s _ m H) in Hi.
  destruct (get_cap i (groups m)) as [v|]; [now exists v|contradiction].
Qed.

End CaptureFacts.

(** ** The repository URL codec *)

Module PatternFacts.

Import Regex RepositoryManager StrFacts RegexFacts.


Lemma all_head p a s : Str.all p (String a s) = true -> p a = true /\ Str.all p s = true.
Proof. cbn [Str.all]. apply andb_prop. Qed.

Lemma all_suffix p u v : Str.all p (u +++ v) = true -> Str.all p v = true.
Proof. rewrite all_append. intros H. apply andb_prop in H. tauto. Qed.

(** What follows the repository name in an HTTPS address: the optional
    suffix, an optional path, the end. *)
Lemma https_tail_end total c :
  rmatch total (seq [opt (lit ".git"); opt (Seq (chr "/") (star dot)); Eol]) ".git" c finish
  = Some (c, EmptyString).
Proof. reflexivity. Qed.

Lemma https_path_none total s c :
  s <> EmptyString -> Str.all no_slash s = true ->
  rmatch total (seq [opt (Seq (chr "/") (star dot)); Eol]) s c finish = None.
Proof.
  intros Hs Hall. destruct s as [|a s]; [contradiction|].
  apply all_head in Hall. destruct Hall as [Ha _].
  cbn [seq opt rmatch]. rewrite rmatch_chr_miss; [reflexivity|].
  intros Heq. rewrite <- Heq in Ha. discriminate.
Qed.

Lemma https_tail_none total s c :
  s <> EmptyString -> s <> ".git" -> Str.all no_slash s = true ->
  rmatch total (seq [opt (lit ".git"); opt (Seq (chr "/") (star dot)); Eol]) s c finish = None.
Proof.
  intros Hs Hgit Hall.
  change (seq [opt (lit ".git"); opt (Seq (chr "/") (star dot)); Eol])
    with (Seq (Alt (lit ".git") Eps) (seq [opt (Seq (chr "/") (star dot)); Eol])).
  cbn [rmatch]. rewrite rmatch_lit.
  rewrite (https_path_none total s c Hs Hall).
  destruct (String.prefix ".git" s) eqn:Hp; [|reflexivity].
  pose proof (prefix_split ".git" s Hp) as Hsplit.
  rewrite https_path_none; [reflexivity| |].
  - intros Hd. apply Hgit. rewrite Hsplit, Hd. reflexivity.
  - rewrite Hsplit in Hall. now apply all_suffix in Hall.
Qed.

Lemma all_no_slash_git v : Str.all no_slash v = true -> Str.all no_slash (v +++ ".git") = true.
Proof. intros H. rewrite all_append, H. reflexivity. Qed.

Lemma longer_than_git v : v <> EmptyString -> v +++ ".git" <> ".git".
Proof.
  intros Hv Heq. apply (f_equal String.length) in Heq.
  rewrite length_append in Heq. destruct v; [contradiction|]. cbn in Heq. lia.
Qed.

Lemma nonempty_append_l v s : v <> EmptyString -> v +++ s <> EmptyString.
Proof. destruct v; [contradiction|discriminate]. Qed.

(** The three parts of a standard HTTPS address, from the right. *)
Lemma https_repo total repo c :
  repo <> EmptyString -> Str.all any_char repo = true -> Str.all no_slash repo = true ->
  rmatch total
    (seq [Group 3 (plus_lazy dot); opt (lit ".git"); opt (Seq (chr "/") (star dot)); Eol])
    (repo +++ ".git") c finish
  = Some (set_cap 3 repo c, EmptyString).
Proof.
  intros Hne Hany Hslash.
  change (seq [Group 3 (plus_lazy dot); opt (lit ".git");
               opt (Seq (chr "/") (star dot)); Eol])
    with (Seq (Group 3 (plus_lazy (Chr any_char)))
              (seq [opt (lit ".git"); opt (Seq (chr "/") (star dot)); Eol])).
  rewrite rmatch_seq.
  apply group_plus_lazy_first; [exact Hne|exact Hany|apply https_tail_end|].
  intros u v -> Hu Hv. apply all_suffix in Hslash.
  apply https_tail_none.
  - now apply nonempty_append_l.
  - now apply longer_than_git.
  - now apply all_no_slash_git.
Qed.

Lemma slash_miss {R : Type} total (v s : string) c (k : string -> caps -> option R) :
  v <> EmptyString -> Str.all no_slash v = true ->
  rmatch total (chr "/") (v +++ s) c k = None.
Proof.
  intros Hv Hall. destruct v as [|b v]; [contradiction|].
  apply all_head in Hall. destruct Hall as [Hb _].
  cbn [append]. apply rmatch_chr_miss. intros Heq. rewrite <- Heq in Hb. discriminate.
Qed.

Lemma https_owner total owner repo c :
  owner <> EmptyString -> Str.all any_char owner = true -> Str.all no_slash owner = true ->
  repo <> EmptyString -> Str.all any_char repo = true -> Str.all no_slash repo = true ->
  rmatch total
    (seq [Group 2 (plus_lazy dot); chr "/"; Group 3 (plus_lazy dot);
          opt (lit ".git"); opt (Seq (chr "/") (star dot)); Eol])
    (owner +++ "/" +++ repo +++ ".git") c finish
  = Some (set_cap 3 repo (set_cap 2 owner c), EmptyString).
Proof.
  intros Hne Hany Hslash Hr1 Hr2 Hr3.
  change (seq [Group 2 (plus_lazy dot); chr "/"; Group 3 (plus_lazy dot);
               opt (lit ".git"); opt (Seq (chr "/") (star dot)); Eol])
    with (Seq (Group 2 (plus_lazy (Chr any_char)))
              (Seq (chr "/")
                 (seq [Group 3 (plus_lazy dot); opt (lit ".git");
                       opt (Seq (chr "/") (star dot)); Eol]))).
  rewrite rmatch_seq.
  apply group_plus_lazy_first; [exact Hne|exact Hany| |].
  - rewrite rmatch_seq. cbn [append]. rewrite rmatch_chr_hit. now apply https_repo.
  - intros u v -> Hu Hv. apply all_suffix in Hslash.
    rewrite rmatch_seq. now apply slash_miss.
Qed.

Lemma https_match host owner repo :
  host <> EmptyString -> Str.all no_slash host = true ->
  owner <> EmptyString -> Str.all any_char owner = true -> Str.all no_slash owner = true ->
  repo <> EmptyString -> Str.all any_char repo = true -> Str.all no_slash repo = true ->
  exec httpsPattern ("https://" +++ host +++ "/" +++ owner +++ "/" +++ repo +++ ".git")
  = Some {| before := EmptyString;
            groups := [None; Some host; Some owner; Some repo];
            after := EmptyString |}.
Proof.
  intros Hh1 Hh2 Ho1 Ho2 Ho3 Hr1 Hr2 Hr3.
  unfold exec. set (total := String.length _).
  assert (Hm : rmatch total httpsPattern
                 ("https://" +++ host +++ "/" +++ owner +++ "/" +++ repo +++ ".git")
                 [] finish
               = Some ([None; Some host; Some owner; Some repo], EmptyString)).
  { change httpsPattern
      with (Seq (lit "https://")
              (Seq (Group 1 (plus (Chr no_slash)))
                 (Seq (chr "/")
                    (seq [Group 2 (plus_lazy dot); chr "/"; Group 3 (plus_lazy dot);
                          opt (lit ".git"); opt (Seq (chr "/") (star dot)); Eol])))).
    rewrite rmatch_seq, rmatch_lit_append, rmatch_seq.
    apply group_plus_greedy_last; [exact Hh1|exact Hh2| |].
    - rewrite rmatch_seq. cbn [append]. rewrite rmatch_chr_hit.
      now apply https_owner.
    - intros u v Huv Hu Hall. exfalso.
      destruct u as [|b u]; [contradiction|]. cbn [append] in Huv.
      inversion Huv; subst b. apply all_head in Hall. destruct Hall as [Hb _].
      discriminate. }
  destruct (String.append "https://" _) eqn:E; cbn [exec_from];
    rewrite Hm; reflexivity.
Qed.

(** The SSH pattern, from the right. *)
Lemma ssh_tail_none total s c :
  s <> EmptyString -> s <> ".git" ->
  rmatch total (seq [opt (lit ".git"); Eol]) s c finish = None.
Proof.
  intros Hs Hgit.
  change (seq [opt (lit ".git"); Eol]) with (Seq (Alt (lit ".git") Eps) Eol).
  cbn [rmatch]. rewrite rmatch_lit.
  destruct s as [|a s]; [contradiction|].
  destruct (String.prefix ".git" (String a s)) eqn:Hp; [|reflexivity].
  pose proof (prefix_split ".git" (String a s) Hp) as Hsplit.
  destruct (Str.drop (String.length ".git") (String a s)) eqn:Hd; [|reflexivity].
  exfalso. apply Hgit. rewrite Hsplit. reflexivity.
Qed.

Lemma ssh_repo total repo c :
  repo <> EmptyString -> Str.all any_char repo = true ->
  rmatch total (seq [Group 3 (plus_lazy dot); opt (lit ".git"); Eol]) (repo +++ ".git") c finish
  = Some (set_cap 3 repo c, EmptyString).
Proof.
  intros Hne Hany.
  change (seq [Group 3 (plus_lazy dot); opt (lit ".git"); Eol])
    with (Seq (Group 3 (plus_lazy (Chr any_char))) (seq [opt (lit ".git"); Eol])).
  rewrite rmatch_seq.
  apply group_plus_lazy_first; [exact Hne|exact Hany|reflexivity|].
  intros u v -> Hu Hv. apply ssh_tail_none.
  - now apply nonempty_append_l.
  - now apply longer_than_git.
Qed.

Lemma slash_miss_all {R : Type} total (v : string) c (k : string -> caps -> option R) :
  Str.all no_slash v = true -> rmatch total (chr "/") v c k = None.
Proof.
  intros Hall. destruct v as [|b v]; [reflexivity|].
  apply all_head in Hall. destruct Hall as [Hb _].
  apply rmatch_chr_miss. intros Heq. rewrite <- Heq in Hb. discriminate.
Qed.

Lemma ssh_owner total owner repo c :
  owner <> EmptyString -> Str.all any_char owner = true ->
  repo <> EmptyString -> Str.all any_char repo = true -> Str.all no_slash repo = true ->
  rmatch total
    (seq [Group 2 (plus dot); chr "/"; Group 3 (plus_lazy dot); opt (lit ".git"); Eol])
    (owner +++ "/" +++ repo +++ ".git") c finish
  = Some (set_cap 3 repo (set_cap 2 owner c), EmptyString).
Proof.
  intros Ho1 Ho2 Hr1 Hr2 Hr3.
  change (seq [Group 2 (plus dot); chr "/"; Group 3 (plus_lazy dot); opt (lit ".git"); Eol])
    with (Seq (Group 2 (plus (Chr any_char)))
              (Seq (chr "/") (seq [Group 3 (plus_lazy dot); opt (lit ".git"); Eol]))).
  rewrite rmatch_seq.
  apply group_plus_greedy_last; [exact Ho1|exact Ho2| |].
  - rewrite rmatch_seq. cbn [append]. rewrite rmatch_chr_hit. now apply ssh_repo.
  - intros u v Huv Hu _. rewrite rmatch_seq. apply slash_miss_all.
    destruct u as [|b u]; [contradiction|]. cbn [append] in Huv.
    inversion Huv as [[Hb Hrest]].
    apply (all_suffix no_slash u v). rewrite <- Hrest. now apply all_no_slash_git.
Qed.

Lemma ssh_match host owner repo :
  host <> EmptyString -> Str.all no_colon host = true ->
  owner <> EmptyString -> Str.all any_char owner = true ->
  repo <> EmptyString -> Str.all any_char repo = true -> Str.all no_slash repo = true ->
  exec sshPattern ("git@" +++ host +++ ":" +++ owner +++ "/" +++ repo +++ ".git")
  = Some {| before := EmptyString;
            groups := [None; Some host; Some owner; Some repo];
            after := EmptyString |}.
Proof.
  intros Hh1 Hh2 Ho1 Ho2 Hr1 Hr2 Hr3.
  unfold exec. set (total := String.length _).
  assert (Hm : rmatch total sshPattern
                 ("git@" +++ host +++ ":" +++ owner +++ "/" +++ repo +++ ".git")
                 [] finish
               = Some ([None; Some host; Some owner; Some repo], EmptyString)).
  { change sshPattern
      with (Seq (lit "git@")
              (Seq (Group 1 (plus (Chr no_colon)))
                 (Seq (chr ":")
                    (seq [Group 2 (plus dot); chr "/"; Group 3 (plus_lazy dot);
                          opt (lit ".git"); Eol])))).
    rewrite rmatch_seq, rmatch_lit_append, rmatch_seq.
    apply group_plus_greedy_last; [exact Hh1|exact Hh2| |].
    - rewrite rmatch_seq. cbn [append]. rewrite rmatch_chr_hit.
      now apply ssh_owner.
    - intros u v Huv Hu Hall. exfalso.
      destruct u as [|b u]; [contradiction|]. cbn [append] in Huv.
      inversion Huv; subst b. apply all_head in Hall. destruct Hall as [Hb _].
      discriminate. }
  destruct (String.append "git@" _) eqn:E; cbn [exec_from];
    rewrite Hm; reflexivity.
Qed.

(** The Azure pattern. *)
Lemma azure_match org project repo :
  org <> EmptyString -> Str.all no_slash org = true ->
  project <> EmptyString -> Str.all no_slash project = true ->
  repo <> EmptyString -> Str.all any_char repo = true ->
  exec azurePattern
    ("https://dev.azure.com/" +++ org +++ "/" +++ project +++ "/_git/" +++ repo)
  = Some {| before := EmptyString;
            groups := [None; Some org; Some project; Some repo];
            after := EmptyString |}.
Proof.
  intros Ho1 Ho2 Hp1 Hp2 Hr1 Hr2.
  unfold exec. set (total := String.length _).
  assert (Hlater : forall (t u v : string) (P : Prop),
             String "/" t = u +++ v -> u <> EmptyString -> Str.all no_slash u = true -> P).
  { intros t u v P Huv Hu Hall. exfalso.
    destruct u as [|b u]; [contradiction|]. cbn [append] in Huv.
    inversion Huv; subst b. apply all_head in Hall. destruct Hall as [Hb _].
    discriminate. }
  assert (Hm : rmatch total azurePattern
                 ("https://dev.azure.com/" +++ org +++ "/" +++ project +++ "/_git/" +++ repo)
                 [] finish
               = Some ([None; Some org; Some project; Some repo], EmptyString)).
  { change azurePattern
      with (Seq (lit "https://dev.azure.com/")
              (Seq (Group 1 (plus (Chr no_slash)))
                 (Seq (chr "/")
                    (Seq (Group 2 (plus (Chr no_slash)))
                       (Seq (lit "/_git/") (Group 3 (plus (Chr any_char)))))))).
    rewrite rmatch_seq, rmatch_lit_append, rmatch_seq.
    apply group_plus_greedy_last; [exact Ho1|exact Ho2| |].
    - rewrite rmatch_seq. cbn [append]. rewrite rmatch_chr_hit, rmatch_seq.
      change (String "/" (String "_" (String "g" (String "i" (String "t" (String "/" repo))))))
        with ("/_git/" +++ repo).
      apply group_plus_greedy_last; [exact Hp1|exact Hp2| |].
      + rewrite rmatch_seq, rmatch_lit_append.
        rewrite <- (append_nil_r repo) at 1.
        apply group_plus_greedy_last; [exact Hr1|exact Hr2|reflexivity|].
        intros u v Huv Hu _. destruct u; [contradiction|discriminate].
      + intros u v Huv Hu Hall. cbn [append] in Huv.
        exact (Hlater _ _ _ _ Huv Hu Hall).
    - intros u v Huv Hu Hall. cbn [append] in Huv.
      exact (Hlater _ _ _ _ Huv Hu Hall). }
  destruct (String.append "https://dev.azure.com/" _) eqn:E; cbn [exec_from];
    rewrite Hm; reflexivity.
Qed.

End PatternFacts.

Module TemplateFacts.

Import Str Regex RepositoryManager StrFacts RegexFacts PatternFacts.

Lemma getSubstitution_plain matched before after tpl :
  Str.all no_dollar tpl = true ->
  Str.getSubstitution matched before after tpl = tpl.
Proof.
  induction tpl as [|a tpl IH]; intros Hall; [reflexivity|].
  apply all_head in Hall. destruct Hall as [Ha Htpl].
  cbn [Str.getSubstitution]. unfold no_dollar in Ha.
  apply negb_true_iff in Ha. rewrite Ha. now rewrite IH.
Qed.

Lemma split_at_first_here pat post :
  Str.split_at_first pat (pat +++ post) = Some (EmptyString, post).
Proof.
  destruct (pat +++ post) eqn:E; cbn [Str.split_at_first]; rewrite <- E;
    now rewrite prefix_append, drop_append.
Qed.

Lemma split_at_first_later pat pre t post :
  Str.split_at_first (String "{" pat) t = Some (EmptyString, post) ->
  Str.all no_brace pre = true ->
  Str.split_at_first (String "{" pat) (pre +++ t) = Some (pre, post).
Proof.
  intros Ht. induction pre as [|a pre IH]; intros Hall; [exact Ht|].
  apply all_head in Hall. destruct Hall as [Ha Hpre].
  cbn [append Str.split_at_first]. rewrite prefix_head_differs.
  - now rewrite (IH Hpre).
  - intros Heq. rewrite <- Heq in Ha. discriminate.
Qed.

Lemma split_at_first_skip pat pre post :
  Str.all no_brace pre = true ->
  Str.split_at_first (String "{" pat) (pre +++ String "{" pat +++ post) = Some (pre, post).
Proof.
  intros Hall. apply split_at_first_later; [|exact Hall].
  apply split_at_first_here.
Qed.

(** The replacement of a placeholder that stands after a text without
    braces, by a text without dollar signs. *)
Lemma replace_placeholder pat pre post rep :
  Str.all no_brace pre = true ->
  Str.all no_dollar rep = true ->
  Str.replace (pre +++ String "{" pat +++ post) (String "{" pat) rep
  = pre +++ rep +++ post.
Proof.
  intros Hpre Hrep. unfold Str.replace.
  rewrite (split_at_first_skip pat pre post Hpre).
  now rewrite getSubstitution_plain.
Qed.

Lemma all_weaken (p q : ascii -> bool) s :
  (forall a, p a = true -> q a = true) -> Str.all p s = true -> Str.all q s = true.
Proof.
  intros Hpq. induction s as [|a s IH]; [reflexivity|]. intros H.
  apply all_head in H. destruct H as [Ha Hs].
  cbn [Str.all]. now rewrite (Hpq a Ha), (IH Hs).
Qed.

Lemma plain_parts a :
  plain_char a = true ->
  no_slash a = true /\ no_dollar a = true /\ no_brace a = true /\ any_char a = true.
Proof.
  unfold plain_char, no_slash, no_dollar, no_brace, any_char.
  intros H. repeat (apply andb_prop in H; destruct H as [H ?]).
  repeat split; trivial. rewrite negb_orb. now apply andb_true_intro.
Qed.

Lemma segment_parts s :
  segment s ->
  s <> EmptyString /\ Str.all no_slash s = true /\ Str.all no_dollar s = true /\
  Str.all no_brace s = true /\ Str.all any_char s = true.
Proof.
  intros [Hne Hall]. split; [exact Hne|].
  repeat split; (eapply all_weaken; [|exact Hall]); intros a Ha; now apply plain_parts in Ha.
Qed.

(** The addresses that the generator writes. *)
Lemma fill_owner_repo pre owner repo :
  Str.all no_brace pre = true -> segment owner -> segment repo ->
  Str.replace (Str.replace (pre +++ "{owner}" +++ "/{repo}.git") "{owner}" owner)
    "{repo}" repo
  = pre +++ owner +++ "/" +++ repo +++ ".git".
Proof.
  intros Hpre Ho Hr. apply segment_parts in Ho, Hr.
  destruct Ho as (_ & _ & Ho1 & Ho2 & _), Hr as (_ & _ & Hr1 & _).
  rewrite (replace_placeholder "owner}" pre _ owner Hpre Ho1).
  replace (pre +++ owner +++ "/{repo}.git")
    with ((pre +++ owner +++ "/") +++ "{repo}" +++ ".git")
    by (now rewrite !append_assoc).
  rewrite (replace_placeholder "repo}" _ _ repo); trivial;
    [|now rewrite !all_append, Hpre, Ho2].
  now rewrite !append_assoc.
Qed.

Lemma fill_host_owner_repo scheme sep host owner repo :
  Str.all no_brace scheme = true -> Str.all no_brace sep = true ->
  segment host -> segment owner -> segment repo ->
  Str.replace
    (Str.replace
       (Str.replace (scheme +++ "{host}" +++ sep +++ "{owner}" +++ "/{repo}.git")
          "{host}" host)
       "{owner}" owner)
    "{repo}" repo
  = scheme +++ host +++ sep +++ owner +++ "/" +++ repo +++ ".git".
Proof.
  intros Hscheme Hsep Hh Ho Hr.
  pose proof (segment_parts host Hh) as (_ & _ & Hh1 & Hh2 & _).
  rewrite (replace_placeholder "host}" scheme _ host Hscheme Hh1).
  replace (scheme +++ host +++ sep +++ "{owner}" +++ "/{repo}.git")
    with ((scheme +++ host +++ sep) +++ "{owner}" +++ "/{repo}.git")
    by (now rewrite !append_assoc).
  rewrite fill_owner_repo; trivial; [now rewrite !append_assoc|].
  now rewrite !all_append, Hscheme, Hh2, Hsep.
Qed.

Lemma fill_azure host org project repo :
  segment org -> segment project -> segment repo ->
  Str.replace
    (Str.replace
       (Str.replace
          (Str.replace
             (Str.replace "https://dev.azure.com/{org}/{project}/_git/{repo}"
                "{host}" host)
             "{owner}" org)
          "{repo}" repo)
       "{org}" org)
    "{project}" project
  = "https://dev.azure.com/" +++ org +++ "/" +++ project +++ "/_git/" +++ repo.
Proof.
  intros Ho Hp Hr. apply segment_parts in Ho, Hp, Hr.
  destruct Ho as (_ & _ & Ho1 & Ho2 & _), Hp as (_ & _ & Hp1 & _),
           Hr as (_ & _ & Hr1 & _).
  change (Str.replace "https://dev.azure.com/{org}/{project}/_git/{repo}" "{host}" host)
    with "https://dev.azure.com/{org}/{project}/_git/{repo}".
  change (Str.replace "https://dev.azure.com/{org}/{project}/_git/{repo}" "{owner}" org)
    with "https://dev.azure.com/{org}/{project}/_git/{repo}".
  change (Str.replace "https://dev.azure.com/{org}/{project}/_git/{repo}" "{repo}" repo)
    with ("https://dev.azure.com/{org}/{project}/_git/"
          +++ Str.getSubstitution "{repo}" "https://dev.azure.com/{org}/{project}/_git/"
                EmptyString repo
          +++ EmptyString).
  rewrite getSubstitution_plain, append_nil_r by exact Hr1.
  change ("https://dev.azure.com/{org}/{project}/_git/" +++ repo)
    with ("https://dev.azure.com/" +++ "{org}" +++ "/{project}/_git/" +++ repo).
  rewrite (replace_placeholder "org}" "https://dev.azure.com/" _ org eq_refl Ho1).
  replace ("https://dev.azure.com/" +++ org +++ "/{project}/_git/" +++ repo)
    with (("https://dev.azure.com/" +++ org +++ "/") +++ "{project}" +++ "/_git/" +++ repo)
    by (now rewrite !append_assoc).
  rewrite (replace_placeholder "project}" _ _ project); trivial;
    [|now rewrite !all_append, Ho2].
  now rewrite !append_assoc.
Qed.

(** What the parser reads in these addresses. *)
Lemma parse_https type host owner repo :
  String.eqb type "azure" = false ->
  segment host -> segment owner -> segment repo ->
  parseRepositoryUrl ("https://" +++ host +++ "/" +++ owner +++ "/" +++ repo +++ ".git") type
  = {| host := Some host; owner := Some owner; repo := Some repo; org := None |}.
Proof.
  intros Hty Hh Ho Hr. apply segment_parts in Hh, Ho, Hr.
  destruct Hh as (Hh0 & Hh1 & _), Ho as (Ho0 & Ho1 & _ & _ & Ho2),
           Hr as (Hr0 & Hr1 & _ & _ & Hr2).
  unfold parseRepositoryUrl.
  change (Str.startsWith ("https://" +++ host +++ "/" +++ owner +++ "/" +++ repo +++ ".git")
            "git@") with false.
  replace (Str.startsWith ("https://" +++ host +++ "/" +++ owner +++ "/" +++ repo +++ ".git")
             "https://") with true by (symmetry; apply prefix_append).
  cbv iota. rewrite Hty, https_match by assumption. reflexivity.
Qed.

Lemma parse_ssh type host owner repo :
  segment host -> Str.all no_colon host = true -> segment owner -> segment repo ->
  parseRepositoryUrl ("git@" +++ host +++ ":" +++ owner +++ "/" +++ repo +++ ".git") type
  = {| host := Some host; owner := Some owner; repo := Some repo; org := None |}.
Proof.
  intros Hh Hcolon Ho Hr. apply segment_parts in Hh, Ho, Hr.
  destruct Hh as (Hh0 & _), Ho as (Ho0 & _ & _ & _ & Ho2),
           Hr as (Hr0 & Hr1 & _ & _ & Hr2).
  unfold parseRepositoryUrl.
  replace (Str.startsWith ("git@" +++ host +++ ":" +++ owner +++ "/" +++ repo +++ ".git")
             "git@") with true by (symmetry; apply prefix_append).
  cbv iota. rewrite ssh_match by assumption. reflexivity.
Qed.

Lemma parse_azure org project repo :
  segment org -> segment project -> segment repo ->
  parseRepositoryUrl
    ("https://dev.azure.com/" +++ org +++ "/" +++ project +++ "/_git/" +++ repo) "azure"
  = {| host := Some "dev.azure.com"; owner := Some project; repo := Some repo;
       org := Some org |}.
Proof.
  intros Ho Hp Hr. apply segment_parts in Ho, Hp, Hr.
  destruct Ho as (Ho0 & Ho1 & _), Hp as (Hp0 & Hp1 & _),
           Hr as (Hr0 & _ & _ & _ & Hr2).
  unfold parseRepositoryUrl.
  change (Str.startsWith
            ("https://dev.azure.com/" +++ org +++ "/" +++ project +++ "/_git/" +++ repo)
            "git@") with false.
  change (Str.startsWith
            ("https://dev.azure.com/" +++ org +++ "/" +++ project +++ "/_git/" +++ repo)
            "https://") with true.
  cbv iota. change (String.eqb "azure" "azure") with true. cbv iota.
  rewrite azure_match by assumption. reflexivity.
Qed.

Lemma two_segment_cases type :
  two_segment type = true ->
  type = "github" \/ type = "gitea" \/ type = "gitlab" \/ type = "bitbucket".
Proof.
  unfold two_segment. cbn [existsb]. intros H.
  repeat (apply orb_prop in H; destruct H as [H|H]);
    try discriminate; apply String.eqb_eq in H; subst; tauto.
Qed.

Lemma github_is_segment : segment "github.com".
Proof. split; [discriminate|reflexivity]. Qed.

(** The generated address of a provider with a two-segment path. *)
Lemma generate_two_segment type config d owner repo protocol :
  two_segment type = true ->
  lookup type repositoryTypes = Some config ->
  d_owner d = Some owner -> d_repo d = Some repo ->
  segment owner -> segment repo -> segment (effectiveHost config d) ->
  d_protocol d = Some protocol -> protocol <> EmptyString ->
  generateRepositoryUrl type d
  = Ok (Some ((if String.eqb protocol "ssh" then "git@" else "https://")
              +++ returned_host type config d
              +++ (if String.eqb protocol "ssh" then ":" else "/")
              +++ owner +++ "/" +++ repo +++ ".git")).
Proof.
  intros Hty Hconfig Hdo Hdr Ho Hr Hh Hproto Hne.
  unfold generateRepositoryUrl, returned_host. rewrite Hconfig, Hdo, Hdr, Hproto.
  assert (Hp : toString (or_else (Some protocol) (Some "https")) = protocol).
  { unfold or_else, truthy. destruct protocol; [contradiction|reflexivity]. }
  rewrite Hp. cbn [toString].
  set (host := effectiveHost config d) in *.
  destruct (two_segment_cases type Hty) as [ -> | [ -> | [ -> | -> ] ] ];
    cbn in Hconfig; inversion Hconfig as [Hc]; clear Hconfig;
    change (String.eqb _ "custom") with false;
    change (String.eqb _ "azure") with false;
    change (String.eqb _ "github") with false || change (String.eqb _ "github") with true;
    cbv iota; cbn [sshFormat httpsFormat];
    destruct (String.eqb protocol "ssh"); cbv iota.
  all: try (change (Str.replace "git@github.com:{owner}/{repo}.git" "{host}" host)
              with ("git@github.com:" +++ "{owner}" +++ "/{repo}.git");
            rewrite fill_owner_repo by (trivial; reflexivity); reflexivity).
  all: try (change (Str.replace "https://github.com/{owner}/{repo}.git" "{host}" host)
              with ("https://github.com/" +++ "{owner}" +++ "/{repo}.git");
            rewrite fill_owner_repo by (trivial; reflexivity); reflexivity).
  all: try (change "git@{host}:{owner}/{repo}.git"
              with ("git@" +++ "{host}" +++ ":" +++ "{owner}" +++ "/{repo}.git");
            rewrite fill_host_owner_repo by (trivial; reflexivity); reflexivity).
  all: change "https://{host}/{owner}/{repo}.git"
         with ("https://" +++ "{host}" +++ "/" +++ "{owner}" +++ "/{repo}.git");
       rewrite fill_host_owner_repo by (trivial; reflexivity); reflexivity.
Qed.

End TemplateFacts.

Module CodecProofs.

Import Regex RepositoryManager CodecExamples StrFacts RegexFacts CaptureFacts PatternFacts TemplateFacts.

Lemma generate_azure d org project repo :
  d_owner d = Some org -> d_project d = Some project -> d_repo d = Some repo ->
  segment org -> segment project -> segment repo ->
  d_protocol d = Some "https" ->
  generateRepositoryUrl "azure" d
  = Ok (Some ("https://dev.azure.com/" +++ org +++ "/" +++ project +++ "/_git/" +++ repo)).
Proof.
  intros Hdo Hdp Hdr Ho Hp Hr Hproto.
  unfold generateRepositoryUrl. rewrite Hdo, Hdp, Hdr, Hproto.
  change (lookup "azure" repositoryTypes) with
    (Some {| rt_name := "Azure DevOps";
             description := "Microsoft Azure DevOps Services";
             baseUrl := Some "https://dev.azure.com";
             sshFormat := Some "git@ssh.dev.azure.com:v3/{org}/{project}/{repo}";
             httpsFormat := Some "https://dev.azure.com/{org}/{project}/_git/{repo}";
             webFormat := Some "https://dev.azure.com/{org}/{project}/_git/{repo}";
             supportsPages := false; supportsActions := true;
             supportsPackages := true |}).
  change (String.eqb "azure" "custom") with false.
  change (String.eqb "azure" "azure") with true.
  change (toString (or_else (Some "https") (Some "https"))) with "https".
  change (String.eqb "https" "ssh") with false.
  cbv iota. cbn [httpsFormat toString].
  now rewrite fill_azure.
Qed.

(** C4, as the code has it.  For the four providers with a two-segment
    path, over HTTPS and over SSH (where the host has no colon), the parse of
    the generated address gives back the owner and the repository that were
    supplied, no organisation, and the host that the address holds:
    github.com for GitHub, else the host the generator used.  For the
    Azure-style provider over HTTPS, the supplied owner comes back as [org],
    the supplied project as [owner], the repository as [repo] and the host is
    dev.azure.com.  Segments are non-empty and hold no slash, dollar sign,
    opening brace or line terminator. *)
Theorem round_trip_as_designed type config d owner repo :
  lookup type repositoryTypes = Some config ->
  d_owner d = Some owner -> d_repo d = Some repo ->
  segment owner -> segment repo -> segment (effectiveHost config d) ->
  (two_segment type = true -> d_protocol d = Some "https" ->
   exists url,
     generateRepositoryUrl type d = Ok (Some url) /\
     parseRepositoryUrl url type
     = {| host := Some (returned_host type config d);
          owner := Some owner; repo := Some repo; org := None |}) /\
  (two_segment type = true -> d_protocol d = Some "ssh" ->
   Str.all no_colon (effectiveHost config d) = true ->
   exists url,
     generateRepositoryUrl type d = Ok (Some url) /\
     parseRepositoryUrl url type
     = {| host := Some (returned_host type config d);
          owner := Some owner; repo := Some repo; org := None |}) /\
  (type = "azure" -> d_protocol d = Some "https" ->
   forall project, d_project d = Some project -> segment project ->
   exists url,
     generateRepositoryUrl type d = Ok (Some url) /\
     parseRepositoryUrl url type
     = {| host := Some "dev.azure.com";
          owner := Some project; repo := Some repo; org := Some owner |}).
Proof.
  intros Hconfig Hdo Hdr Ho Hr Hh.
  assert (Hret : two_segment type = true ->
                 segment (returned_host type config d) /\
                 (Str.all no_colon (effectiveHost config d) = true ->
                  Str.all no_colon (returned_host type config d) = true) /\
                 String.eqb type "azure" = false).
  { intros Hty.
    destruct (two_segment_cases type Hty) as [ -> | [ -> | [ -> | -> ] ] ].
    - change (returned_host "github" config d) with "github.com".
      split; [exact github_is_segment|]. split; reflexivity.
    - change (returned_host "gitea" config d) with (effectiveHost config d).
      split; [exact Hh|]. split; [trivial|reflexivity].
    - change (returned_host "gitlab" config d) with (effectiveHost config d).
      split; [exact Hh|]. split; [trivial|reflexivity].
    - change (returned_host "bitbucket" config d) with (effectiveHost config d).
      split; [exact Hh|]. split; [trivial|reflexivity]. }
  split; [|split].
  - intros Hty Hproto. destruct (Hret Hty) as (Hseg & _ & Hnot).
    eexists. split.
    + apply (generate_two_segment type config d owner repo "https"); trivial. discriminate.
    + change (String.eqb "https" "ssh") with false. cbv iota.
      now apply parse_https.
  - intros Hty Hproto Hcolon. destruct (Hret Hty) as (Hseg & Hc & _).
    eexists. split.
    + apply (generate_two_segment type config d owner repo "ssh"); trivial. discriminate.
    + change (String.eqb "ssh" "ssh") with true. cbv iota.
      apply parse_ssh; auto.
  - intros -> Hproto project Hdp Hp.
    eexists. split.
    + now apply (generate_azure d owner project repo).
    + now apply parse_azure.
Qed.

Lemma round_trip_as_designed_witness :
  lookup "github" repositoryTypes = Some github_config /\
  d_owner github_details = Some "mycompany" /\
  d_repo github_details = Some "myproject" /\
  segment "mycompany" /\ segment "myproject" /\
  segment (effectiveHost github_config github_details) /\
  two_segment "github" = true /\
  d_protocol github_details = Some "https" /\
  exists url,
    generateRepositoryUrl "github" github_details = Ok (Some url) /\
    parseRepositoryUrl url "github"
    = {| host := Some (returned_host "github" github_config github_details);
         owner := Some "mycompany"; repo := Some "myproject"; org := None |}.
Proof.
  assert (H1 : segment "mycompany") by (split; [discriminate|reflexivity]).
  assert (H2 : segment "myproject") by (split; [discriminate|reflexivity]).
  assert (H3 : segment (effectiveHost github_config github_details))
    by (split; [discriminate|reflexivity]).
  repeat (split; [first [reflexivity | assumption]|]).
  exact (proj1 (round_trip_as_designed "github" github_config github_details
                  "mycompany" "myproject" eq_refl eq_refl eq_refl H1 H2 H3)
           eq_refl eq_refl).
Defined.

(** C4, as stated, fails.  For the Azure-style provider the supplied owner
    comes back as the organisation and the supplied project as the owner;
    an owner with a dollar sign before an ampersand is not the text that the
    generator writes; over SSH a host with a port is cut at its colon. *)
Lemma round_trip_fails :
  (generateRepositoryUrl "azure" azure_details
     = Ok (Some "https://dev.azure.com/myorg/myproject/_git/myrepo") /\
   parseRepositoryUrl "https://dev.azure.com/myorg/myproject/_git/myrepo" "azure"
     = {| host := Some "dev.azure.com"; owner := Some "myproject";
          repo := Some "myrepo"; org := Some "myorg" |} /\
   owner (parseRepositoryUrl "https://dev.azure.com/myorg/myproject/_git/myrepo" "azure")
     <> d_owner azure_details) /\
  (generateRepositoryUrl "github" dollar_details
     = Ok (Some "https://github.com/R{owner}D/tools.git") /\
   owner (parseRepositoryUrl "https://github.com/R{owner}D/tools.git" "github")
     <> d_owner dollar_details) /\
  (generateRepositoryUrl "gitea" port_details
     = Ok (Some "git@git.example.com:2222:team/project.git") /\
   host (parseRepositoryUrl "git@git.example.com:2222:team/project.git" "gitea")
     <> d_host port_details).
Proof. repeat split; try reflexivity; vm_compute; discriminate. Qed.

Ltac solve_rest :=
  first [ reflexivity | assumption | congruence
        | match goal with H : _ <> _ |- _ => exfalso; apply H; reflexivity end ].

(** C9.  The parser is a total function of the address and the provider tag.
    Its answer is the all-null record or holds a host, an owner and a
    repository; the organisation is read for the Azure tag only.  An address
    of another scheme, or of a shape that the pattern of its scheme does not
    match, gives the all-null record. *)
Theorem parse_all_or_nothing url type :
  let i := parseRepositoryUrl url type in
  (i = info0 \/
   exists h o r, host i = Some h /\ owner i = Some o /\ repo i = Some r) /\
  (org i <> None -> type = "azure") /\
  (Str.startsWith url "git@" = false -> Str.startsWith url "https://" = false ->
   i = info0) /\
  (Str.startsWith url "git@" = true -> exec sshPattern url = None -> i = info0) /\
  (Str.startsWith url "git@" = false -> type = "azure" ->
   exec azurePattern url = None -> i = info0) /\
  (Str.startsWith url "git@" = false -> type <> "azure" ->
   exec httpsPattern url = None -> i = info0).
Proof.
  assert (Hin : forall n, n = 1%nat \/ n = 2%nat \/ n = 3%nat ->
                In n (sets sshPattern) /\ In n (sets azurePattern) /\
                In n (sets httpsPattern)).
  { intros n [ -> | [ -> | -> ] ]; cbn; tauto. }
  cbv zeta. unfold parseRepositoryUrl.
  destruct (Str.startsWith url "git@") eqn:Hgit.
  - destruct (exec sshPattern url) as [m|] eqn:Hm.
    + destruct (exec_captures _ _ _ 1%nat Hm) as [h Hh]; [apply Hin; tauto|].
      destruct (exec_captures _ _ _ 2%nat Hm) as [o Ho]; [apply Hin; tauto|].
      destruct (exec_captures _ _ _ 3%nat Hm) as [r Hr]; [apply Hin; tauto|].
      rewrite Hh, Ho, Hr. cbn [host owner repo org].
      split; [right; now exists h, o, r|]. repeat split; intros; solve_rest.
    + split; [now left|]. repeat split; intros; solve_rest.
  - destruct (Str.startsWith url "https://") eqn:Hhttps.
    + destruct (String.eqb type "azure") eqn:Hty.
      * apply String.eqb_eq in Hty.
        destruct (exec azurePattern url) as [m|] eqn:Hm.
        -- destruct (exec_captures _ _ _ 1%nat Hm) as [h Hh]; [apply Hin; tauto|].
           destruct (exec_captures _ _ _ 2%nat Hm) as [o Ho]; [apply Hin; tauto|].
           destruct (exec_captures _ _ _ 3%nat Hm) as [r Hr]; [apply Hin; tauto|].
           rewrite Hh, Ho, Hr. cbn [host owner repo org].
           split; [right; now exists "dev.azure.com", o, r|].
           repeat split; intros; solve_rest.
        -- split; [now left|]. repeat split; intros; solve_rest.
      * apply String.eqb_neq in Hty.
        destruct (exec httpsPattern url) as [m|] eqn:Hm.
        -- destruct (exec_captures _ _ _ 1%nat Hm) as [h Hh]; [apply Hin; tauto|].
           destruct (exec_captures _ _ _ 2%nat Hm) as [o Ho]; [apply Hin; tauto|].
           destruct (exec_captures _ _ _ 3%nat Hm) as [r Hr]; [apply Hin; tauto|].
           rewrite Hh, Ho, Hr. cbn [host owner repo org].
           split; [right; now exists h, o, r|].
           repeat split; intros; solve_rest.
        -- split; [now left|]. repeat split; intros; solve_rest.
    + split; [now left|]. repeat split; intros; solve_rest.
Qed.

(** The malformed address of the unit test. *)
Example parse_not_a_url : parseRepositoryUrl "not-a-url" "github" = info0.
Proof. reflexivity. Qed.

End CodecProofs.

(* ===================================================================== *)
(** * Further properties *)

(** ** Detection, discovery and the summary *)

Module DetectionExtras.

Import WorkspaceDetector Fixture Examples DiscoveryProofs DetectionProofs DetectionSummary Vocabulary.
Import RepositoryExamples.

(** X1.  The structure of a result tells, and is told by, the two facts that
    a caller branches on: it is [workspace] exactly when the result is a
    workspace, [multi-project] exactly when it is not and has more than one
    project, and [single-project] exactly when it is not and has at most
    one. *)
Theorem structure_characterised env rootDir :
  let r := detectWorkspace env rootDir in
  (structure r = Workspace <-> isWorkspace r = true) /\
  (structure r = MultiProject <->
   isWorkspace r = false /\ (1 < List.length (projects r))%nat) /\
  (structure r = SingleProject <->
   isWorkspace r = false /\ (List.length (projects r) <= 1)%nat).
Proof.
  intros r. subst r.
  destruct (detect_cases env rootDir) as [(e & _ & ->)|[(_ & ->)|(w & _ & ->)]].
  - cbn. intuition (try discriminate; try lia).
  - destruct (1 <? List.length (scanForProjects env rootDir))%nat eqn:E;
      cbn [structure isWorkspace projects set_implicit set_projects detection0].
    + apply Nat.ltb_lt in E. intuition (try discriminate; try lia).
    + apply Nat.ltb_ge in E. intuition (try discriminate; try lia).
  - destruct (structure_extends env rootDir
                (set_projects (scanForProjects env rootDir) (set_found w detection0)))
      as (Hw & _ & Hs & _).
    rewrite Hw, Hs. cbn [structure isWorkspace set_projects set_found].
    intuition (try discriminate).
Qed.


(** *** Where the candidates of a result come from *)

Lemma fold_append_some_all {A B : Type} (P : B -> Prop) (f : A -> option B) (l : list A) :
  (forall a b, f a = Some b -> P b) ->
  forall init, Forall P init ->
               Forall P (fold_left (fun acc a => append_some acc (f a)) l init).
Proof.
  intros Hf. induction l as [|a l IH]; cbn [fold_left]; intros init Hinit; [exact Hinit|].
  apply IH. destruct (f a) as [b|] eqn:E; cbn [append_some]; [|exact Hinit].
  apply Forall_app. split; [exact Hinit|]. constructor; [|constructor].
  exact (Hf a b E).
Qed.

Lemma discovered_all env rootDir items (P : project -> Prop) :
  (forall dirPath dirName p,
     analyzeProjectDirectory env dirPath (JStr dirName) = Some p -> P p) ->
  Forall P (discovered env rootDir items).
Proof.
  intros Hf. unfold discovered.
  apply (fold_append_some_all P
           (fun dirName => analyzeProjectDirectory env (path_join env rootDir dirName)
                             (JStr dirName))).
  - intros a b. apply Hf.
  - destruct (analyzeProjectDirectory env rootDir (JStr ".")) as [p|] eqn:E;
      cbn [append_some app]; [|constructor].
    constructor; [|constructor]. exact (Hf _ _ _ E).
Qed.

Lemma scan_all env rootDir (P : project -> Prop) :
  (forall dirPath dirName p,
     analyzeProjectDirectory env dirPath (JStr dirName) = Some p -> P p) ->
  Forall P (scanForProjects env rootDir).
Proof.
  intros Hf. rewrite scan_is_sorted_discovery.
  apply (Permutation_Forall (sort_perm _)).
  unfold discovery_order. destruct (readdir env rootDir) as [items|e]; [|constructor].
  now apply discovered_all.
Qed.

(** The external candidates of a descriptor. *)
Lemma vscode_folder_marked env rootDir folder p :
  vscode_folder env rootDir folder = Ok (Some p) ->
  exists dirName p0,
    analyzeProjectDirectory env (absolutePath p) dirName = Some p0 /\
    p = mark_external (absolutePath p) dirName p0.
Proof.
  unfold vscode_folder.
  destruct (Json.get folder "path") as [[[| | |folderPath| |]|]|e]; cbn [bind];
    try discriminate.
  set (absolute := if path_isAbsolute env folderPath then folderPath
                   else path_resolve env [rootDir; folderPath]).
  destruct (pathExists env absolute && negb _); [|discriminate].
  set (folderName := or_json _ _).
  destruct (analyzeProjectDirectory env absolute folderName) as [p0|] eqn:E;
    [|discriminate].
  intros H. injection H as H. subst p. cbn [mark_external absolutePath].
  exists folderName, p0. split; [exact E|reflexivity].
Qed.

Lemma vscode_folders_marked env rootDir folders : forall acc l,
  vscode_folders env rootDir folders acc = Ok l ->
  exists ext,
    l = acc ++ ext /\
    Forall (fun p => exists dirName p0,
              analyzeProjectDirectory env (absolutePath p) dirName = Some p0 /\
              p = mark_external (absolutePath p) dirName p0) ext.
Proof.
  induction folders as [|f folders IH]; intros acc l H; cbn [vscode_folders] in H.
  - injection H as H. subst l. exists []. split; [symmetry; apply app_nil_r|constructor].
  - destruct (vscode_folder env rootDir f) as [added|e] eqn:E; cbn [bind] in H;
      [|discriminate].
    apply IH in H. destruct H as (ext & -> & Hext).
    destruct added as [p|]; cbn [append_some].
    + exists (p :: ext). split; [now rewrite <- app_assoc|].
      constructor; [|exact Hext]. exact (vscode_folder_marked _ _ _ _ E).
    + exists ext. split; [reflexivity|exact Hext].
Qed.

(** What [analyzeVSCodeWorkspace] leaves: the object as it was, or the
    object with the external candidates after the others. *)
Lemma vscode_outcome env rootDir d :
  fst (analyzeVSCodeWorkspace env rootDir d) = d \/
  exists ext,
    fst (analyzeVSCodeWorkspace env rootDir d)
    = set_externalProjects ext (set_projects (projects d ++ ext) d) /\
    Forall (fun p => exists dirName p0,
              analyzeProjectDirectory env (absolutePath p) dirName = Some p0 /\
              p = mark_external (absolutePath p) dirName p0) ext.
Proof.
  unfold analyzeVSCodeWorkspace, ebind, read, lift, update.
  destruct (truthy_prop (workspaceConfig d) "folders") as [folders|]; [|now left].
  destruct (iterate folders) as [items|e]; [|now left].
  destruct (vscode_folders env rootDir items []) as [ext|e] eqn:E; [|now left].
  right. exists ext. split; [reflexivity|].
  apply vscode_folders_marked in E. destruct E as (ext' & -> & H). exact H.
Qed.

(** The type of a detection is [VS Code Workspace] or it is not. *)
Lemma structure_cases env rootDir d :
  (workspaceType d = Some "VS Code Workspace" /\
   fst (analyzeWorkspaceStructure env rootDir d) = fst (analyzeVSCodeWorkspace env rootDir d))
  \/ workspaceType d <> Some "VS Code Workspace".
Proof.
  destruct (workspaceType d) as [w|] eqn:Hw; [|right; discriminate].
  destruct (String.eqb w "VS Code Workspace") eqn:E.
  - apply String.eqb_eq in E. subst w. left. split; [reflexivity|].
    unfold analyzeWorkspaceStructure, ebind, read. rewrite Hw. reflexivity.
  - right. apply String.eqb_neq in E. congruence.
Qed.

Lemma structure_keeps_all env rootDir (P : project -> Prop) d :
  (forall dirPath dirName p,
     analyzeProjectDirectory env dirPath (JStr dirName) = Some p -> P p) ->
  (forall p dirName p0,
     analyzeProjectDirectory env (absolutePath p) dirName = Some p0 ->
     p = mark_external (absolutePath p) dirName p0 -> P p) ->
  Forall P (projects d) ->
  Forall P (projects (fst (analyzeWorkspaceStructure env rootDir d))).
Proof.
  intros Hscored Hmarked Hd.
  destruct (structure_cases env rootDir d) as [[_ ->]|Hnot].
  - destruct (vscode_outcome env rootDir d) as [->|(ext & -> & Hext)]; [exact Hd|].
    cbn [projects set_externalProjects set_projects].
    apply Forall_app. split; [exact Hd|].
    eapply Forall_impl; [|exact Hext].
    intros p (dirName & p0 & H0 & Hp). eapply Hmarked; eassumption.
  - revert Hd.
    apply (structure_respects_but_vscode
             (fun a b => Forall P (projects a) -> Forall P (projects b))); auto.
    intros d0 p dirPath s Hp _ H0. cbn [push_project set_projects projects].
    apply Forall_app. split; [exact H0|]. constructor; [|constructor].
    exact (Hscored _ _ _ Hp).
Qed.

Lemma detect_all env rootDir (P : project -> Prop) :
  (forall dirPath dirName p,
     analyzeProjectDirectory env dirPath (JStr dirName) = Some p -> P p) ->
  (forall p dirName p0,
     analyzeProjectDirectory env (absolutePath p) dirName = Some p0 ->
     p = mark_external (absolutePath p) dirName p0 -> P p) ->
  Forall P (projects (detectWorkspace env rootDir)).
Proof.
  intros Hscored Hmarked.
  pose proof (scan_all env rootDir P Hscored) as Hscan.
  destruct (detect_cases env rootDir) as [(e & _ & ->)|[(_ & ->)|(w & _ & ->)]].
  - constructor.
  - destruct (1 <? List.length (scanForProjects env rootDir))%nat; exact Hscan.
  - apply structure_keeps_all; trivial.
Qed.

(** The double of the confidence is not always the whole number that exact
    arithmetic gives (for the total weight 11 it is a little more than 55),
    but it is always nearer to it than to any other. *)
Lemma round_confidence_of w :
  (0 <= w <= 226)%Z -> round (confidence_of w) = Z.min 100 (5 * w).
Proof.
  intros Hw. apply Z.eqb_eq. revert w Hw.
  apply (ScorerProofs.checked_upto
           (fun w => (round (confidence_of w) =? Z.min 100 (5 * w))%Z) 226).
  vm_compute. reflexivity.
Qed.

Lemma analyze_weight env dirPath dirName p :
  analyzeProjectDirectory env dirPath dirName = Some p ->
  absolutePath p = dirPath /\
  confidence p = confidence_of (matched_weight env dirPath) /\
  (5 <= matched_weight env dirPath <= 226)%Z.
Proof.
  intros H. pose proof (ScorerProofs.analyze_total_weight _ _ _ _ H) as [Hc Hne].
  apply ScorerProofs.analyze_some in H. destruct H as (acc & H).
  split; [tauto|]. split; [exact Hc|].
  unfold matched_weight.
  split; [|apply ScorerProofs.matched_weight_bounds].
  destruct (ScorerProofs.sum_weights_lower
              (filter (is_matched env dirPath) projectIndicators)) as [Hnil|Hle];
    [|contradiction|exact Hle].
  apply incl_Forall with (l1 := projectIndicators);
    [|exact ScorerProofs.weights_at_least_5].
  intros e He. apply filter_In in He. tauto.
Qed.

(** X3.  The confidence that the summary shows for a candidate is five times
    the total weight of the indicators matched in its directory, and 100 at
    most; it is a whole number between 25 and 100.  The other three fields
    are those of the candidate. *)
Theorem summary_confidence env rootDir :
  let r := detectWorkspace env rootDir in
  Forall2 (fun p s =>
             ps_name s = name p /\ ps_type s = type p /\ ps_path s = path p /\
             ps_confidence s = Z.min 100 (5 * matched_weight env (absolutePath p)) /\
             (25 <= ps_confidence s <= 100)%Z)
    (projects r) (ds_projects (formatDetectionSummary r)).
Proof.
  intros r. cbn [formatDetectionSummary ds_projects].
  assert (Hall : Forall (fun p =>
                   confidence p = confidence_of (matched_weight env (absolutePath p)) /\
                   (5 <= matched_weight env (absolutePath p) <= 226)%Z) (projects r)).
  { apply detect_all.
    - intros dirPath dirName p Hp.
      destruct (analyze_weight _ _ _ _ Hp) as (-> & Hc & Hw). split; assumption.
    - intros p dirName p0 Hp0 Hp.
      destruct (analyze_weight _ _ _ _ Hp0) as (_ & Hc & Hw).
      split; [|exact Hw]. rewrite Hp at 1. cbn [mark_external confidence]. exact Hc. }
  induction Hall as [|p l [Hc Hw] _ IH]; cbn [map]; constructor; [|exact IH].
  cbn [ps_name ps_type ps_path ps_confidence].
  rewrite Hc, round_confidence_of by lia. repeat split; lia.
Qed.


Lemma find_indicator_type env rootDir entries : forall w,
  find_indicator env rootDir entries = Ok (Some w) -> In (wi_type w) (map snd entries).
Proof.
  induction entries as [|[filename type] rest IH]; intros w H; cbn [find_indicator] in H;
    [discriminate|].
  cbn [map snd].
  destruct (Str.includes filename "*").
  - destruct (glob env filename _) as [[|m ms]|e]; cbn [bind] in H.
    + right. exact (IH _ H).
    + injection H as H. subst w. now left.
    + discriminate.
  - destruct (pathExists env _).
    + injection H as H. subst w. now left.
    + right. exact (IH _ H).
Qed.

(** X2.  The type that the summary shows follows the structure: it is
    [Single Project] for a single project, [Implicit Multi-Project] for
    several projects without a workspace file, and one of the types of the
    registry of workspace indicators for a workspace; the count is the
    number of candidates listed. *)
Theorem summary_type env rootDir :
  let r := detectWorkspace env rootDir in
  let s := formatDetectionSummary r in
  ds_structure s = structure r /\
  (structure r = SingleProject -> ds_type s = "Single Project") /\
  (structure r = MultiProject -> ds_type s = "Implicit Multi-Project") /\
  (structure r = Workspace -> In (ds_type s) (map snd workspaceIndicators)) /\
  ~ In "Single Project" (map snd workspaceIndicators) /\
  projectCount s = List.length (ds_projects s).
Proof.
  intros r s. subst s. split; [reflexivity|].
  assert (Hcount : forall d, projectCount (formatDetectionSummary d)
                             = List.length (ds_projects (formatDetectionSummary d))).
  { intros d. cbn [formatDetectionSummary projectCount ds_projects].
    now rewrite length_map. }
  assert (Hnot : ~ In "Single Project" (map snd workspaceIndicators)).
  { cbn. intuition discriminate. }
  cbn [formatDetectionSummary ds_type]. subst r.
  destruct (detect_cases env rootDir) as [(e & _ & ->)|[(_ & ->)|(w & Hfind & ->)]].
  - repeat split; trivial; try discriminate; apply Hcount.
  - destruct (1 <? List.length (scanForProjects env rootDir))%nat;
      cbn [structure workspaceType set_implicit set_projects detection0];
      repeat split; trivial; try discriminate; apply Hcount.
  - destruct (structure_extends env rootDir
                (set_projects (scanForProjects env rootDir) (set_found w detection0)))
      as (_ & Hw & Hs & _).
    rewrite Hw, Hs. cbn [structure workspaceType set_projects set_found].
    repeat split; trivial; try discriminate; try apply Hcount. intros _.
    apply find_indicator_type in Hfind.
    assert (Hne : Forall (fun t => t <> EmptyString) (map snd workspaceIndicators))
      by (repeat constructor; discriminate).
    rewrite Forall_forall in Hne. specialize (Hne _ Hfind).
    unfold RepositoryManager.toString, RepositoryManager.or_else, RepositoryManager.truthy.
    destruct (wi_type w); [contradiction|exact Hfind].
Qed.


Lemma analyze_not_external env dirPath dirName p :
  analyzeProjectDirectory env dirPath dirName = Some p -> isExternal p = false.
Proof.
  intros H. apply ScorerProofs.analyze_some in H. destruct H as (acc & H). tauto.
Qed.

Lemma internal_not_in (ext : list project) (p : project) :
  Forall (fun q => isExternal q = false) ext -> isExternal p = true -> ~ In p ext.
Proof.
  intros Hall Hp Hin. rewrite Forall_forall in Hall. specialize (Hall p Hin). congruence.
Qed.

(** X4.  The mark [isExternal] and the field [externalProjects] agree: when
    the field is set, the candidates of the result are those of the scan
    followed by the external ones, which all bear the mark; a candidate that
    bears the mark is one of the external ones. *)
Theorem external_marks env rootDir :
  let r := detectWorkspace env rootDir in
  (forall ext, externalProjects r = Some ext ->
     projects r = scanForProjects env rootDir ++ ext /\
     Forall (fun p => isExternal p = true) ext) /\
  (forall p, In p (projects r) -> isExternal p = true ->
     exists ext, externalProjects r = Some ext /\ In p ext).
Proof.
  intros r. subst r.
  assert (Hscan : Forall (fun p => isExternal p = false) (scanForProjects env rootDir)).
  { apply scan_all. intros dirPath dirName p. apply analyze_not_external. }
  assert (Hplain : forall d,
            externalProjects d = None ->
            Forall (fun p => isExternal p = false) (projects d) ->
            (forall ext, externalProjects d = Some ext ->
               projects d = scanForProjects env rootDir ++ ext /\
               Forall (fun p => isExternal p = true) ext) /\
            (forall p, In p (projects d) -> isExternal p = true ->
               exists ext, externalProjects d = Some ext /\ In p ext)).
  { intros d Hnone Hall. split.
    - intros ext Hsome. congruence.
    - intros p Hin Hp. exfalso. exact (internal_not_in _ _ Hall Hp Hin). }
  destruct (detect_cases env rootDir) as [(e & _ & ->)|[(_ & ->)|(w & _ & ->)]].
  - apply Hplain; [reflexivity|constructor].
  - destruct (1 <? List.length (scanForProjects env rootDir))%nat;
      (apply Hplain; [reflexivity|exact Hscan]).
  - set (d := set_projects (scanForProjects env rootDir) (set_found w detection0)).
    destruct (structure_cases env rootDir d) as [[_ ->]|Hnot].
    + destruct (vscode_outcome env rootDir d) as [->|(ext & -> & Hext)].
      * apply Hplain; [reflexivity|exact Hscan].
      * assert (Hmarked : Forall (fun p => isExternal p = true) ext).
        { eapply Forall_impl; [|exact Hext].
          intros p (dirName & p0 & _ & ->). reflexivity. }
        cbn [externalProjects projects set_externalProjects set_projects d]. split.
        -- intros ext' Hsome. injection Hsome as <-. split; [reflexivity|exact Hmarked].
        -- intros p Hin Hp. exists ext. split; [reflexivity|].
           apply in_app_or in Hin. destruct Hin as [Hin|Hin]; [|exact Hin].
           exfalso. exact (internal_not_in _ _ Hscan Hp Hin).
    + assert (Hkeep : externalProjects (fst (analyzeWorkspaceStructure env rootDir d)) = None /\
                      Forall (fun p => isExternal p = false)
                        (projects (fst (analyzeWorkspaceStructure env rootDir d)))).
      { apply (structure_respects_but_vscode
                 (fun a b => externalProjects a = None /\
                             Forall (fun p => isExternal p = false) (projects a) ->
                             externalProjects b = None /\
                             Forall (fun p => isExternal p = false) (projects b))).
        - intros d0 H. exact H.
        - intros a b c Hab Hbc H. exact (Hbc (Hab H)).
        - intros d0 v H. exact H.
        - intros d0 v H. exact H.
        - intros d0 p dirPath s0 Hp _ [H0 H1]. split; [exact H0|].
          cbn [push_project set_projects projects].
          apply Forall_app. split; [exact H1|]. constructor; [|constructor].
          exact (analyze_not_external _ _ _ _ Hp).
        - exact Hnot.
        - split; [reflexivity|exact Hscan]. }
      destruct Hkeep as [H0 H1]. now apply Hplain.
Qed.

(** X5.  Outside the Lerna and the explicit-folder conventions no candidate is
    added after the scan: the candidates of the result are those of the
    scan, in descending order of confidence, or there is none because the
    search for a workspace file threw. *)
Theorem projects_are_the_scan env rootDir :
  workspaceType (detectWorkspace env rootDir) <> Some "Lerna Monorepo" ->
  workspaceType (detectWorkspace env rootDir) <> Some "VS Code Workspace" ->
  descending (projects (detectWorkspace env rootDir)) /\
  (projects (detectWorkspace env rootDir) = scanForProjects env rootDir
   \/ exists e, findWorkspaceIndicators env rootDir = Throw e /\
                 projects (detectWorkspace env rootDir) = []).
Proof.
  intros Hlerna Hvscode.
  assert (Hsorted : descending (scanForProjects env rootDir)).
  { rewrite scan_is_sorted_discovery. apply sort_descending. }
  destruct (detect_cases env rootDir) as [(e & He & Hr)|[(_ & Hr)|(w & _ & Hr)]].
  - rewrite Hr. split; [constructor|]. right. exists e. split; [exact He|reflexivity].
  - rewrite Hr.
    destruct (1 <? List.length (scanForProjects env rootDir))%nat;
      cbn [projects set_implicit set_projects]; split; trivial; now left.
  - set (d := set_projects (scanForProjects env rootDir) (set_found w detection0)) in *.
    pose proof (structure_extends env rootDir d) as (_ & Hw & _).
    rewrite <- Hr in Hw. rewrite Hw in Hlerna, Hvscode.
    assert (Hsame : projects (fst (analyzeWorkspaceStructure env rootDir d)) = projects d).
    { unfold analyzeWorkspaceStructure, ebind, read.
      destruct (workspaceType d) as [t|]; [|reflexivity].
      destruct (String.eqb t "Lerna Monorepo") eqn:E1;
        [apply String.eqb_eq in E1; congruence|].
      destruct (String.eqb t "pnpm Workspace");
        [apply (pnpm_respects (fun a b => projects b = projects a)); auto; congruence|].
      destruct (String.eqb t "Yarn Workspace");
        [apply (yarn_respects (fun a b => projects b = projects a)); auto; congruence|].
      destruct (String.eqb t "Nx Workspace");
        [apply (nx_respects (fun a b => projects b = projects a)); auto; congruence|].
      destruct (String.eqb t "VS Code Workspace") eqn:E5;
        [apply String.eqb_eq in E5; congruence|reflexivity]. }
    rewrite Hr, Hsame. cbn [d projects set_projects]. split; [exact Hsorted|now left].
Qed.

Lemma projects_are_the_scan_witness :
  workspaceType (detectWorkspace (env_of two_projects) "/ws") <> Some "Lerna Monorepo" /\
  workspaceType (detectWorkspace (env_of two_projects) "/ws") <> Some "VS Code Workspace" /\
  descending (projects (detectWorkspace (env_of two_projects) "/ws")) /\
  (projects (detectWorkspace (env_of two_projects) "/ws")
   = scanForProjects (env_of two_projects) "/ws"
   \/ exists e, findWorkspaceIndicators (env_of two_projects) "/ws" = Throw e /\
                 projects (detectWorkspace (env_of two_projects) "/ws") = []).
Proof.
  assert (H1 : workspaceType (detectWorkspace (env_of two_projects) "/ws")
               <> Some "Lerna Monorepo") by (vm_compute; discriminate).
  assert (H2 : workspaceType (detectWorkspace (env_of two_projects) "/ws")
               <> Some "VS Code Workspace") by (vm_compute; discriminate).
  split; [exact H1|]. split; [exact H2|].
  exact (projects_are_the_scan (env_of two_projects) "/ws" H1 H2).
Defined.


Lemma fold_append_some_in {A B : Type} (P : B -> Prop) (f : A -> option B) (l : list A) :
  (forall a b, In a l -> f a = Some b -> P b) ->
  forall init, Forall P init ->
               Forall P (fold_left (fun acc a => append_some acc (f a)) l init).
Proof.
  induction l as [|a l IH]; cbn [fold_left]; intros Hf init Hinit; [exact Hinit|].
  apply IH.
  - intros a' b Ha'. apply Hf. now right.
  - destruct (f a) as [b|] eqn:E; cbn [append_some]; [|exact Hinit].
    apply Forall_app. split; [exact Hinit|]. constructor; [|constructor].
    apply (Hf a b); [now left|exact E].
Qed.

Lemma analyze_place env dirPath dirName p :
  analyzeProjectDirectory env dirPath dirName = Some p ->
  path p = dirName /\ absolutePath p = dirPath.
Proof.
  intros H. apply ScorerProofs.analyze_some in H. destruct H as (acc & H). tauto.
Qed.

(** X6.  The scan reports the root and directories of its listing only: a
    candidate of the scan stands for the root, under the path [.], or for an
    entry of the listing that is a directory, is not one of the ignored
    names and does not begin with a dot, under the name of that entry. *)
Theorem scan_reports_listed_directories env rootDir p :
  In p (scanForProjects env rootDir) ->
  exists items,
    readdir env rootDir = Ok items /\
    ((path p = JStr "." /\ absolutePath p = rootDir) \/
     exists item,
       In item items /\ de_isDirectory item = true /\
       ~ In (de_name item) ignoredDirs /\
       Str.startsWith (de_name item) "." = false /\
       path p = JStr (de_name item) /\
       absolutePath p = path_join env rootDir (de_name item)).
Proof.
  rewrite scan_is_sorted_discovery. intros Hin.
  apply (Permutation_in _ (Permutation_sym (sort_perm _))) in Hin.
  unfold discovery_order in Hin.
  destruct (readdir env rootDir) as [items|e]; [|destruct Hin].
  exists items. split; [reflexivity|]. revert p Hin. apply Forall_forall.
  unfold discovered.
  apply (fold_append_some_in _
           (fun dirName => analyzeProjectDirectory env (path_join env rootDir dirName)
                             (JStr dirName))).
  - intros dirName p Hdir Hp. right.
    apply in_map_iff in Hdir. destruct Hdir as (item & <- & Hitem).
    apply filter_In in Hitem. destruct Hitem as [Hitem Hkeep].
    apply andb_prop in Hkeep. destruct Hkeep as [Hisdir Hkeep].
    apply negb_true_iff in Hkeep. unfold shouldIgnoreDirectory in Hkeep.
    apply orb_false_elim in Hkeep. destruct Hkeep as [Hign Hdot].
    destruct (analyze_place _ _ _ _ Hp) as [Hpath Habs].
    exists item. repeat split; trivial.
    intros Hbad. assert (Ht : existsb (String.eqb (de_name item)) ignoredDirs = true).
    { apply existsb_exists. exists (de_name item). split; [exact Hbad|apply String.eqb_refl]. }
    congruence.
  - destruct (analyzeProjectDirectory env rootDir (JStr ".")) as [p|] eqn:E;
      cbn [append_some app]; [|constructor].
    constructor; [|constructor]. left. exact (analyze_place _ _ _ _ E).
Qed.

Lemma scan_reports_listed_directories_witness :
  In lerna_root_candidate (scanForProjects (env_of lerna_repo) "/ws") /\
  exists items,
    readdir (env_of lerna_repo) "/ws" = Ok items /\
    ((path lerna_root_candidate = JStr "." /\ absolutePath lerna_root_candidate = "/ws") \/
     exists item,
       In item items /\ de_isDirectory item = true /\
       ~ In (de_name item) ignoredDirs /\
       Str.startsWith (de_name item) "." = false /\
       path lerna_root_candidate = JStr (de_name item) /\
       absolutePath lerna_root_candidate = path_join (env_of lerna_repo) "/ws" (de_name item)).
Proof.
  assert (Hscan : scanForProjects (env_of lerna_repo) "/ws" = [lerna_root_candidate])
    by (vm_compute; reflexivity).
  assert (Hin : In lerna_root_candidate (scanForProjects (env_of lerna_repo) "/ws"))
    by (rewrite Hscan; left; reflexivity).
  split; [exact Hin|].
  exact (scan_reports_listed_directories (env_of lerna_repo) "/ws" _ Hin).
Defined.


(** *** The search for a workspace file *)

Lemma find_indicator_first env rootDir entries :
  match find_indicator env rootDir entries with
  | Ok (Some w) =>
      exists pre f post,
        entries = pre ++ (f, wi_type w) :: post /\
        indicator_present env rootDir f = Ok true /\
        (forall e, In e pre -> indicator_present env rootDir (fst e) = Ok false) /\
        wi_config w
        = readWorkspaceConfig env (path_join env rootDir (wi_file w)) (wi_type w) /\
        (if Str.includes f "*"
         then exists rest,
                glob env f {| cwd := rootDir; nodir := false; ignore := [] |}
                = Ok (wi_file w :: rest)
         else wi_file w = f)
  | Ok None =>
      forall e, In e entries -> indicator_present env rootDir (fst e) = Ok false
  | Throw m =>
      exists pre f t post,
        entries = pre ++ (f, t) :: post /\
        indicator_present env rootDir f = Throw m /\
        (forall e, In e pre -> indicator_present env rootDir (fst e) = Ok false)
  end.
Proof.
  induction entries as [|[filename type] rest IH]; cbn [find_indicator].
  - intros e [].
  - assert (Hlater : indicator_present env rootDir filename = Ok false ->
              match find_indicator env rootDir rest with
              | Ok (Some w) =>
                  exists pre f post,
                    (filename, type) :: rest = pre ++ (f, wi_type w) :: post /\
                    indicator_present env rootDir f = Ok true /\
                    (forall e, In e pre -> indicator_present env rootDir (fst e) = Ok false) /\
                    wi_config w
                    = readWorkspaceConfig env (path_join env rootDir (wi_file w)) (wi_type w) /\
                    (if Str.includes f "*"
                     then exists rest,
                            glob env f {| cwd := rootDir; nodir := false; ignore := [] |}
                            = Ok (wi_file w :: rest)
                     else wi_file w = f)
              | Ok None =>
                  forall e, In e ((filename, type) :: rest) ->
                            indicator_present env rootDir (fst e) = Ok false
              | Throw m =>
                  exists pre f t post,
                    (filename, type) :: rest = pre ++ (f, t) :: post /\
                    indicator_present env rootDir f = Throw m /\
                    (forall e, In e pre -> indicator_present env rootDir (fst e) = Ok false)
              end).
    { intros Habsent.
      destruct (find_indicator env rootDir rest) as [[w|]|m].
      - destruct IH as (pre & f & post & -> & Hf & Hpre & Hrest).
        exists ((filename, type) :: pre), f, post. split; [reflexivity|].
        split; [exact Hf|]. split; [|exact Hrest].
        intros e [<-|He]; [exact Habsent|now apply Hpre].
      - intros e [<-|He]; [exact Habsent|now apply IH].
      - destruct IH as (pre & f & t & post & -> & Hf & Hpre).
        exists ((filename, type) :: pre), f, t, post. split; [reflexivity|].
        split; [exact Hf|].
        intros e [<-|He]; [exact Habsent|now apply Hpre]. }
    unfold indicator_present at 1 in Hlater.
    destruct (Str.includes filename "*") eqn:Hglob.
    + destruct (glob env filename _) as [[|m ms]|e] eqn:E; cbn [bind] in *.
      * apply Hlater. reflexivity.
      * exists [], filename, rest. cbn [wi_type wi_file wi_config app].
        split; [reflexivity|]. split.
        { unfold indicator_present. rewrite Hglob, E. reflexivity. }
        split; [intros e []|]. split; [reflexivity|].
        rewrite Hglob. now exists ms.
      * exists [], filename, type, rest. split; [reflexivity|]. split; [|intros e0 []].
        unfold indicator_present. rewrite Hglob, E. reflexivity.
    + destruct (pathExists env (path_join env rootDir filename)) eqn:E.
      * exists [], filename, rest. cbn [wi_type wi_file wi_config app].
        split; [reflexivity|]. split.
        { unfold indicator_present. rewrite Hglob, E. reflexivity. }
        split; [intros e []|]. split; [reflexivity|].
        rewrite Hglob. reflexivity.
      * apply Hlater. reflexivity.
Qed.

(** X8.  The search for a workspace file answers with the first entry of its
    registry that is present under the root, in the order of the registry:
    the type is that of the entry, the file is the plain name or the first
    match of the glob pattern, and every entry before it is absent.  It
    answers that nothing was found when every entry is absent, and it throws
    when the expansion of a glob pattern throws before any entry is found
    present. *)
Theorem first_present_indicator env rootDir :
  match findWorkspaceIndicators env rootDir with
  | Ok (Some w) =>
      exists pre f post,
        workspaceIndicators = pre ++ (f, wi_type w) :: post /\
        indicator_present env rootDir f = Ok true /\
        (forall e, In e pre -> indicator_present env rootDir (fst e) = Ok false) /\
        wi_config w
        = readWorkspaceConfig env (path_join env rootDir (wi_file w)) (wi_type w) /\
        (if Str.includes f "*"
         then exists rest,
                glob env f {| cwd := rootDir; nodir := false; ignore := [] |}
                = Ok (wi_file w :: rest)
         else wi_file w = f)
  | Ok None =>
      forall e, In e workspaceIndicators -> indicator_present env rootDir (fst e) = Ok false
  | Throw m =>
      exists pre f t post,
        workspaceIndicators = pre ++ (f, t) :: post /\
        indicator_present env rootDir f = Throw m /\
        (forall e, In e pre -> indicator_present env rootDir (fst e) = Ok false)
  end.
Proof. exact (find_indicator_first env rootDir workspaceIndicators). Qed.

Lemma literal_present env rootDir f :
  Str.includes f "*" = false ->
  pathExists env (path_join env rootDir f) = true ->
  indicator_present env rootDir f = Ok true.
Proof. intros Hlit Hex. unfold indicator_present. now rewrite Hlit, Hex. Qed.

Lemma thrown_by_glob env rootDir f m :
  indicator_present env rootDir f = Throw m ->
  Str.includes f "*" = true /\
  glob env f {| cwd := rootDir; nodir := false; ignore := [] |} = Throw m.
Proof.
  unfold indicator_present. destruct (Str.includes f "*"); [|discriminate].
  destruct (glob env f _) as [ms|e]; cbn [bind]; [discriminate|].
  intros H. injection H as ->. now split.
Qed.

(** A plain name of the registry stands before its last entry, and the only
    glob pattern before a plain name is the first one. *)
Lemma glob_before_literal pre g t post f t' :
  workspaceIndicators = pre ++ (g, t) :: post ->
  Str.includes g "*" = true ->
  In (f, t') workspaceIndicators ->
  Str.includes f "*" = false ->
  g = "*.code-workspace" \/ In (f, t') pre.
Proof.
  intros Hreg Hg Hin Hf. unfold workspaceIndicators in Hreg, Hin.
  do 15 (destruct pre as [|? pre];
         [ cbn [app] in Hreg; injection Hreg as Hkey Hty Hreg; subst g;
           first [ discriminate Hg | now left
                 | right; cbn [In] in *;
                   repeat (destruct Hin as [Hin|Hin];
                           [first [ now left
                                  | injection Hin as Hk _; subst f; discriminate Hf
                                  | tauto ]|]);
                   try contradiction; tauto ]
         | cbn [app] in Hreg; injection Hreg as Hhead Hreg; subst ]).
  destruct pre; discriminate Hreg.
Qed.

(** X9.  A root that holds a file with one of the plain names of the registry
    of workspace indicators is classified as a workspace, whatever the file
    says, provided that the expansion of the pattern of VS Code workspace
    files does not throw: a [Cargo.toml], a [pom.xml] or a [yarn.lock] at
    the root is enough. *)
Theorem literal_indicator_makes_workspace env rootDir f t :
  In (f, t) workspaceIndicators ->
  Str.includes f "*" = false ->
  pathExists env (path_join env rootDir f) = true ->
  (forall m, glob env "*.code-workspace" {| cwd := rootDir; nodir := false; ignore := [] |}
             <> Throw m) ->
  isWorkspace (detectWorkspace env rootDir) = true /\
  structure (detectWorkspace env rootDir) = Workspace /\
  exists t', workspaceType (detectWorkspace env rootDir) = Some t' /\
             In t' (map snd workspaceIndicators).
Proof.
  intros Hin Hlit Hex Hglob.
  pose proof (literal_present env rootDir f Hlit Hex) as Hpresent.
  pose proof (first_indicator_helper := find_indicator_first env rootDir workspaceIndicators).
  fold (findWorkspaceIndicators env rootDir) in first_indicator_helper.
  destruct (detect_cases env rootDir) as [(e & He & _)|[(He & _)|(w & He & ->)]].
  - exfalso. rewrite He in first_indicator_helper.
    destruct first_indicator_helper as (pre & g & t0 & post & Hreg & Hthrow & Hpre).
    apply thrown_by_glob in Hthrow. destruct Hthrow as [Hg Hthrow].
    destruct (glob_before_literal pre g t0 post f t Hreg Hg Hin Hlit) as [->|Hbefore].
    + exact (Hglob e Hthrow).
    + specialize (Hpre _ Hbefore). cbn [fst] in Hpre. congruence.
  - exfalso. rewrite He in first_indicator_helper.
    specialize (first_indicator_helper _ Hin). cbn [fst] in first_indicator_helper.
    congruence.
  - destruct (structure_extends env rootDir
                (set_projects (scanForProjects env rootDir) (set_found w detection0)))
      as (Hw & Ht & Hs & _).
    rewrite Hw, Ht, Hs. cbn [isWorkspace structure workspaceType set_projects set_found].
    repeat split. exists (wi_type w). split; [reflexivity|].
    exact (find_indicator_type env rootDir _ w He).
Qed.

Lemma literal_indicator_makes_workspace_witness :
  let env := env_of rust_crate in
  In ("Cargo.toml", "Cargo Workspace") workspaceIndicators /\
  Str.includes "Cargo.toml" "*" = false /\
  pathExists env (path_join env "/crate" "Cargo.toml") = true /\
  (forall m, glob env "*.code-workspace" {| cwd := "/crate"; nodir := false; ignore := [] |}
             <> Throw m) /\
  isWorkspace (detectWorkspace env "/crate") = true /\
  structure (detectWorkspace env "/crate") = Workspace /\
  exists t', workspaceType (detectWorkspace env "/crate") = Some t' /\
             In t' (map snd workspaceIndicators).
Proof.
  intros env.
  assert (H1 : In ("Cargo.toml", "Cargo Workspace") workspaceIndicators)
    by (unfold workspaceIndicators; cbn [In]; tauto).
  assert (H2 : forall m, glob env "*.code-workspace"
                           {| cwd := "/crate"; nodir := false; ignore := [] |} <> Throw m)
    by (intros m; vm_compute; discriminate).
  split; [exact H1|]. split; [reflexivity|]. split; [reflexivity|]. split; [exact H2|].
  exact (literal_indicator_makes_workspace env "/crate" "Cargo.toml"
           "Cargo Workspace" H1 eq_refl eq_refl H2).
Defined.


End DetectionExtras.

(** ** The conditions of a candidate *)

Module ScorerExtras.

Import WorkspaceDetector Fixture Examples ScorerProofs RepositoryExamples.

Lemma score_loop_returns env dirPath entries : forall acc,
  (forall f i m, In (f, i) entries -> probe env dirPath f <> Throw m) ->
  exists acc', score_loop env dirPath entries acc = Ok acc'.
Proof.
  induction entries as [|[f i] rest IH]; intros acc Hok; cbn [score_loop].
  - now exists acc.
  - unfold score_step.
    destruct (probe env dirPath f) as [b|m] eqn:E; cbn [bind].
    + apply IH. intros f' i' m' Hin. apply (Hok f' i' m'). now right.
    + exfalso. apply (Hok f i m); [now left|exact E].
Qed.

Lemma filter_nonempty {A : Type} (keep : A -> bool) (l : list A) :
  filter keep l <> [] <-> exists a, In a l /\ keep a = true.
Proof.
  split.
  - intros H. destruct (filter keep l) as [|a t] eqn:E; [contradiction|].
    exists a. apply filter_In. rewrite E. now left.
  - intros (a & Ha) Hnil. apply filter_In in Ha. rewrite Hnil in Ha. destruct Ha.
Qed.

(** The run of the scorer, step by step. *)
Lemma analyze_run env dirPath dirName acc stats :
  score_loop env dirPath projectIndicators scoring0 = Ok acc ->
  totalWeight acc <> 0%Z ->
  stat env dirPath = Ok stats ->
  exists p, analyzeProjectDirectory env dirPath dirName = Some p /\
            fileCount p = countFiles env dirPath /\
            size p = st_size stats /\ modified p = st_mtime stats.
Proof.
  intros Hloop Hnz Hstat. unfold analyzeProjectDirectory.
  rewrite Hloop. cbn [bind try_catch].
  apply Z.eqb_neq in Hnz. rewrite Hnz, Hstat. cbn [bind try_catch].
  eexists. split; [reflexivity|]. repeat split.
Qed.

Lemma analyze_stat env dirPath dirName p :
  analyzeProjectDirectory env dirPath dirName = Some p ->
  exists stats, stat env dirPath = Ok stats /\
                fileCount p = countFiles env dirPath /\
                size p = st_size stats /\ modified p = st_mtime stats.
Proof.
  unfold analyzeProjectDirectory.
  destruct (score_loop env dirPath projectIndicators scoring0) as [acc|m];
    cbn [bind try_catch]; [|discriminate].
  destruct (totalWeight acc =? 0)%Z eqn:E; cbn [bind try_catch]; [discriminate|].
  destruct (stat env dirPath) as [stats|m]; cbn [bind try_catch]; [|discriminate].
  intros H. injection H as H. subst p. exists stats. repeat split.
Qed.

(** X7.  A directory is a candidate exactly when no probe of an indicator
    fails, at least one indicator is matched and the directory can be
    inspected with [stat].  The listing of its files is not among the
    conditions: where that listing fails the candidate is there with a file
    count of zero. *)
Theorem candidate_conditions env dirPath dirName :
  ((exists p, analyzeProjectDirectory env dirPath dirName = Some p) <->
   (forall f i m, In (f, i) projectIndicators -> probe env dirPath f <> Throw m) /\
   (exists e, In e projectIndicators /\ is_matched env dirPath e = true) /\
   (exists stats, stat env dirPath = Ok stats)) /\
  (forall p e,
     analyzeProjectDirectory env dirPath dirName = Some p ->
     glob env "**/*"
       {| cwd := dirPath; nodir := true;
          ignore := ["node_modules/**"; ".git/**"; "target/**"; "dist/**"; "build/**"] |}
     = Throw e ->
     fileCount p = 0%nat).
Proof.
  split; [split|].
  - intros [p Hp].
    pose proof (analyze_total_weight _ _ _ _ Hp) as [_ Hne].
    destruct (analyze_stat _ _ _ _ Hp) as (stats & Hstat & _).
    apply analyze_some in Hp. destruct Hp as (acc & Hloop & _).
    split; [|split].
    + intros f i m Hin Hthrow.
      destruct (score_loop_throw env dirPath projectIndicators scoring0 f i m Hin Hthrow)
        as [m' Hm']. congruence.
    + apply filter_nonempty. exact Hne.
    + now exists stats.
  - intros (Hok & Hmatched & stats & Hstat).
    destruct (score_loop_returns env dirPath projectIndicators scoring0 Hok) as [acc Hloop].
    pose proof (score_loop_total _ _ _ _ _ Hloop) as Htot.
    change (totalWeight scoring0) with 0%Z in Htot. rewrite Z.add_0_l in Htot.
    apply filter_nonempty in Hmatched.
    assert (Hw : (5 <= totalWeight acc)%Z).
    { rewrite Htot.
      destruct (sum_weights_lower (filter (is_matched env dirPath) projectIndicators))
        as [Hnil|Hle]; [|contradiction|exact Hle].
      apply incl_Forall with (l1 := projectIndicators); [|exact weights_at_least_5].
      intros e He. apply filter_In in He. tauto. }
    destruct (analyze_run env dirPath dirName acc stats Hloop) as (p & Hp & _);
      [lia|exact Hstat|].
    now exists p.
  - intros p e Hp Hglob.
    destruct (analyze_stat _ _ _ _ Hp) as (stats & _ & Hcount & _).
    rewrite Hcount. unfold countFiles. rewrite Hglob. reflexivity.
Qed.

(** A directory whose files cannot be listed is a candidate all the same. *)
Example listing_failure_keeps_candidate :
  glob (env_of node_listing_failure) "**/*"
    {| cwd := "/app"; nodir := true;
       ignore := ["node_modules/**"; ".git/**"; "target/**"; "dist/**"; "build/**"] |}
  = Throw "EACCES: permission denied" /\
  option_map fileCount
    (analyzeProjectDirectory (env_of node_listing_failure) "/app" (JStr ".")) = Some 0%nat /\
  option_map fileCount
    (analyzeProjectDirectory (env_of node_only) "/app" (JStr ".")) = Some 1%nat.
Proof. repeat split; vm_compute; reflexivity. Qed.


End ScorerExtras.

(** ** A probe that fails *)

Module LibraryProofs.

Import WorkspaceDetector Libraries Fixture Examples ScorerProofs ScorerExtras.

Lemma registry_one_segment :
  Forall (fun e => Str.includes (fst e) "/" = false) projectIndicators.
Proof. repeat constructor. Qed.

Section Probes.

Variable fs : FileSystem.
Variable minimatch : string -> string -> bool.
Variable env : Env.

Local Abbreviation real := (with_libraries fs minimatch env).

(** Over the two libraries no probe of the registry throws. *)
Lemma probe_answers dirPath f i :
  In (f, i) projectIndicators -> exists b, probe real dirPath f = Ok b.
Proof.
  intros Hin. unfold probe.
  destruct (Str.includes f "*").
  - cbn [glob with_libraries]. unfold glob_over.
    pose proof registry_one_segment as Hseg. rewrite Forall_forall in Hseg.
    specialize (Hseg _ Hin). cbn [fst] in Hseg. rewrite Hseg. cbn [cwd bind].
    destruct (match scandir fs dirPath with
              | Ok names => filter (minimatch f) names
              | Throw _ => []
              end); eauto.
  - eauto.
Qed.

Lemma failed_probe_answers_false dirPath f i :
  In (f, i) projectIndicators ->
  probe_fails fs minimatch env dirPath f ->
  probe real dirPath f = Ok false.
Proof.
  intros Hin Hfail. unfold probe, probe_fails in *.
  destruct (Str.includes f "*").
  - cbn [glob with_libraries]. unfold glob_over.
    pose proof registry_one_segment as Hseg. rewrite Forall_forall in Hseg.
    specialize (Hseg _ Hin). cbn [fst] in Hseg. rewrite Hseg. cbn [cwd bind].
    destruct (scandir fs dirPath) as [names|e]; [|reflexivity].
    destruct (filter (minimatch f) names) as [|m rest]; [reflexivity|].
    destruct Hfail as [e He].
    cbn [pathExists path_join with_libraries]. unfold pathExists_over.
    rewrite He. now rewrite andb_false_r.
  - destruct Hfail as [e He].
    cbn [pathExists path_join with_libraries]. unfold pathExists_over.
    rewrite He. now rewrite andb_false_r.
Qed.

Lemma scoring_completes dirPath :
  exists acc,
    score_loop real dirPath projectIndicators scoring0 = Ok acc /\
    sc_indicators acc = map fst (filter (is_matched real dirPath) projectIndicators) /\
    totalWeight acc = sum_weights (filter (is_matched real dirPath) projectIndicators).
Proof.
  destruct (score_loop_returns real dirPath projectIndicators scoring0) as [acc Hloop].
  { intros f i m Hin Hthrow. destruct (probe_answers dirPath f i Hin) as [b Hb].
    congruence. }
  exists acc. split; [exact Hloop|]. split.
  - rewrite (score_loop_indicators real dirPath projectIndicators scoring0 acc
               registry_keys_distinct (fun k (H : In k []) => match H with end) Hloop).
    reflexivity.
  - apply score_loop_total in Hloop. rewrite Hloop. reflexivity.
Qed.

Lemma candidate_of_matched dirPath dirName :
  ((exists p, analyzeProjectDirectory real dirPath dirName = Some p) <->
   (exists e, In e projectIndicators /\ is_matched real dirPath e = true) /\
   (exists stats, stat env dirPath = Ok stats)) /\
  (forall p,
     analyzeProjectDirectory real dirPath dirName = Some p ->
     indicators p = map fst (filter (is_matched real dirPath) projectIndicators) /\
     confidence p
     = confidence_of (sum_weights (filter (is_matched real dirPath) projectIndicators))).
Proof.
  destruct (scoring_completes dirPath) as (acc & Hloop & Hind & Htot).
  split; [split|].
  - intros [p Hp].
    pose proof (analyze_total_weight _ _ _ _ Hp) as [_ Hne].
    destruct (analyze_stat _ _ _ _ Hp) as (stats & Hstat & _).
    split; [now apply filter_nonempty|now exists stats].
  - intros (Hmatched & stats & Hstat).
    apply filter_nonempty in Hmatched.
    assert (Hw : (5 <= totalWeight acc)%Z).
    { rewrite Htot.
      destruct (sum_weights_lower (filter (is_matched real dirPath) projectIndicators))
        as [Hnil|Hle]; [|contradiction|exact Hle].
      apply incl_Forall with (l1 := projectIndicators); [|exact weights_at_least_5].
      intros e He. apply filter_In in He. tauto. }
    destruct (analyze_run real dirPath dirName acc stats Hloop) as (p & Hp & _);
      [lia|exact Hstat|].
    now exists p.
  - intros p Hp. pose proof (analyze_total_weight _ _ _ _ Hp) as [Hc _].
    split; [|exact Hc].
    apply analyze_some in Hp. destruct Hp as (acc' & Hloop' & _ & _ & _ & Hi & _).
    rewrite Hloop in Hloop'. injection Hloop' as <-. now rewrite Hi.
Qed.

End Probes.

(** C3.  A failure of the file system while one indicator is probed reaches
    the scorer as the answer of a pattern that does not match: fs-extra
    answers [false] and glob no entry.  The loop goes on over the remaining
    indicators, and the candidate is made of the indicators that matched;
    the directory is scored as [null] only when no indicator matched or the
    directory itself cannot be inspected. *)
Theorem probe_failure_is_a_non_match fs minimatch env dirPath dirName f i :
  In (f, i) projectIndicators ->
  probe_fails fs minimatch env dirPath f ->
  let real := with_libraries fs minimatch env in
  probe real dirPath f = Ok false /\
  is_matched real dirPath (f, i) = false /\
  (exists acc,
     score_loop real dirPath projectIndicators scoring0 = Ok acc /\
     sc_indicators acc = map fst (filter (is_matched real dirPath) projectIndicators) /\
     totalWeight acc = sum_weights (filter (is_matched real dirPath) projectIndicators)) /\
  ((exists p, analyzeProjectDirectory real dirPath dirName = Some p) <->
   (exists e, In e projectIndicators /\ is_matched real dirPath e = true) /\
   (exists stats, stat env dirPath = Ok stats)) /\
  (forall p,
     analyzeProjectDirectory real dirPath dirName = Some p ->
     indicators p = map fst (filter (is_matched real dirPath) projectIndicators) /\
     confidence p
     = confidence_of (sum_weights (filter (is_matched real dirPath) projectIndicators))).
Proof.
  intros Hin Hfail real.
  pose proof (failed_probe_answers_false fs minimatch env dirPath f i Hin Hfail) as Hp.
  split; [exact Hp|]. split.
  - unfold is_matched. cbn [fst]. subst real. now rewrite Hp.
  - split; [apply scoring_completes|apply candidate_of_matched].
Qed.

Lemma probe_failure_is_a_non_match_witness :
  In ("*.csproj", {| ind_type := "dotnet"; weight := 10 |}) projectIndicators /\
  scandir (fs_of node_only ["/app"]) "/app" = Throw "EACCES: permission denied" /\
  probe_fails (fs_of node_only ["/app"]) matches (env_of node_only) "/app" "*.csproj" /\
  probe unlisted_node_only "/app" "*.csproj" = Ok false /\
  analyzeProjectDirectory unlisted_node_only "/app" (JStr ".") = Some node_only_candidate.
Proof.
  assert (Hin : In ("*.csproj", {| ind_type := "dotnet"; weight := 10 |}) projectIndicators).
  { unfold projectIndicators. simpl. tauto. }
  assert (Hfail : probe_fails (fs_of node_only ["/app"]) matches (env_of node_only)
                    "/app" "*.csproj") by exact I.
  split; [exact Hin|]. split; [reflexivity|]. split; [exact Hfail|].
  split; [|reflexivity].
  exact (proj1 (probe_failure_is_a_non_match (fs_of node_only ["/app"]) matches
                  (env_of node_only) "/app" (JStr ".") _ _ Hin Hfail)).
Defined.

End LibraryProofs.

(** ** Names read from manifests *)

Module NameExtras.

Import Regex WorkspaceDetector Fixture Examples StrFacts RegexFacts PatternFacts Vocabulary.

Lemma split_on_cons c s : exists h t, Str.split_on c s = h :: t.
Proof.
  induction s as [|a s (h & t & IH)]; cbn [Str.split_on]; [now eexists _, _|].
  destruct (Ascii.eqb a c); [now eexists _, _|]. rewrite IH. now eexists _, _.
Qed.

Lemma split_on_plain c s :
  Str.all (fun x => negb (Ascii.eqb x c)) s = true -> Str.split_on c s = [s].
Proof.
  induction s as [|a s IH]; intros Hall; [reflexivity|].
  apply all_head in Hall. destruct Hall as [Ha Hs].
  cbn [Str.split_on]. apply negb_true_iff in Ha. rewrite Ha, (IH Hs). reflexivity.
Qed.

Lemma split_on_append c d leaf :
  Str.split_on c (d +++ String c leaf) = Str.split_on c d ++ Str.split_on c leaf.
Proof.
  induction d as [|a d IH]; cbn [append Str.split_on].
  - now rewrite Ascii.eqb_refl.
  - rewrite IH. destruct (Ascii.eqb a c); [reflexivity|].
    destruct (split_on_cons c d) as (h & t & ->). reflexivity.
Qed.

Lemma last_after {A : Type} (l1 l2 : list A) d :
  l2 <> [] -> List.last (l1 ++ l2) d = List.last l2 d.
Proof.
  intros Hne. induction l1 as [|x l1 IH]; [reflexivity|].
  cbn [app]. destruct (l1 ++ l2) eqn:E; [|exact IH].
  destruct l1; [cbn [app] in E; contradiction|discriminate].
Qed.

Lemma pop_split_after c d leaf :
  pop (Str.split_on c (d +++ String c leaf)) = pop (Str.split_on c leaf).
Proof.
  unfold pop. rewrite split_on_append, map_app. apply last_after.
  destruct (split_on_cons c leaf) as (h & t & ->). discriminate.
Qed.

Lemma module_match total modulePath ending :
  modulePath <> EmptyString -> Str.all word_char modulePath = true ->
  (forall a r, ending = String a r -> word_char a = false) ->
  rmatch total modulePattern ("module " +++ modulePath +++ ending) [] finish
  = Some ([None; Some modulePath], ending).
Proof.
  intros Hne Hall Hend.
  change modulePattern
    with (Seq (lit "module") (Seq (plus (Chr Str.is_space)) (Group 1 (plus (Chr word_char))))).
  change ("module " +++ modulePath +++ ending)
    with ("module" +++ String " " (modulePath +++ ending)).
  rewrite rmatch_seq, rmatch_lit_append, rmatch_seq.
  rewrite rmatch_plus_class by reflexivity.
  change (modulePath +++ ending) with (EmptyString +++ (modulePath +++ ending)).
  assert (Hgroup : rmatch total (Group 1 (plus (Chr word_char)))
                     (modulePath +++ ending) [] finish
                   = Some ([None; Some modulePath], ending)).
  { apply group_plus_greedy_last; [exact Hne|exact Hall|reflexivity|].
    intros u v Huv Hu Hclass. exfalso.
    destruct u as [|b u]; [contradiction|]. cbn [append] in Huv.
    apply all_head in Hclass. destruct Hclass as [Hb _].
    rewrite (Hend _ _ Huv) in Hb. discriminate Hb. }
  apply class_star_greedy_last; [reflexivity|exact Hgroup|].
  intros u v Huv Hu Hspace. exfalso.
  destruct modulePath as [|a m]; [contradiction|].
  destruct u as [|b u]; [contradiction|]. cbn [append] in Huv.
  injection Huv as Hb _. subst b.
  apply all_head in Hall, Hspace. destruct Hall as [Ha _], Hspace as [Hb _].
  unfold word_char in Ha. rewrite Hb in Ha. discriminate Ha.
Qed.

Lemma module_exec modulePath ending :
  modulePath <> EmptyString -> Str.all word_char modulePath = true ->
  (forall a r, ending = String a r -> word_char a = false) ->
  exec modulePattern ("module " +++ modulePath +++ ending)
  = Some {| before := EmptyString; groups := [None; Some modulePath]; after := ending |}.
Proof.
  intros Hne Hall Hend. unfold exec. set (total := String.length _).
  change ("module " +++ modulePath +++ ending)
    with (String "m" ("odule " +++ modulePath +++ ending)).
  cbn [exec_from].
  change (String "m" ("odule " +++ modulePath +++ ending))
    with ("module " +++ modulePath +++ ending).
  rewrite (module_match total modulePath ending Hne Hall Hend). reflexivity.
Qed.

(** X10.  The name of a Go project is the last segment of the module path
    that the first line of its [go.mod] declares: the path itself when it
    has no slash. *)
Theorem go_module_name env dirPath modulePath leaf ending :
  pathExists env (path_join env dirPath "go.mod") = true ->
  readFile env (path_join env dirPath "go.mod")
  = Ok ("module " +++ modulePath +++ ending) ->
  (forall a r, ending = String a r -> word_char a = false) ->
  Str.all word_char modulePath = true ->
  modulePath = leaf \/ (exists parent, modulePath = parent +++ "/" +++ leaf) ->
  leaf <> EmptyString -> Str.all no_slash leaf = true ->
  extractProjectName env dirPath "go" = Some (JStr leaf).
Proof.
  intros Hex Hread Hend Hword Hpath Hne Hslash.
  unfold extractProjectName.
  change (String.eqb "go" "nodejs") with false.
  change (String.eqb "go" "typescript") with false.
  change (String.eqb "go" "nextjs") with false.
  change (String.eqb "go" "vue") with false.
  change (String.eqb "go" "nuxtjs") with false.
  change (String.eqb "go" "svelte") with false.
  change (String.eqb "go" "rust") with false.
  change (String.eqb "go" "python") with false.
  change (String.eqb "go" "go") with true.
  cbn [orb]. cbv iota.
  unfold name_by_pattern. rewrite Hex, Hread. cbn [bind].
  rewrite module_exec; trivial.
  - cbn [groups get_cap nth_error try_catch].
    destruct Hpath as [->|[parent ->]].
    + rewrite split_on_plain by exact Hslash. reflexivity.
    + change (parent +++ "/" +++ leaf) with (parent +++ String "/" leaf).
      rewrite pop_split_after, split_on_plain by exact Hslash. reflexivity.
  - destruct Hpath as [->|[parent ->]]; [exact Hne|]. destruct parent; discriminate.
Qed.

Lemma go_module_name_witness :
  let env := env_of two_projects in
  pathExists env (path_join env "/ws/svc" "go.mod") = true /\
  readFile env (path_join env "/ws/svc" "go.mod")
  = Ok ("module " +++ "example.com/svc" +++ EmptyString) /\
  extractProjectName env "/ws/svc" "go" = Some (JStr "svc").
Proof.
  intros env. split; [reflexivity|]. split; [reflexivity|].
  apply (go_module_name env "/ws/svc" "example.com/svc" "svc" EmptyString);
    try reflexivity.
  - intros a r H. discriminate H.
  - right. now exists "example.com".
  - discriminate.
Defined.

End NameExtras.

(** ** Addresses *)

Module AddressExtras.

Import Str Regex RepositoryManager RepositoryRemotes RepositoryCommands CodecExamples.
Import StrFacts RegexFacts PatternFacts TemplateFacts Vocabulary RepositoryExamples.

Lemma prefix_longer p : forall s t, String.prefix p s = true -> String.prefix p (s +++ t) = true.
Proof.
  induction p as [|x p IH]; intros s t H; [now destruct (s +++ t)|].
  destruct s as [|y s]; [discriminate|]. cbn [append String.prefix] in *.
  destruct (ascii_dec x y); [now apply IH|discriminate].
Qed.

Lemma includes_longer pat s t : Str.includes s pat = true -> Str.includes (s +++ t) pat = true.
Proof.
  unfold Str.includes. induction s as [|a s IH]; intros H.
  - cbn [Str.split_at_first] in H.
    destruct (String.prefix pat EmptyString) eqn:E; [|discriminate].
    cbn [append]. destruct pat; [|discriminate].
    destruct t; reflexivity.
  - cbn [append Str.split_at_first] in *.
    destruct (String.prefix pat (String a s)) eqn:E.
    + change (String a (s +++ t)) with (String a s +++ t).
      now rewrite (prefix_longer _ _ t E).
    + destruct (String.prefix pat (String a (s +++ t))); [reflexivity|].
      destruct (Str.split_at_first pat s) as [[b r]|]; [|discriminate].
      specialize (IH eq_refl).
      destruct (Str.split_at_first pat (s +++ t)) as [[b' r']|]; [reflexivity|discriminate].
Qed.

(** A replacement of a placeholder leaves what stands before the first
    brace. *)
Lemma split_after_plain pat pre rest :
  Str.all no_brace pre = true ->
  Str.split_at_first (String "{" pat) (pre +++ rest)
  = match Str.split_at_first (String "{" pat) rest with
    | Some (b, r) => Some (pre +++ b, r)
    | None => None
    end.
Proof.
  induction pre as [|a pre IH]; intros Hall.
  - cbn [append]. now destruct (Str.split_at_first (String "{" pat) rest) as [[b r]|].
  - apply all_head in Hall. destruct Hall as [Ha Hpre].
    cbn [append Str.split_at_first]. rewrite prefix_head_differs.
    + rewrite (IH Hpre).
      now destruct (Str.split_at_first (String "{" pat) rest) as [[b r]|].
    + intros Heq. rewrite <- Heq in Ha. discriminate.
Qed.

Lemma replace_keeps_plain pat pre rest rep :
  Str.all no_brace pre = true ->
  exists t, Str.replace (pre +++ rest) (String "{" pat) rep = pre +++ t.
Proof.
  intros Hall. unfold Str.replace. rewrite (split_after_plain pat pre rest Hall).
  destruct (Str.split_at_first (String "{" pat) rest) as [[b r]|].
  - exists (b +++ Str.getSubstitution (String "{" pat) (pre +++ b) r rep +++ r).
    now rewrite append_assoc.
  - now exists rest.
Qed.

Lemma github_config_found : lookup "github" repositoryTypes = Some github_config.
Proof. reflexivity. Qed.

(** X11.  Every address that the generator writes for GitHub, over HTTPS or
    over SSH and whatever the details hold, is recognised as a GitHub
    address. *)
Theorem github_address_detected d :
  exists url,
    generateRepositoryUrl "github" d = Ok (Some url) /\
    detectRepositoryType url = "github".
Proof.
  unfold generateRepositoryUrl. rewrite github_config_found.
  change (String.eqb "github" "custom") with false.
  change (String.eqb "github" "azure") with false. cbv iota.
  set (host := effectiveHost github_config d).
  assert (Hurl : forall pre rest,
            Str.all no_brace pre = true -> Str.includes pre "github.com" = true ->
            exists url,
              Str.replace
                (Str.replace (Str.replace (pre +++ rest) "{host}" host)
                   "{owner}" (toString (d_owner d)))
                "{repo}" (toString (d_repo d)) = url /\
              detectRepositoryType url = "github").
  { intros pre rest Hpre Hinc.
    destruct (replace_keeps_plain "host}" pre rest host Hpre) as [t1 ->].
    destruct (replace_keeps_plain "owner}" pre t1 (toString (d_owner d)) Hpre) as [t2 ->].
    destruct (replace_keeps_plain "repo}" pre t2 (toString (d_repo d)) Hpre) as [t3 ->].
    exists (pre +++ t3). split; [reflexivity|].
    unfold detectRepositoryType. now rewrite (includes_longer _ _ t3 Hinc). }
  destruct (String.eqb (toString (or_else (d_protocol d) (Some "https"))) "ssh").
  - cbn [sshFormat github_config].
    destruct (Hurl "git@github.com:" "{owner}/{repo}.git" eq_refl eq_refl) as (url & Hu & Hd).
    exists url. split; [|exact Hd]. cbn [append] in Hu. now rewrite Hu.
  - cbn [httpsFormat github_config].
    destruct (Hurl "https://github.com/" "{owner}/{repo}.git" eq_refl eq_refl)
      as (url & Hu & Hd).
    exists url. split; [|exact Hd]. cbn [append] in Hu. now rewrite Hu.
Qed.

(** The three templates of a provider with a two-segment path, filled. *)
Lemma fill_two pre sfx owner repo :
  Str.all no_brace pre = true -> verbatim owner -> Str.all no_dollar repo = true ->
  Str.replace (Str.replace (pre +++ "{owner}" +++ "/{repo}" +++ sfx) "{owner}" owner)
    "{repo}" repo
  = pre +++ owner +++ "/" +++ repo +++ sfx.
Proof.
  intros Hpre [Ho1 Ho2] Hr.
  rewrite (replace_placeholder "owner}" pre _ owner Hpre Ho1).
  replace (pre +++ owner +++ "/{repo}" +++ sfx)
    with ((pre +++ owner +++ "/") +++ "{repo}" +++ sfx)
    by (now rewrite !append_assoc).
  rewrite (replace_placeholder "repo}" _ _ repo); trivial;
    [|now rewrite !all_append, Hpre, Ho2].
  now rewrite !append_assoc.
Qed.

Lemma fill_three scheme sep sfx host owner repo :
  Str.all no_brace scheme = true -> Str.all no_brace sep = true ->
  verbatim host -> verbatim owner -> Str.all no_dollar repo = true ->
  Str.replace
    (Str.replace
       (Str.replace (scheme +++ "{host}" +++ sep +++ "{owner}" +++ "/{repo}" +++ sfx)
          "{host}" host)
       "{owner}" owner)
    "{repo}" repo
  = scheme +++ host +++ sep +++ owner +++ "/" +++ repo +++ sfx.
Proof.
  intros Hscheme Hsep [Hh1 Hh2] Ho Hr.
  rewrite (replace_placeholder "host}" scheme _ host Hscheme Hh1).
  replace (scheme +++ host +++ sep +++ "{owner}" +++ "/{repo}" +++ sfx)
    with ((scheme +++ host +++ sep) +++ "{owner}" +++ "/{repo}" +++ sfx)
    by (now rewrite !append_assoc).
  rewrite fill_two; trivial; [now rewrite !append_assoc|].
  now rewrite !all_append, Hscheme, Hh2, Hsep.
Qed.

Lemma protocol_ssh d :
  String.eqb (toString (or_else (d_protocol d) (Some "https"))) "ssh" = true
  <-> d_protocol d = Some "ssh".
Proof.
  unfold or_else, truthy. destruct (d_protocol d) as [[|a p]|]; cbn [negb Str.is_empty toString].
  - split; discriminate.
  - rewrite String.eqb_eq. split; congruence.
  - split; discriminate.
Qed.

(** X12.  The three addresses of a repository of a provider with a
    two-segment path hold the same host, owner and repository: the HTTPS
    address for cloning is the address of the web page followed by [.git],
    and the SSH address names the same three parts.  The host and the owner
    hold no dollar sign and no opening brace, the repository no dollar
    sign. *)
Theorem three_addresses type config d owner repo :
  two_segment type = true ->
  lookup type repositoryTypes = Some config ->
  d_owner d = Some owner -> d_repo d = Some repo ->
  verbatim (effectiveHost config d) -> verbatim owner ->
  Str.all no_dollar repo = true ->
  let web :=
    "https://" +++ returned_host type config d +++ "/" +++ owner +++ "/" +++ repo in
  generateWebUrl type d = Ok (Some web) /\
  (d_protocol d <> Some "ssh" -> generateRepositoryUrl type d = Ok (Some (web +++ ".git"))) /\
  (d_protocol d = Some "ssh" ->
   generateRepositoryUrl type d
   = Ok (Some ("git@" +++ returned_host type config d +++ ":" +++ owner +++ "/"
               +++ repo +++ ".git"))).
Proof.
  intros Hty Hconfig Hdo Hdr Hh Ho Hr web. subst web.
  unfold generateWebUrl, member_of, generateRepositoryUrl, returned_host.
  rewrite Hconfig, Hdo, Hdr. cbn [toString].
  pose proof (protocol_ssh d) as Hssh.
  set (host := effectiveHost config d) in *.
  destruct (String.eqb (toString (or_else (d_protocol d) (Some "https"))) "ssh") eqn:Hp.
  - assert (Hproto : d_protocol d = Some "ssh") by (now apply Hssh).
    destruct (two_segment_cases type Hty) as [ -> | [ -> | [ -> | -> ] ] ];
      cbn in Hconfig; injection Hconfig as Hc; subst config;
      change (String.eqb _ "custom") with false;
      change (String.eqb _ "azure") with false;
      change (String.eqb _ "github") with false || change (String.eqb _ "github") with true;
      cbv iota; cbn [sshFormat httpsFormat webFormat truthy negb Str.is_empty toString].
    + change (Str.replace "https://github.com/{owner}/{repo}" "{host}" host)
        with ("https://github.com/" +++ "{owner}" +++ "/{repo}" +++ EmptyString).
      change (Str.replace "git@github.com:{owner}/{repo}.git" "{host}" host)
        with ("git@github.com:" +++ "{owner}" +++ "/{repo}" +++ ".git").
      rewrite !fill_two by (trivial; reflexivity). rewrite append_nil_r.
      split; [reflexivity|]. split; [congruence|reflexivity].
    + change "https://{host}/{owner}/{repo}"
        with ("https://" +++ "{host}" +++ "/" +++ "{owner}" +++ "/{repo}" +++ EmptyString).
      change "git@{host}:{owner}/{repo}.git"
        with ("git@" +++ "{host}" +++ ":" +++ "{owner}" +++ "/{repo}" +++ ".git").
      rewrite !fill_three by (trivial; reflexivity). rewrite append_nil_r.
      split; [reflexivity|]. split; [congruence|reflexivity].
    + change "https://{host}/{owner}/{repo}"
        with ("https://" +++ "{host}" +++ "/" +++ "{owner}" +++ "/{repo}" +++ EmptyString).
      change "git@{host}:{owner}/{repo}.git"
        with ("git@" +++ "{host}" +++ ":" +++ "{owner}" +++ "/{repo}" +++ ".git").
      rewrite !fill_three by (trivial; reflexivity). rewrite append_nil_r.
      split; [reflexivity|]. split; [congruence|reflexivity].
    + change "https://{host}/{owner}/{repo}"
        with ("https://" +++ "{host}" +++ "/" +++ "{owner}" +++ "/{repo}" +++ EmptyString).
      change "git@{host}:{owner}/{repo}.git"
        with ("git@" +++ "{host}" +++ ":" +++ "{owner}" +++ "/{repo}" +++ ".git").
      rewrite !fill_three by (trivial; reflexivity). rewrite append_nil_r.
      split; [reflexivity|]. split; [congruence|reflexivity].
  - assert (Hproto : d_protocol d <> Some "ssh").
    { intros H. apply Hssh in H. congruence. }
    destruct (two_segment_cases type Hty) as [ -> | [ -> | [ -> | -> ] ] ];
      cbn in Hconfig; injection Hconfig as Hc; subst config;
      change (String.eqb _ "custom") with false;
      change (String.eqb _ "azure") with false;
      change (String.eqb _ "github") with false || change (String.eqb _ "github") with true;
      cbv iota; cbn [sshFormat httpsFormat webFormat truthy negb Str.is_empty toString].
    + change (Str.replace "https://github.com/{owner}/{repo}" "{host}" host)
        with ("https://github.com/" +++ "{owner}" +++ "/{repo}" +++ EmptyString).
      change (Str.replace "https://github.com/{owner}/{repo}.git" "{host}" host)
        with ("https://github.com/" +++ "{owner}" +++ "/{repo}" +++ ".git").
      rewrite !fill_two by (trivial; reflexivity). rewrite append_nil_r.
      split; [reflexivity|]. split; [|contradiction].
      intros _. now rewrite !append_assoc.
    + change "https://{host}/{owner}/{repo}.git"
        with ("https://" +++ "{host}" +++ "/" +++ "{owner}" +++ "/{repo}" +++ ".git").
      change "https://{host}/{owner}/{repo}"
        with ("https://" +++ "{host}" +++ "/" +++ "{owner}" +++ "/{repo}" +++ EmptyString).
      rewrite !fill_three by (trivial; reflexivity). rewrite append_nil_r.
      split; [reflexivity|]. split; [|contradiction].
      intros _. now rewrite !append_assoc.
    + change "https://{host}/{owner}/{repo}.git"
        with ("https://" +++ "{host}" +++ "/" +++ "{owner}" +++ "/{repo}" +++ ".git").
      change "https://{host}/{owner}/{repo}"
        with ("https://" +++ "{host}" +++ "/" +++ "{owner}" +++ "/{repo}" +++ EmptyString).
      rewrite !fill_three by (trivial; reflexivity). rewrite append_nil_r.
      split; [reflexivity|]. split; [|contradiction].
      intros _. now rewrite !append_assoc.
    + change "https://{host}/{owner}/{repo}.git"
        with ("https://" +++ "{host}" +++ "/" +++ "{owner}" +++ "/{repo}" +++ ".git").
      change "https://{host}/{owner}/{repo}"
        with ("https://" +++ "{host}" +++ "/" +++ "{owner}" +++ "/{repo}" +++ EmptyString).
      rewrite !fill_three by (trivial; reflexivity). rewrite append_nil_r.
      split; [reflexivity|]. split; [|contradiction].
      intros _. now rewrite !append_assoc.
Qed.

Lemma three_addresses_witness :
  two_segment "github" = true /\
  lookup "github" repositoryTypes = Some github_config /\
  verbatim (effectiveHost github_config github_details) /\
  verbatim "mycompany" /\ Str.all no_dollar "myproject" = true /\
  generateWebUrl "github" github_details
  = Ok (Some "https://github.com/mycompany/myproject") /\
  (d_protocol github_details <> Some "ssh" ->
   generateRepositoryUrl "github" github_details
   = Ok (Some ("https://github.com/mycompany/myproject" +++ ".git"))) /\
  (d_protocol github_details = Some "ssh" ->
   generateRepositoryUrl "github" github_details
   = Ok (Some "git@github.com:mycompany/myproject.git")).
Proof.
  assert (H1 : verbatim (effectiveHost github_config github_details))
    by (split; reflexivity).
  assert (H2 : verbatim "mycompany") by (split; reflexivity).
  split; [reflexivity|]. split; [reflexivity|]. split; [exact H1|]. split; [exact H2|].
  split; [reflexivity|].
  exact (three_addresses "github" github_config github_details
           "mycompany" "myproject" eq_refl eq_refl eq_refl eq_refl H1 H2 eq_refl).
Defined.


(** *** Addresses without the suffix, and with a path after the repository *)

Lemma tail_of_path total path c :
  Str.all any_char path = true ->
  rmatch total https_tail (String "/" path) c finish = Some (c, EmptyString).
Proof.
  intros Hpath.
  change https_tail
    with (Seq (Alt (lit ".git") Eps) (Seq (Alt (Seq (chr "/") (star dot)) Eps) Eol)).
  cbn [rmatch]. rewrite rmatch_lit. cbn [String.prefix orelse].
  destruct (ascii_dec "." "/") as [Hbad|_]; [discriminate Hbad|].
  rewrite rmatch_chr_hit. change (star dot) with (star (Chr any_char)).
  rewrite rmatch_star_class.
  rewrite <- (append_nil_r path).
  erewrite class_star_greedy_last; [reflexivity|exact Hpath|reflexivity|].
  intros u v Huv Hu _. destruct u; [contradiction|discriminate].
Qed.

Lemma path_none total v t c :
  v <> EmptyString -> Str.all no_slash v = true ->
  rmatch total (seq [opt (Seq (chr "/") (star dot)); Eol]) (v +++ t) c finish = None.
Proof.
  intros Hv Hall. destruct v as [|a v]; [contradiction|].
  apply all_head in Hall. destruct Hall as [Ha _].
  cbn [seq opt rmatch append]. rewrite rmatch_chr_miss; [reflexivity|].
  intros Heq. rewrite <- Heq in Ha. discriminate.
Qed.

Lemma git_then_slash v t rest :
  v +++ String "/" t = ".git" +++ rest -> Str.all no_slash v = true ->
  exists v', v = ".git" +++ v' /\ rest = v' +++ String "/" t.
Proof.
  intros H Hall.
  destruct v as [|c1 [|c2 [|c3 [|c4 v']]]]; cbn [append] in H;
    injection H; intros; subst; try discriminate.
  now exists v'.
Qed.

Lemma tail_none_before_path total v path c :
  v <> EmptyString -> v <> ".git" -> Str.all no_slash v = true ->
  rmatch total https_tail (v +++ String "/" path) c finish = None.
Proof.
  intros Hv Hgit Hall.
  change https_tail
    with (Seq (Alt (lit ".git") Eps) (seq [opt (Seq (chr "/") (star dot)); Eol])).
  cbn [rmatch]. rewrite rmatch_lit.
  rewrite (path_none total v (String "/" path) c Hv Hall).
  destruct (String.prefix ".git" (v +++ String "/" path)) eqn:Hp; [|reflexivity].
  pose proof (prefix_split ".git" _ Hp) as Hsplit.
  destruct (git_then_slash v path _ Hsplit Hall) as (v' & -> & ->).
  rewrite path_none; [reflexivity| |].
  - intros Hd. apply Hgit. now rewrite Hd.
  - now apply all_suffix in Hall.
Qed.

Section Tail.

Variable tail : string.
Hypothesis tail_ok : forall total c,
  rmatch total https_tail tail c finish = Some (c, EmptyString).
Hypothesis tail_early : forall total v c,
  v <> EmptyString -> v <> ".git" -> Str.all no_slash v = true ->
  rmatch total https_tail (v +++ tail) c finish = None.

Lemma repo_then_tail total repo c :
  repo <> EmptyString -> Str.all any_char repo = true -> Str.all no_slash repo = true ->
  bare repo ->
  rmatch total (Seq (Group 3 (plus_lazy dot)) https_tail) (repo +++ tail) c finish
  = Some (set_cap 3 repo c, EmptyString).
Proof.
  intros Hne Hany Hslash Hbare. rewrite rmatch_seq.
  apply group_plus_lazy_first; [exact Hne|exact Hany|apply tail_ok|].
  intros u v -> Hu Hv. apply tail_early; [exact Hv| |now apply all_suffix in Hslash].
  intros ->. exact (Hbare u eq_refl).
Qed.

Lemma owner_then_repo total owner repo c :
  owner <> EmptyString -> Str.all any_char owner = true -> Str.all no_slash owner = true ->
  repo <> EmptyString -> Str.all any_char repo = true -> Str.all no_slash repo = true ->
  bare repo ->
  rmatch total
    (Seq (Group 2 (plus_lazy dot)) (Seq (chr "/") (Seq (Group 3 (plus_lazy dot)) https_tail)))
    (owner +++ "/" +++ repo +++ tail) c finish
  = Some (set_cap 3 repo (set_cap 2 owner c), EmptyString).
Proof.
  intros Hne Hany Hslash Hr1 Hr2 Hr3 Hbare. rewrite rmatch_seq.
  apply group_plus_lazy_first; [exact Hne|exact Hany| |].
  - rewrite rmatch_seq. cbn [append]. rewrite rmatch_chr_hit. now apply repo_then_tail.
  - intros u v -> Hu Hv. apply all_suffix in Hslash.
    rewrite rmatch_seq. now apply slash_miss.
Qed.

Lemma https_match_tail host owner repo :
  host <> EmptyString -> Str.all no_slash host = true ->
  owner <> EmptyString -> Str.all any_char owner = true -> Str.all no_slash owner = true ->
  repo <> EmptyString -> Str.all any_char repo = true -> Str.all no_slash repo = true ->
  bare repo ->
  exec httpsPattern ("https://" +++ host +++ "/" +++ owner +++ "/" +++ repo +++ tail)
  = Some {| before := EmptyString;
            groups := [None; Some host; Some owner; Some repo];
            after := EmptyString |}.
Proof.
  intros Hh1 Hh2 Ho1 Ho2 Ho3 Hr1 Hr2 Hr3 Hbare.
  unfold exec. set (total := String.length _).
  assert (Hm : rmatch total httpsPattern
                 ("https://" +++ host +++ "/" +++ owner +++ "/" +++ repo +++ tail)
                 [] finish
               = Some ([None; Some host; Some owner; Some repo], EmptyString)).
  { change httpsPattern
      with (Seq (lit "https://")
              (Seq (Group 1 (plus (Chr no_slash)))
                 (Seq (chr "/")
                    (Seq (Group 2 (plus_lazy dot))
                       (Seq (chr "/") (Seq (Group 3 (plus_lazy dot)) https_tail)))))).
    rewrite rmatch_seq, rmatch_lit_append, rmatch_seq.
    apply group_plus_greedy_last; [exact Hh1|exact Hh2| |].
    - rewrite rmatch_seq. cbn [append]. rewrite rmatch_chr_hit.
      now apply owner_then_repo.
    - intros u v Huv Hu Hall. exfalso.
      destruct u as [|b u]; [contradiction|]. cbn [append] in Huv.
      injection Huv as Hb _. subst b. apply all_head in Hall. destruct Hall as [Hb _].
      discriminate. }
  destruct (String.append "https://" _) eqn:E; cbn [exec_from];
    rewrite Hm; reflexivity.
Qed.

End Tail.

(** X13.  The parser reads the host, the owner and the repository of an
    HTTPS address that has no [.git] suffix, and of one that goes on with a
    path after the repository, as of the address for cloning.  The three
    parts are segments and the repository does not end with [.git]. *)
Theorem parse_web_address type host owner repo path :
  type <> "azure" ->
  segment host -> segment owner -> segment repo -> bare repo ->
  Str.all any_char path = true ->
  let expected :=
    {| RepositoryManager.host := Some host; RepositoryManager.owner := Some owner;
       RepositoryManager.repo := Some repo; org := None |} in
  parseRepositoryUrl ("https://" +++ host +++ "/" +++ owner +++ "/" +++ repo) type
  = expected /\
  parseRepositoryUrl
    ("https://" +++ host +++ "/" +++ owner +++ "/" +++ repo +++ "/" +++ path) type
  = expected.
Proof.
  intros Hty Hh Ho Hr Hbare Hpath expected. subst expected.
  apply String.eqb_neq in Hty.
  apply segment_parts in Hh, Ho, Hr.
  destruct Hh as (Hh0 & Hh1 & _), Ho as (Ho0 & Ho1 & _ & _ & Ho2),
           Hr as (Hr0 & Hr1 & _ & _ & Hr2).
  assert (Hparse : forall tail,
            (forall total c, rmatch total https_tail tail c finish = Some (c, EmptyString)) ->
            (forall total v c,
               v <> EmptyString -> v <> ".git" -> Str.all no_slash v = true ->
               rmatch total https_tail (v +++ tail) c finish = None) ->
            parseRepositoryUrl
              ("https://" +++ host +++ "/" +++ owner +++ "/" +++ repo +++ tail) type
            = {| RepositoryManager.host := Some host; RepositoryManager.owner := Some owner;
                 RepositoryManager.repo := Some repo; org := None |}).
  { intros tail Hok Hearly. unfold parseRepositoryUrl.
    change (Str.startsWith
              ("https://" +++ host +++ "/" +++ owner +++ "/" +++ repo +++ tail) "git@")
      with false.
    replace (Str.startsWith
               ("https://" +++ host +++ "/" +++ owner +++ "/" +++ repo +++ tail) "https://")
      with true by (symmetry; apply prefix_append).
    cbv iota. rewrite Hty, (https_match_tail tail Hok Hearly) by assumption.
    reflexivity. }
  split.
  - rewrite <- (append_nil_r repo) at 1. apply Hparse.
    + reflexivity.
    + intros total v c Hv Hgit Hall. rewrite append_nil_r.
      now apply https_tail_none.
  - apply Hparse.
    + intros total c. now apply tail_of_path.
    + intros total v c. apply tail_none_before_path.
Qed.

Lemma bare_by_test repo : Str.endsWith repo ".git" = false -> bare repo.
Proof.
  intros H u ->. unfold Str.endsWith in H. rewrite length_append in H.
  replace (String.length u + String.length ".git" - String.length ".git")%nat
    with (String.length u) in H by lia.
  rewrite drop_append in H.
  replace (String.length ".git" <=? String.length u + String.length ".git")%nat
    with true in H by (symmetry; apply Nat.leb_le; lia).
  discriminate H.
Qed.

Lemma parse_web_address_witness :
  "github" <> "azure" /\ segment "github.com" /\ segment "mycompany" /\ segment "myrepo" /\
  bare "myrepo" /\
  parseRepositoryUrl "https://github.com/mycompany/myrepo" "github"
  = {| RepositoryManager.host := Some "github.com";
       RepositoryManager.owner := Some "mycompany";
       RepositoryManager.repo := Some "myrepo"; org := None |} /\
  parseRepositoryUrl "https://github.com/mycompany/myrepo/tree/main" "github"
  = {| RepositoryManager.host := Some "github.com";
       RepositoryManager.owner := Some "mycompany";
       RepositoryManager.repo := Some "myrepo"; org := None |}.
Proof.
  assert (H0 : "github" <> "azure") by discriminate.
  assert (H1 : segment "github.com") by (split; [discriminate|reflexivity]).
  assert (H2 : segment "mycompany") by (split; [discriminate|reflexivity]).
  assert (H3 : segment "myrepo") by (split; [discriminate|reflexivity]).
  assert (H4 : bare "myrepo") by (apply bare_by_test; reflexivity).
  repeat (split; [assumption|]).
  exact (parse_web_address "github" "github.com" "mycompany" "myrepo" "tree/main"
           H0 H1 H2 H3 H4 eq_refl).
Defined.

(** *** The Azure-style provider over SSH *)

Lemma bare_repo_end total repo c :
  repo <> EmptyString -> Str.all any_char repo = true -> bare repo ->
  rmatch total (seq [Group 3 (plus_lazy dot); opt (lit ".git"); Eol]) repo c finish
  = Some (set_cap 3 repo c, EmptyString).
Proof.
  intros Hne Hany Hbare.
  change (seq [Group 3 (plus_lazy dot); opt (lit ".git"); Eol])
    with (Seq (Group 3 (plus_lazy (Chr any_char))) (seq [opt (lit ".git"); Eol])).
  rewrite rmatch_seq. rewrite <- (append_nil_r repo) at 1.
  apply group_plus_lazy_first; [exact Hne|exact Hany|reflexivity|].
  intros u v -> Hu Hv. rewrite append_nil_r. apply ssh_tail_none; [exact Hv|].
  intros ->. exact (Hbare u eq_refl).
Qed.

Lemma long_owner total owner repo c :
  owner <> EmptyString -> Str.all any_char owner = true ->
  repo <> EmptyString -> Str.all any_char repo = true -> Str.all no_slash repo = true ->
  bare repo ->
  rmatch total
    (seq [Group 2 (plus dot); chr "/"; Group 3 (plus_lazy dot); opt (lit ".git"); Eol])
    (owner +++ "/" +++ repo) c finish
  = Some (set_cap 3 repo (set_cap 2 owner c), EmptyString).
Proof.
  intros Ho1 Ho2 Hr1 Hr2 Hr3 Hbare.
  change (seq [Group 2 (plus dot); chr "/"; Group 3 (plus_lazy dot); opt (lit ".git"); Eol])
    with (Seq (Group 2 (plus (Chr any_char)))
              (Seq (chr "/") (seq [Group 3 (plus_lazy dot); opt (lit ".git"); Eol]))).
  rewrite rmatch_seq.
  apply group_plus_greedy_last; [exact Ho1|exact Ho2| |].
  - rewrite rmatch_seq. cbn [append]. rewrite rmatch_chr_hit. now apply bare_repo_end.
  - intros u v Huv Hu _. rewrite rmatch_seq. apply slash_miss_all.
    destruct u as [|b u]; [contradiction|]. cbn [append] in Huv.
    injection Huv as Hb Hrest.
    apply (all_suffix no_slash u v). now rewrite <- Hrest.
Qed.

Lemma ssh_match_bare host owner repo :
  host <> EmptyString -> Str.all no_colon host = true ->
  owner <> EmptyString -> Str.all any_char owner = true ->
  repo <> EmptyString -> Str.all any_char repo = true -> Str.all no_slash repo = true ->
  bare repo ->
  exec sshPattern ("git@" +++ host +++ ":" +++ owner +++ "/" +++ repo)
  = Some {| before := EmptyString;
            groups := [None; Some host; Some owner; Some repo];
            after := EmptyString |}.
Proof.
  intros Hh1 Hh2 Ho1 Ho2 Hr1 Hr2 Hr3 Hbare.
  unfold exec. set (total := String.length _).
  assert (Hm : rmatch total sshPattern
                 ("git@" +++ host +++ ":" +++ owner +++ "/" +++ repo) [] finish
               = Some ([None; Some host; Some owner; Some repo], EmptyString)).
  { change sshPattern
      with (Seq (lit "git@")
              (Seq (Group 1 (plus (Chr no_colon)))
                 (Seq (chr ":")
                    (seq [Group 2 (plus dot); chr "/"; Group 3 (plus_lazy dot);
                          opt (lit ".git"); Eol])))).
    rewrite rmatch_seq, rmatch_lit_append, rmatch_seq.
    apply group_plus_greedy_last; [exact Hh1|exact Hh2| |].
    - rewrite rmatch_seq. cbn [append]. rewrite rmatch_chr_hit.
      now apply long_owner.
    - intros u v Huv Hu Hall. exfalso.
      destruct u as [|b u]; [contradiction|]. cbn [append] in Huv.
      injection Huv as Hb _. subst b. apply all_head in Hall. destruct Hall as [Hb _].
      discriminate. }
  destruct (String.append "git@" _) eqn:E; cbn [exec_from];
    rewrite Hm; reflexivity.
Qed.

Lemma azure_config_found :
  lookup "azure" repositoryTypes
  = Some {| rt_name := "Azure DevOps";
            description := "Microsoft Azure DevOps Services";
            baseUrl := Some "https://dev.azure.com";
            sshFormat := Some "git@ssh.dev.azure.com:v3/{org}/{project}/{repo}";
            httpsFormat := Some "https://dev.azure.com/{org}/{project}/_git/{repo}";
            webFormat := Some "https://dev.azure.com/{org}/{project}/_git/{repo}";
            supportsPages := false; supportsActions := true;
            supportsPackages := true |}.
Proof. reflexivity. Qed.

Lemma fill_azure_ssh host org project repo :
  segment org -> segment project -> segment repo ->
  Str.replace
    (Str.replace
       (Str.replace
          (Str.replace
             (Str.replace "git@ssh.dev.azure.com:v3/{org}/{project}/{repo}"
                "{host}" host)
             "{owner}" org)
          "{repo}" repo)
       "{org}" org)
    "{project}" project
  = "git@ssh.dev.azure.com:v3/" +++ org +++ "/" +++ project +++ "/" +++ repo.
Proof.
  intros Ho Hp Hr. apply segment_parts in Ho, Hp, Hr.
  destruct Ho as (_ & _ & Ho1 & Ho2 & _), Hp as (_ & _ & Hp1 & _),
           Hr as (_ & _ & Hr1 & _).
  change (Str.replace "git@ssh.dev.azure.com:v3/{org}/{project}/{repo}" "{host}" host)
    with "git@ssh.dev.azure.com:v3/{org}/{project}/{repo}".
  change (Str.replace "git@ssh.dev.azure.com:v3/{org}/{project}/{repo}" "{owner}" org)
    with "git@ssh.dev.azure.com:v3/{org}/{project}/{repo}".
  change (Str.replace "git@ssh.dev.azure.com:v3/{org}/{project}/{repo}" "{repo}" repo)
    with ("git@ssh.dev.azure.com:v3/{org}/{project}/"
          +++ Str.getSubstitution "{repo}" "git@ssh.dev.azure.com:v3/{org}/{project}/"
                EmptyString repo
          +++ EmptyString).
  rewrite getSubstitution_plain, append_nil_r by exact Hr1.
  change ("git@ssh.dev.azure.com:v3/{org}/{project}/" +++ repo)
    with ("git@ssh.dev.azure.com:v3/" +++ "{org}" +++ "/{project}/" +++ repo).
  rewrite (replace_placeholder "org}" "git@ssh.dev.azure.com:v3/" _ org eq_refl Ho1).
  replace ("git@ssh.dev.azure.com:v3/" +++ org +++ "/{project}/" +++ repo)
    with (("git@ssh.dev.azure.com:v3/" +++ org +++ "/") +++ "{project}" +++ "/" +++ repo)
    by (now rewrite !append_assoc).
  rewrite (replace_placeholder "project}" _ _ project); trivial;
    [|now rewrite !all_append, Ho2].
  now rewrite !append_assoc.
Qed.

(** X14.  For the Azure-style provider over SSH the parse of the generated
    address does not give the fields back: the host is [ssh.dev.azure.com],
    the owner is the text [v3], the organisation and the project joined by
    slashes, and no organisation is returned. *)
Theorem azure_over_ssh d org project repo :
  d_owner d = Some org -> d_project d = Some project -> d_repo d = Some repo ->
  d_protocol d = Some "ssh" ->
  segment org -> segment project -> segment repo -> bare repo ->
  generateRepositoryUrl "azure" d
  = Ok (Some ("git@ssh.dev.azure.com:v3/" +++ org +++ "/" +++ project +++ "/" +++ repo)) /\
  parseRepositoryUrl
    ("git@ssh.dev.azure.com:v3/" +++ org +++ "/" +++ project +++ "/" +++ repo) "azure"
  = {| RepositoryManager.host := Some "ssh.dev.azure.com";
       RepositoryManager.owner := Some ("v3/" +++ org +++ "/" +++ project);
       RepositoryManager.repo := Some repo; org := None |}.
Proof.
  intros Hdo Hdp Hdr Hproto Ho Hp Hr Hbare. split.
  - unfold generateRepositoryUrl. rewrite Hdo, Hdp, Hdr, Hproto, azure_config_found.
    change (String.eqb "azure" "custom") with false.
    change (String.eqb "azure" "azure") with true.
    change (toString (or_else (Some "ssh") (Some "https"))) with "ssh".
    change (String.eqb "ssh" "ssh") with true.
    cbv iota. cbn [sshFormat toString].
    now rewrite fill_azure_ssh.
  - apply segment_parts in Ho, Hp, Hr.
    destruct Ho as (Ho0 & _ & _ & _ & Ho2), Hp as (Hp0 & _ & _ & _ & Hp2),
             Hr as (Hr0 & Hr1 & _ & _ & Hr2).
    unfold parseRepositoryUrl.
    change (Str.startsWith
              ("git@ssh.dev.azure.com:v3/" +++ org +++ "/" +++ project +++ "/" +++ repo)
              "git@") with true.
    cbv iota.
    replace ("git@ssh.dev.azure.com:v3/" +++ org +++ "/" +++ project +++ "/" +++ repo)
      with ("git@" +++ "ssh.dev.azure.com" +++ ":" +++ ("v3/" +++ org +++ "/" +++ project)
            +++ "/" +++ repo)
      by (cbn [append]; now rewrite !append_assoc).
    rewrite ssh_match_bare; trivial; try reflexivity; try discriminate.
    change ("v3/" +++ org +++ "/" +++ project)
      with ("v3/" +++ (org +++ "/" +++ project)).
    rewrite !all_append, Ho2, Hp2. reflexivity.
Qed.

Lemma azure_over_ssh_witness :
  segment "myorg" /\ segment "myproject" /\ segment "myrepo" /\ bare "myrepo" /\
  generateRepositoryUrl "azure" azure_ssh_details
  = Ok (Some ("git@ssh.dev.azure.com:v3/" +++ "myorg" +++ "/" +++ "myproject" +++ "/"
              +++ "myrepo")) /\
  parseRepositoryUrl
    ("git@ssh.dev.azure.com:v3/" +++ "myorg" +++ "/" +++ "myproject" +++ "/" +++ "myrepo")
    "azure"
  = {| RepositoryManager.host := Some "ssh.dev.azure.com";
       RepositoryManager.owner := Some ("v3/" +++ "myorg" +++ "/" +++ "myproject");
       RepositoryManager.repo := Some "myrepo"; org := None |}.
Proof.
  assert (H1 : segment "myorg") by (split; [discriminate|reflexivity]).
  assert (H2 : segment "myproject") by (split; [discriminate|reflexivity]).
  assert (H3 : segment "myrepo") by (split; [discriminate|reflexivity]).
  assert (H4 : bare "myrepo") by (apply bare_by_test; reflexivity).
  repeat (split; [assumption|]).
  exact (azure_over_ssh azure_ssh_details "myorg" "myproject" "myrepo"
           eq_refl eq_refl eq_refl eq_refl H1 H2 H3 H4).
Defined.


End AddressExtras.

(** ** Remotes and the inspection of a repository *)

Module RemoteExtras.

Import Str Regex RepositoryManager RepositoryRemotes Vocabulary WorkspaceDetector.
Import StrFacts RegexFacts CaptureFacts PatternFacts TemplateFacts.
Import Fixture RepositoryExamples.

(** *** Greedy repetitions that stop where the class stops *)

Lemma class_star_greedy_zero {R : Type} p (k : string -> caps -> option R) s c :
  (forall u v, s = u +++ v -> u <> EmptyString -> Str.all p u = true -> k v c = None) ->
  class_star_greedy p k s c = k s c.
Proof.
  intros Hlater. destruct s as [|a s]; [reflexivity|].
  cbn [class_star_greedy]. destruct (p a) eqn:Ha; [|reflexivity].
  rewrite class_star_greedy_none; [reflexivity|].
  intros u v -> Hu. apply (Hlater (String a u)); [reflexivity|discriminate|].
  cbn [Str.all]. now rewrite Ha.
Qed.

Lemma star_gives_way {R : Type} total p (k : string -> caps -> option R) w rest c x :
  Str.all p w = true ->
  k rest c = Some x ->
  (forall u v, rest = u +++ v -> u <> EmptyString -> Str.all p u = true -> k v c = None) ->
  rmatch total (star (Chr p)) (w +++ rest) c k = Some x.
Proof. intros. rewrite rmatch_star_class. now apply class_star_greedy_last. Qed.

Lemma star_to_the_end {R : Type} total p (k : string -> caps -> option R) w rest c x :
  Str.all p w = true ->
  k rest c = Some x ->
  (forall a r, rest = String a r -> p a = false) ->
  rmatch total (star (Chr p)) (w +++ rest) c k = Some x.
Proof.
  intros Hw Hk Hrest. apply star_gives_way; trivial.
  intros u v Huv Hu Hall. exfalso.
  destruct u as [|b u]; [contradiction|]. cbn [append] in Huv.
  apply all_head in Hall. destruct Hall as [Hb _].
  rewrite (Hrest _ _ Huv) in Hb. discriminate Hb.
Qed.

Lemma blank_is_space s : Str.all blank s = true -> Str.all Str.is_space s = true.
Proof.
  apply all_weaken. intros a Ha. unfold blank in Ha. apply orb_prop in Ha.
  destruct Ha as [Ha|Ha]; apply Ascii.eqb_eq in Ha; subst a; reflexivity.
Qed.

(** What is left of an indented line after some of its white space. *)
Lemma spaces_within u : forall indent v t,
  Str.all Str.is_space u = true ->
  u +++ v = indent +++ String "u" t ->
  exists rest, indent = u +++ rest /\ v = rest +++ String "u" t.
Proof.
  induction u as [|b u IH]; intros indent v t Hu H; cbn [append] in H.
  - now exists indent.
  - apply all_head in Hu. destruct Hu as [Hb Hu].
    destruct indent as [|i indent]; cbn [append] in H; injection H as Hi H.
    + subst b. discriminate Hb.
    + subst i. destruct (IH _ _ _ Hu H) as (rest & -> & ->). now exists rest.
Qed.

Lemma newline_miss {R : Type} total r v t c (k : string -> caps -> option R) :
  Str.all blank v = true ->
  rmatch total (Seq (chr Str.LF) r) (v +++ String "u" t) c k = None.
Proof.
  intros Hv. rewrite rmatch_seq. destruct v as [|a v]; cbn [append].
  - now apply rmatch_chr_miss.
  - apply all_head in Hv. destruct Hv as [Ha _]. apply rmatch_chr_miss.
    intros Heq. subst a. discriminate Ha.
Qed.

(** The pattern on one section. *)
Lemma remote_match total name indent url ending :
  name <> EmptyString -> Str.all no_quote name = true ->
  Str.all blank indent = true ->
  url <> EmptyString -> Str.all any_char url = true ->
  (forall a r, url = String a r -> Str.is_space a = false) ->
  (forall a r, ending = String a r -> any_char a = false) ->
  rmatch total remotePattern
    ("[remote "
     +++ String Str.quote
           (name +++ String Str.quote
                       (String "]" (String Str.LF (indent +++ "url = " +++ url +++ ending)))))
    [] finish
  = Some ([None; Some name; Some url], ending).
Proof.
  intros Hn0 Hn1 Hind Hu0 Hu1 Hu2 Hend.
  change remotePattern
    with (Seq (lit "[remote ")
           (Seq (chr Str.quote)
             (Seq (Group 1 (plus (Chr no_quote)))
               (Seq (chr Str.quote)
                 (Seq (chr "]")
                   (Seq (star (Chr Str.is_space))
                     (Seq (chr Str.LF)
                       (Seq (star (Chr Str.is_space))
                         (Seq (lit "url")
                           (Seq (star (Chr Str.is_space))
                             (Seq (chr "=")
                               (Seq (star (Chr Str.is_space))
                                  (Group 2 (plus (Chr any_char))))))))))))))).
  rewrite rmatch_seq, rmatch_lit_append, rmatch_seq, rmatch_chr_hit, rmatch_seq.
  apply group_plus_greedy_last; [exact Hn0|exact Hn1| |].
  2:{ intros u v Huv Hu Hall. exfalso.
      destruct u as [|b u]; [contradiction|]. cbn [append] in Huv.
      injection Huv as Hb _. subst b. apply all_head in Hall. destruct Hall as [Hb _].
      unfold no_quote in Hb. now rewrite Ascii.eqb_refl in Hb. }
  rewrite rmatch_seq, rmatch_chr_hit, rmatch_seq, rmatch_chr_hit, rmatch_seq.
  change (String Str.LF (indent +++ "url = " +++ url +++ ending))
    with (EmptyString +++ String Str.LF (indent +++ "url = " +++ url +++ ending)).
  apply star_gives_way; [reflexivity| |].
  2:{ intros u v Huv Hu Hall.
      destruct u as [|b u]; [contradiction|]. cbn [append] in Huv.
      injection Huv as Hb Huv. apply all_head in Hall. destruct Hall as [_ Hall].
      change ("url = " +++ url +++ ending) with (String "u" ("rl = " +++ url +++ ending)) in Huv.
      symmetry in Huv. destruct (spaces_within _ _ _ _ Hall Huv) as (rest & Hrest & ->).
      apply newline_miss. rewrite Hrest in Hind. now apply all_suffix in Hind. }
  rewrite rmatch_seq, rmatch_chr_hit, rmatch_seq.
  apply star_to_the_end; [now apply blank_is_space| |intros a r H; now injection H as <- _].
  rewrite rmatch_seq.
  change ("url = " +++ url +++ ending) with ("url" +++ " " +++ String "=" (" " +++ url +++ ending)).
  rewrite rmatch_lit_append, rmatch_seq.
  apply star_to_the_end; [reflexivity| |intros a r H; now injection H as <- _].
  rewrite rmatch_seq, rmatch_chr_hit, rmatch_seq.
  apply star_to_the_end; [reflexivity| |].
  2:{ intros a r H. destruct url as [|b url]; [contradiction|]. cbn [append] in H.
      injection H as <- _. now apply (Hu2 b url). }
  apply group_plus_greedy_last; [exact Hu0|exact Hu1|reflexivity|].
  intros u v Huv Hu Hall. exfalso.
  destruct u as [|b u]; [contradiction|]. cbn [append] in Huv.
  apply all_head in Hall. destruct Hall as [Hb _].
  rewrite (Hend _ _ Huv) in Hb. discriminate Hb.
Qed.

(** *** Where no section starts *)

Lemma remote_needs_header total s c :
  (forall t, s <> "[remote " +++ String Str.quote t) ->
  rmatch total remotePattern s c finish = None.
Proof.
  intros Hnot.
  change remotePattern
    with (Seq (lit "[remote ") (Seq (chr Str.quote)
            (seq [ Group 1 (plus (not_chr Str.quote));
                   chr Str.quote; chr "]"; star space; chr Str.LF; star space; lit "url";
                   star space; chr "="; star space; Group 2 (plus dot) ]))).
  rewrite rmatch_seq, rmatch_lit.
  destruct (String.prefix "[remote " s) eqn:Hp; [|reflexivity].
  pose proof (prefix_split _ _ Hp) as Hsplit. rewrite rmatch_seq.
  destruct (Str.drop (String.length "[remote ") s) as [|a t] eqn:Hd; [reflexivity|].
  destruct (ascii_dec Str.quote a) as [<-|Hne]; [|now apply rmatch_chr_miss].
  exfalso. apply (Hnot t). exact Hsplit.
Qed.

Lemma header_needs_quote v s :
  v <> EmptyString -> Str.all no_quote v = true ->
  (s = EmptyString \/ exists s', s = String "[" s') ->
  forall t, v +++ s <> "[remote " +++ String Str.quote t.
Proof.
  intros Hv Hall Hs t H.
  assert (Hend : forall p q, s = String p q -> p = "["%char).
  { intros p q Hpq. destruct Hs as [->|[s' ->]]; [discriminate|]. now injection Hpq as <- _. }
  destruct v as [|c1 v]; [contradiction|]. cbn [append] in H. injection H as _ H.
  do 7 (destruct v as [|? v];
        [ cbn [append] in H; destruct s as [|p q]; [discriminate H|];
          injection H as Hp _; pose proof (Hend _ _ eq_refl) as Hq; subst p;
          discriminate Hq
        | cbn [append] in H; injection H as _ H ]).
  destruct v as [|c9 v].
  - cbn [append] in H. destruct s as [|p q]; [discriminate H|].
    injection H as Hp _. pose proof (Hend _ _ eq_refl) as Hq. subst p.
    discriminate Hq.
  - cbn [append] in H. injection H as Hc _. subst c9.
    do 9 (apply all_head in Hall; destruct Hall as [? Hall]).
    match goal with Hq : no_quote Str.quote = true |- _ => discriminate Hq end.
Qed.

Lemma rev_onto_length s : forall acc,
  String.length (Str.rev_onto s acc) = (String.length s + String.length acc)%nat.
Proof.
  induction s as [|a s IH]; intros acc; cbn [Str.rev_onto String.length]; [reflexivity|].
  rewrite IH. cbn [String.length]. lia.
Qed.

Lemma exec_from_skip r total s : forall pre acc,
  (forall u v, pre = u +++ v -> v <> EmptyString -> rmatch total r (v +++ s) [] finish = None) ->
  exec_from r total acc (pre +++ s) = exec_from r total (Str.rev_onto pre acc) s.
Proof.
  induction pre as [|a pre IH]; intros acc Hnone; [reflexivity|].
  cbn [append exec_from Str.rev_onto].
  change (String a (pre +++ s)) with (String a pre +++ s).
  rewrite (Hnone EmptyString (String a pre) eq_refl) by discriminate.
  apply IH. intros u v -> Hv. apply (Hnone (String a u) v); [reflexivity|exact Hv].
Qed.

Lemma quote_free_skipped total pre s :
  Str.all no_quote pre = true ->
  (s = EmptyString \/ exists s', s = String "[" s') ->
  forall u v, pre = u +++ v -> v <> EmptyString ->
              rmatch total remotePattern (v +++ s) [] finish = None.
Proof.
  intros Hpre Hs u v -> Hv. apply remote_needs_header.
  apply header_needs_quote; [exact Hv| |exact Hs]. now apply all_suffix in Hpre.
Qed.

(** The leftmost match in a text that begins with lines without quotes. *)
Lemma remote_exec pre name indent url ending :
  Str.all no_quote pre = true ->
  name <> EmptyString -> Str.all no_quote name = true ->
  Str.all blank indent = true ->
  url <> EmptyString -> Str.all any_char url = true ->
  (forall a r, url = String a r -> Str.is_space a = false) ->
  (forall a r, ending = String a r -> any_char a = false) ->
  exists m,
    exec remotePattern
      (pre +++ "[remote "
       +++ String Str.quote
             (name +++ String Str.quote
                         (String "]" (String Str.LF (indent +++ "url = " +++ url +++ ending)))))
    = Some m /\
    String.length (before m) = String.length pre /\
    groups m = [None; Some name; Some url] /\ after m = ending.
Proof.
  intros Hpre Hn0 Hn1 Hind Hu0 Hu1 Hu2 Hend. unfold exec. set (total := String.length _).
  rewrite exec_from_skip.
  - pose proof (remote_match total name indent url ending Hn0 Hn1 Hind Hu0 Hu1 Hu2 Hend)
      as Hm.
    change ("[remote " +++ String Str.quote
              (name +++ String Str.quote
                 (String "]" (String Str.LF (indent +++ "url = " +++ url +++ ending)))))
      with (String "[" ("remote " +++ String Str.quote
              (name +++ String Str.quote
                 (String "]" (String Str.LF (indent +++ "url = " +++ url +++ ending)))))) in *.
    cbn [exec_from]. rewrite Hm. eexists. split; [reflexivity|].
    cbn [before groups after]. repeat split.
    unfold Str.rev. rewrite !rev_onto_length. cbn [String.length]. lia.
  - apply quote_free_skipped; [exact Hpre|]. right. eexists. reflexivity.
Qed.

Lemma no_remote_exec pre :
  Str.all no_quote pre = true -> exec remotePattern pre = None.
Proof.
  intros Hpre. unfold exec. set (total := String.length _).
  rewrite <- (append_nil_r pre). rewrite exec_from_skip.
  - cbn [exec_from]. rewrite remote_needs_header; [reflexivity|]. intros t H. discriminate H.
  - apply quote_free_skipped; [exact Hpre|now left].
Qed.

(** *** The remotes of a configuration file *)

Lemma render_then sec more :
  render sec +++ more
  = "[remote "
    +++ String Str.quote
          (sec_name sec
           +++ String Str.quote
                 (String "]"
                    (String Str.LF
                       (sec_indent sec +++ "url = " +++ sec_url sec
                        +++ String Str.LF (sec_rest sec +++ more))))).
Proof.
  unfold render. repeat first [rewrite append_assoc | progress cbn [append]]. reflexivity.
Qed.

Lemma sections_longer secs :
  (List.length secs <= String.length (sections_text secs))%nat.
Proof.
  induction secs as [|sec secs IH]; cbn [sections_text List.length]; [lia|].
  rewrite length_append.
  assert (1 <= String.length (render sec))%nat
    by (unfold render; cbn [append String.length]; lia).
  lia.
Qed.

Lemma remote_of_found m sec :
  groups m = [None; Some (sec_name sec); Some (sec_url sec)] ->
  remote_of_match m = Ok (remote_of_section sec).
Proof.
  intros Hg. unfold remote_of_match, trimmed_group. rewrite Hg.
  cbn [get_cap nth_error bind]. reflexivity.
Qed.

Lemma remotes_of_sections secs : forall pre fuel,
  Str.all no_quote pre = true ->
  Forall well_formed secs ->
  (List.length secs <= fuel)%nat ->
  collect remote_of_match (matchAll_from remotePattern fuel (pre +++ sections_text secs))
  = Ok (map remote_of_section secs).
Proof.
  induction secs as [|sec secs IH]; intros pre fuel Hpre Hwf Hfuel;
    cbn [sections_text map].
  - rewrite append_nil_r. destruct fuel as [|fuel]; cbn [matchAll_from]; [reflexivity|].
    now rewrite no_remote_exec.
  - destruct fuel as [|fuel]; [cbn [List.length] in Hfuel; lia|].
    inversion Hwf as [|? ? Hsec Hrest]; subst.
    destruct Hsec as (Hn0 & Hn1 & Hind & Hu0 & Hu1 & Hu2 & Hq).
    rewrite render_then.
    destruct (remote_exec pre (sec_name sec) (sec_indent sec) (sec_url sec)
                (String Str.LF (sec_rest sec +++ sections_text secs)))
      as (m & Hm & Hbefore & Hgroups & Hafter); trivial.
    { intros a r H. now injection H as <- _. }
    cbn [matchAll_from]. rewrite Hm.
    assert (Hlen : (String.length (before m) + String.length (after m)
                    =? String.length
                         (pre +++ "[remote "
                          +++ String Str.quote
                                (sec_name sec
                                 +++ String Str.quote
                                       (String "]"
                                          (String Str.LF
                                             (sec_indent sec +++ "url = " +++ sec_url sec
                                              +++ String Str.LF
                                                    (sec_rest sec +++ sections_text secs)))))))%nat
                   = false).
    { apply Nat.eqb_neq. rewrite Hbefore, Hafter.
      repeat first [rewrite length_append | progress cbn [String.length]]. lia. }
    rewrite Hlen, Hafter. cbn [collect]. rewrite (remote_of_found m sec Hgroups).
    cbn [bind].
    change (String Str.LF (sec_rest sec +++ sections_text secs))
      with (String Str.LF (sec_rest sec) +++ sections_text secs).
    rewrite IH; [reflexivity| |exact Hrest|cbn [List.length] in Hfuel; lia].
    cbn [Str.all]. now rewrite Hq.
Qed.

(** X15.  The remotes read from a git configuration file are those that its
    sections declare, in the order of the file: for each section the name,
    the address, the provider that the address is recognised as and what the
    parser reads in the address.  The file is lines without quotes followed
    by well-formed sections. *)
Theorem remotes_of_config pre secs :
  Str.all no_quote pre = true ->
  Forall well_formed secs ->
  parseGitRemotes (pre +++ sections_text secs) = Ok (map remote_of_section secs).
Proof.
  intros Hpre Hwf. unfold parseGitRemotes, matchAll.
  apply remotes_of_sections; trivial.
  rewrite length_append. pose proof (sections_longer secs). lia.
Qed.

Lemma remotes_of_config_witness :
  Str.all no_quote config_start = true /\
  Forall well_formed [origin_section; upstream_section] /\
  map remote_of_section [origin_section; upstream_section]
  = [origin_remote; upstream_remote] /\
  parseGitRemotes (config_start +++ sections_text [origin_section; upstream_section])
  = Ok (map remote_of_section [origin_section; upstream_section]).
Proof.
  assert (H1 : Forall well_formed [origin_section; upstream_section]).
  { repeat constructor; try reflexivity; try discriminate;
      intros a r H; injection H as <- _; reflexivity. }
  split; [reflexivity|]. split; [exact H1|]. split; [vm_compute; reflexivity|].
  exact (remotes_of_config config_start [origin_section; upstream_section]
           eq_refl H1).
Defined.


(** *** Any text *)

Lemma matchAll_from_found r : forall fuel s,
  Forall (fun m => exists s', exec r s' = Some m) (matchAll_from r fuel s).
Proof.
  induction fuel as [|fuel IH]; intros s; cbn [matchAll_from]; [constructor|].
  destruct (exec r s) as [m|] eqn:E; [|constructor].
  constructor; [now exists s|apply IH].
Qed.

Lemma detected_type_registered url :
  lookup (detectRepositoryType url) repositoryTypes <> None.
Proof.
  unfold detectRepositoryType.
  destruct (Str.includes url "github.com"); [discriminate|].
  destruct (Str.includes url "gitlab.com" || Str.includes url "gitlab"); [discriminate|].
  destruct (Str.includes url "bitbucket.org" || Str.includes url "bitbucket");
    [discriminate|].
  destruct (Str.includes url "dev.azure.com" || Str.includes url "visualstudio.com");
    [discriminate|].
  destruct (Str.includes url "gitea"); discriminate.
Qed.

Lemma remote_of_match_total s m :
  exec remotePattern s = Some m ->
  exists r, remote_of_match m = Ok r /\ lookup (r_type r) repositoryTypes <> None.
Proof.
  intros Hm.
  destruct (exec_captures remotePattern s m 1%nat Hm) as [name Hname]; [cbn; tauto|].
  destruct (exec_captures remotePattern s m 2%nat Hm) as [url Hurl]; [cbn; tauto|].
  unfold remote_of_match, trimmed_group. rewrite Hname, Hurl. cbn [bind].
  eexists. split; [reflexivity|]. cbn [r_type]. apply detected_type_registered.
Qed.

Lemma collect_total {A B : Type} (f : A -> result B) (P : B -> Prop) (l : list A) :
  Forall (fun a => exists b, f a = Ok b /\ P b) l ->
  exists bs, collect f l = Ok bs /\ Forall P bs /\ List.length bs = List.length l.
Proof.
  induction 1 as [|a l (b & Hb & HP) _ (bs & Hbs & Hall & Hlen)]; cbn [collect].
  - exists []. repeat split. constructor.
  - rewrite Hb, Hbs. cbn [bind]. exists (b :: bs). repeat split.
    + now constructor.
    + cbn [List.length]. now rewrite Hlen.
Qed.

Lemma remotes_read configContent :
  exists remotes,
    parseGitRemotes configContent = Ok remotes /\
    Forall (fun r => lookup (r_type r) repositoryTypes <> None) remotes.
Proof.
  unfold parseGitRemotes, matchAll.
  destruct (collect_total remote_of_match
              (fun r => lookup (r_type r) repositoryTypes <> None)
              (matchAll_from remotePattern (S (String.length configContent)) configContent))
    as (bs & Hbs & Hall & _).
  - eapply Forall_impl; [|apply matchAll_from_found].
    intros m [s Hm]. exact (remote_of_match_total s m Hm).
  - now exists bs.
Qed.

(** X16.  Whatever the text of the configuration file, the reading of its
    remotes does not throw, and every remote that it returns bears one of
    the provider types of the registry. *)
Theorem remotes_always_read configContent :
  exists remotes,
    parseGitRemotes configContent = Ok remotes /\
    Forall (fun r => lookup (r_type r) repositoryTypes <> None) remotes.
Proof. exact (remotes_read configContent). Qed.

(** *** The inspection of an existing repository *)

Lemma read_remotes_cases env gitDir :
  (pathExists env (path_join env gitDir "config") = false /\
   read_remotes env gitDir = Ok None)
  \/ (exists e, pathExists env (path_join env gitDir "config") = true /\
                 readFile env (path_join env gitDir "config") = Throw e /\
                 read_remotes env gitDir = Throw e)
  \/ (exists content l,
         pathExists env (path_join env gitDir "config") = true /\
         readFile env (path_join env gitDir "config") = Ok content /\
         parseGitRemotes content = Ok l /\
         read_remotes env gitDir = Ok (Some l)).
Proof.
  unfold read_remotes.
  destruct (pathExists env (path_join env gitDir "config")); [|now left].
  right. destruct (readFile env (path_join env gitDir "config")) as [content|e].
  - right. destruct (remotes_read content) as (l & Hl & _).
    exists content, l. cbn [bind]. rewrite Hl. cbn [bind]. repeat split; trivial.
  - left. exists e. cbn [bind]. repeat split; trivial.
Qed.

Lemma read_branch_returns env gitDir :
  exists b, read_branch env gitDir = Ok b.
Proof.
  unfold read_branch.
  destruct (pathExists env (path_join env gitDir "HEAD")); [|now eexists].
  destruct (exec headPattern _) as [m|] eqn:Hm; [|now eexists].
  destruct (exec_captures headPattern _ m 1%nat Hm) as [v Hv]; [cbn; tauto|].
  unfold trimmed_group. rewrite Hv. cbn [bind]. now eexists.
Qed.

Lemma set_fields_keep_git a b c info :
  hasGit (set_hasCommits c (set_currentBranch b (set_remotes a info))) = hasGit info.
Proof. destruct a, b, c; reflexivity. Qed.

(** X17.  A directory is reported as a git repository exactly when it holds
    an entry named [.git], and nothing else is reported about a directory
    that holds none: no remote, no branch, no commit. *)
Theorem git_presence env projectPath :
  let r := analyzeExistingRepositories env projectPath in
  hasGit r = pathExists env (path_join env projectPath ".git") /\
  (hasGit r = false -> remotes r = [] /\ currentBranch r = None /\ hasCommits r = false).
Proof.
  cbv zeta. unfold analyzeExistingRepositories.
  destruct (pathExists env (path_join env projectPath ".git")); cbn [negb].
  - destruct (read_remotes env (path_join env projectPath ".git")) as [l|e].
    + destruct (read_branch env (path_join env projectPath ".git")) as [b|e].
      * rewrite set_fields_keep_git. split; [reflexivity|discriminate].
      * destruct l; split; first [reflexivity|discriminate].
    + split; [reflexivity|discriminate].
  - split; [reflexivity|]. intros _. repeat split.
Qed.

(** X18.  When the file [config] of the repository exists and cannot be
    read, the failure ends the inspection: the result says that there is a
    repository and nothing more, whatever [HEAD] and [refs/heads] hold. *)
Theorem unreadable_config_ends_inspection env projectPath e :
  let gitDir := path_join env projectPath ".git" in
  pathExists env gitDir = true ->
  pathExists env (path_join env gitDir "config") = true ->
  readFile env (path_join env gitDir "config") = Throw e ->
  analyzeExistingRepositories env projectPath
  = {| hasGit := true; remotes := []; currentBranch := None; hasCommits := false |}.
Proof.
  intros gitDir Hgit Hconfig Hread. unfold analyzeExistingRepositories.
  fold gitDir. rewrite Hgit. cbn [negb]. unfold read_remotes.
  rewrite Hconfig, Hread. reflexivity.
Qed.

Lemma unreadable_config_ends_inspection_witness :
  let env := env_of git_project_unreadable in
  pathExists env (path_join env "/proj" ".git") = true /\
  pathExists env (path_join env (path_join env "/proj" ".git") "config") = true /\
  readFile env (path_join env (path_join env "/proj" ".git") "config")
  = Throw "the text of this file is not given" /\
  pathExists env (path_join env (path_join env "/proj" ".git") "HEAD") = true /\
  analyzeExistingRepositories env "/proj"
  = {| hasGit := true; remotes := []; currentBranch := None; hasCommits := false |}.
Proof.
  intros env. repeat (split; [reflexivity|]).
  exact (unreadable_config_ends_inspection env "/proj"
           "the text of this file is not given" eq_refl eq_refl eq_refl).
Defined.


Lemma head_match total branch ending :
  branch <> EmptyString -> Str.all any_char branch = true ->
  (forall a r, ending = String a r -> any_char a = false) ->
  rmatch total headPattern ("ref: refs/heads/" +++ branch +++ ending) [] finish
  = Some ([None; Some branch], ending).
Proof.
  intros Hb0 Hb1 Hend.
  change headPattern with (Seq (lit "ref: refs/heads/") (Group 1 (plus (Chr any_char)))).
  rewrite rmatch_seq, rmatch_lit_append.
  apply group_plus_greedy_last; [exact Hb0|exact Hb1|reflexivity|].
  intros u v Huv Hu Hall. exfalso.
  destruct u as [|b u]; [contradiction|]. cbn [append] in Huv.
  apply all_head in Hall. destruct Hall as [Hb _].
  rewrite (Hend _ _ Huv) in Hb. discriminate Hb.
Qed.

Lemma head_exec branch ending :
  branch <> EmptyString -> Str.all any_char branch = true ->
  (forall a r, ending = String a r -> any_char a = false) ->
  exec headPattern ("ref: refs/heads/" +++ branch +++ ending)
  = Some {| before := EmptyString; groups := [None; Some branch]; after := ending |}.
Proof.
  intros Hb0 Hb1 Hend. unfold exec. set (total := String.length _).
  change ("ref: refs/heads/" +++ branch +++ ending)
    with (String "r" ("ef: refs/heads/" +++ branch +++ ending)).
  cbn [exec_from].
  change (String "r" ("ef: refs/heads/" +++ branch +++ ending))
    with ("ref: refs/heads/" +++ branch +++ ending).
  rewrite (head_match total branch ending Hb0 Hb1 Hend). reflexivity.
Qed.

Lemma exec_from_needs_literal p r total : forall s acc,
  Str.split_at_first p s = None ->
  exec_from (Seq (lit p) r) total acc s = None.
Proof.
  induction s as [|a s IH]; intros acc H; cbn [exec_from Str.split_at_first] in *.
  - rewrite rmatch_seq, rmatch_lit.
    destruct (String.prefix p EmptyString); [discriminate|reflexivity].
  - rewrite rmatch_seq, rmatch_lit.
    destruct (String.prefix p (String a s)); [discriminate|].
    apply IH. destruct (Str.split_at_first p s) as [[b t]|]; [discriminate|reflexivity].
Qed.

Lemma head_detached content :
  Str.includes content "ref: refs/heads/" = false -> exec headPattern content = None.
Proof.
  unfold Str.includes. intros H. unfold exec.
  change headPattern with (Seq (lit "ref: refs/heads/") (Group 1 (plus (Chr any_char)))).
  apply exec_from_needs_literal.
  destruct (Str.split_at_first "ref: refs/heads/" content); [discriminate|reflexivity].
Qed.

(** X19.  The current branch is the name that [HEAD] holds after
    [ref: refs/heads/], up to the end of its line and without the white
    space around it; there is none when [HEAD] does not hold that text, as in
    a detached checkout, or cannot be read.  In each case the remotes are
    those read from [config].  The file [config] is absent or readable. *)
Theorem current_branch env projectPath :
  let gitDir := path_join env projectPath ".git" in
  let r := analyzeExistingRepositories env projectPath in
  pathExists env gitDir = true ->
  (pathExists env (path_join env gitDir "config") = false \/
   exists content, readFile env (path_join env gitDir "config") = Ok content) ->
  pathExists env (path_join env gitDir "HEAD") = true ->
  (forall branch ending,
     readFile env (path_join env gitDir "HEAD")
     = Ok ("ref: refs/heads/" +++ branch +++ ending) ->
     branch <> EmptyString -> Str.all any_char branch = true ->
     (forall a t, ending = String a t -> any_char a = false) ->
     currentBranch r = Some (Str.trim branch)) /\
  (forall content,
     readFile env (path_join env gitDir "HEAD") = Ok content ->
     Str.includes content "ref: refs/heads/" = false ->
     currentBranch r = None) /\
  (forall e, readFile env (path_join env gitDir "HEAD") = Throw e -> currentBranch r = None) /\
  (forall content,
     pathExists env (path_join env gitDir "config") = true ->
     readFile env (path_join env gitDir "config") = Ok content ->
     parseGitRemotes content = Ok (remotes r)).
Proof.
  intros gitDir r Hgit Hconfig Hhead.
  assert (Hrun : exists l,
            r = set_hasCommits (read_commits env gitDir)
                  (set_currentBranch
                     match exec headPattern
                             (try_catch (readFile env (path_join env gitDir "HEAD"))
                                (fun _ => EmptyString)) with
                     | Some branchMatch =>
                         match get_cap 1 (groups branchMatch) with
                         | Some v => Some (Str.trim v)
                         | None => None
                         end
                     | None => None
                     end
                     {| hasGit := true; remotes := l; currentBranch := None;
                        hasCommits := false |}) /\
            forall content,
              pathExists env (path_join env gitDir "config") = true ->
              readFile env (path_join env gitDir "config") = Ok content ->
              parseGitRemotes content = Ok l).
  { subst r. unfold analyzeExistingRepositories. fold gitDir. rewrite Hgit. cbn [negb].
    assert (Hbranch : read_branch env gitDir
                      = Ok match exec headPattern
                                   (try_catch (readFile env (path_join env gitDir "HEAD"))
                                      (fun _ => EmptyString)) with
                           | Some branchMatch =>
                               match get_cap 1 (groups branchMatch) with
                               | Some v => Some (Str.trim v)
                               | None => None
                               end
                           | None => None
                           end).
    { unfold read_branch. rewrite Hhead.
      destruct (exec headPattern _) as [m|] eqn:Hm; [|reflexivity].
      destruct (exec_captures headPattern _ m 1%nat Hm) as [v Hv]; [cbn; tauto|].
      unfold trimmed_group. rewrite Hv. reflexivity. }
    rewrite Hbranch.
    destruct (read_remotes_cases env gitDir)
      as [(Hno & ->)|[(e & Hyes & Hthrow & _)|(content & l & Hyes & Hread & Hparse & ->)]].
    - exists []. split; [reflexivity|]. intros content Hyes. congruence.
    - exfalso. destruct Hconfig as [Hno|[content Hread]]; congruence.
    - exists l. split; [reflexivity|]. intros c _ Hc. congruence. }
  destruct Hrun as (l & -> & Hremotes).
  assert (Hb : forall b info c, currentBranch (set_hasCommits c (set_currentBranch b info))
                                = match b with Some v => Some v | None => currentBranch info end).
  { intros [v|] info [c|]; reflexivity. }
  assert (Hr : forall b info c, remotes (set_hasCommits c (set_currentBranch b info))
                                = remotes info).
  { intros [v|] info [c|]; reflexivity. }
  rewrite Hb, Hr. cbn [currentBranch remotes]. split; [|split; [|split]].
  - intros branch ending Hread Hb0 Hb1 Hend. rewrite Hread. cbn [try_catch].
    rewrite head_exec by assumption. reflexivity.
  - intros content Hread Hinc. rewrite Hread. cbn [try_catch].
    now rewrite head_detached.
  - intros e Hread. rewrite Hread. reflexivity.
  - exact Hremotes.
Qed.

Lemma current_branch_witness :
  let env := env_of git_project in
  let gitDir := path_join env "/proj" ".git" in
  pathExists env gitDir = true /\
  pathExists env (path_join env gitDir "HEAD") = true /\
  readFile env (path_join env gitDir "HEAD")
  = Ok ("ref: refs/heads/" +++ "main" +++ String Str.LF EmptyString) /\
  currentBranch (analyzeExistingRepositories env "/proj") = Some (Str.trim "main") /\
  remotes (analyzeExistingRepositories env "/proj") = [origin_remote].
Proof.
  intros env gitDir.
  assert (Hconfig : pathExists env (path_join env gitDir "config") = false \/
                    exists content, readFile env (path_join env gitDir "config") = Ok content)
    by (right; eexists; reflexivity).
  destruct (current_branch env "/proj" eq_refl Hconfig eq_refl)
    as (Hbranch & _).
  split; [reflexivity|]. split; [reflexivity|]. split; [reflexivity|]. split.
  - apply (Hbranch "main" (String Str.LF EmptyString)); try reflexivity.
    + discriminate.
    + intros a t H. injection H as <- _. reflexivity.
  - vm_compute. reflexivity.
Defined.


End RemoteExtras.

(** ** Commands and summaries *)

Module CommandExtras.

Import Str RepositoryManager RepositoryRemotes RepositoryCommands Vocabulary.
Import StrFacts.

Lemma lookup_cases type :
  (type = "github" \/ type = "gitea" \/ type = "gitlab" \/ type = "bitbucket"
   \/ type = "azure" \/ type = "custom")
  \/ lookup type repositoryTypes = None.
Proof.
  unfold repositoryTypes. cbn [lookup].
  destruct (String.eqb "github" type) eqn:E1;
    [apply String.eqb_eq in E1; subst; tauto|].
  destruct (String.eqb "gitea" type) eqn:E2;
    [apply String.eqb_eq in E2; subst; tauto|].
  destruct (String.eqb "gitlab" type) eqn:E3;
    [apply String.eqb_eq in E3; subst; tauto|].
  destruct (String.eqb "bitbucket" type) eqn:E4;
    [apply String.eqb_eq in E4; subst; tauto|].
  destruct (String.eqb "azure" type) eqn:E5;
    [apply String.eqb_eq in E5; subst; tauto|].
  destruct (String.eqb "custom" type) eqn:E6;
    [apply String.eqb_eq in E6; subst; tauto|].
  now right.
Qed.

Lemma lookup_absent type : forall table,
  ~ In type (map fst table) -> lookup type table = None.
Proof.
  induction table as [|[k v] table IH]; intros Hnot; [reflexivity|].
  cbn [lookup]. destruct (String.eqb k type) eqn:E.
  - apply String.eqb_eq in E. exfalso. apply Hnot. now left.
  - apply IH. intros Hin. apply Hnot. now right.
Qed.

Lemma inherited_absent type : forall table,
  ~ In type (map fst table) -> inherited type table = None.
Proof.
  induction table as [|[k v] table IH]; intros Hnot; [reflexivity|].
  cbn [inherited]. destruct (String.eqb k type) eqn:E.
  - apply String.eqb_eq in E. exfalso. apply Hnot. now left.
  - apply IH. intros Hin. apply Hnot. now right.
Qed.

(** A name is one of the six keys of the registry or of the twelve
    inherited ones, or reading it gives nothing. *)
Lemma member_cases type :
  In type (map fst repositoryTypes ++ map fst prototypeMembers)
  \/ (member_of type = None /\ lookup type repositoryTypes = None).
Proof.
  destruct (in_dec string_dec type (map fst repositoryTypes ++ map fst prototypeMembers))
    as [Hin|Hnot]; [now left|right].
  assert (Hl : lookup type repositoryTypes = None).
  { apply lookup_absent. intros H. apply Hnot, in_or_app. now left. }
  split; [|exact Hl]. unfold member_of. rewrite Hl.
  apply inherited_absent. intros H. apply Hnot, in_or_app. now right.
Qed.

Lemma registered_member type :
  lookup type repositoryTypes <> None -> member_of type <> None.
Proof.
  unfold member_of. destruct (lookup type repositoryTypes); [discriminate|contradiction].
Qed.

Lemma own_member type config :
  lookup type repositoryTypes = Some config -> member_of type = Some (Own config).
Proof. intros H. unfold member_of. now rewrite H. Qed.

Lemma unregistered_is_none_of type :
  lookup type repositoryTypes = None ->
  String.eqb type "github" = false /\ String.eqb type "gitlab" = false /\
  String.eqb type "azure" = false /\ String.eqb type "custom" = false.
Proof.
  intros H. repeat split; apply String.eqb_neq; intros ->; discriminate H.
Qed.

(** The web address is written for every name that the registry answers. *)
Lemma web_url_returns type d :
  member_of type <> None -> exists o, generateWebUrl type d = Ok o.
Proof.
  intros Hreg. unfold generateWebUrl.
  destruct (String.eqb type "custom"); [now eexists|].
  destruct (member_of type) as [[config|name]|]; [| now eexists | contradiction].
  destruct (negb (truthy (webFormat config))); now eexists.
Qed.

Lemma web_url_throws type d :
  member_of type = None -> exists m, generateWebUrl type d = Throw m.
Proof.
  intros Hnone. unfold generateWebUrl. rewrite Hnone.
  destruct (String.eqb type "custom") eqn:E; [|now eexists].
  apply String.eqb_eq in E. subst type. discriminate Hnone.
Qed.

Lemma deploy_commands_count repo :
  exists l,
    generateDeployCommands repo = Ok l /\
    List.length l
    = (if String.eqb (rp_type repo) "github" then 3
       else if String.eqb (rp_type repo) "gitlab" then 2
       else if String.eqb (rp_type repo) "azure" then 1
       else 0)%nat.
Proof.
  unfold generateDeployCommands.
  destruct (member_cases (rp_type repo)) as [H|[Hnone Hl]].
  - cbn in H.
    repeat (destruct H as [H|H]; [rewrite <- H; cbn; eexists; split; reflexivity|]).
    contradiction.
  - destruct (unregistered_is_none_of _ Hl) as (-> & -> & -> & _).
    rewrite Hnone. cbn. eexists. split; reflexivity.
Qed.

(** X20.  The notes on deployment depend on the type of the repository
    only: three for GitHub, two for GitLab, one for the Azure-style
    provider and none for any other type, registered or not; the function
    does not throw. *)
Theorem deploy_commands_by_type repo :
  exists l,
    generateDeployCommands repo = Ok l /\
    List.length l
    = (if String.eqb (rp_type repo) "github" then 3
       else if String.eqb (rp_type repo) "gitlab" then 2
       else if String.eqb (rp_type repo) "azure" then 1
       else 0)%nat.
Proof. exact (deploy_commands_count repo). Qed.

Lemma deploy_commands_return repo :
  exists l, generateDeployCommands repo = Ok l /\ (List.length l <= 3)%nat.
Proof.
  destruct (deploy_commands_count repo) as (l & Hl & Hlen). exists l. split; [exact Hl|].
  rewrite Hlen.
  destruct (String.eqb (rp_type repo) "github"); [lia|].
  destruct (String.eqb (rp_type repo) "gitlab"); [lia|].
  destruct (String.eqb (rp_type repo) "azure"); lia.
Qed.

Lemma forEach_add_commands repos : forall acc,
  exists notes,
    forEach add_commands repos acc
    = Ok {| setup :=
              setup acc
              ++ map (fun repo => "git remote add " +++ shown (rp_name repo) +++ " "
                                  +++ shown (rp_url repo))
                     (filter is_add repos);
            push :=
              push acc
              ++ map (fun repo => "git push -u " +++ shown (rp_name repo) +++ " main")
                     (filter is_add repos);
            deploy := deploy acc ++ notes |} /\
    (List.length notes <= 3 * List.length (filter is_add repos))%nat.
Proof.
  induction repos as [|repo repos IH]; intros acc; cbn [forEach filter map].
  - exists []. rewrite !app_nil_r. split; [now destruct acc|cbn; lia].
  - unfold add_commands at 1. destruct (is_add repo) eqn:E.
    + destruct (deploy_commands_return repo) as (l & Hl & Hlen). rewrite Hl. cbn [bind].
      destruct (IH {| setup := setup acc ++ ["git remote add " +++ shown (rp_name repo)
                                             +++ " " +++ shown (rp_url repo)];
                      push := push acc ++ ["git push -u " +++ shown (rp_name repo)
                                           +++ " main"];
                      deploy := deploy acc ++ l |}) as (notes & -> & Hnotes).
      exists (l ++ notes). cbn [setup push deploy map List.length].
      rewrite <- !app_assoc. cbn [app]. split; [reflexivity|].
      rewrite length_app. lia.
    + cbn [bind]. destruct (IH acc) as (notes & -> & Hnotes).
      exists notes. split; [reflexivity|exact Hnotes].
Qed.

Lemma commands_added repositories :
  exists notes,
    generateRepositoryCommands repositories
    = Ok {| setup :=
              map (fun repo => "git remote add " +++ shown (rp_name repo) +++ " "
                               +++ shown (rp_url repo))
                  (filter is_add repositories);
            push :=
              map (fun repo => "git push -u " +++ shown (rp_name repo) +++ " main")
                  (filter is_add repositories);
            deploy := notes |} /\
    (List.length notes <= 3 * List.length (filter is_add repositories))%nat.
Proof.
  unfold generateRepositoryCommands.
  destruct (forEach_add_commands repositories commands0) as (notes & H & Hlen).
  exists notes. split; [exact H|exact Hlen].
Qed.

(** X21.  The commands for a list of repositories are those of the entries
    to add, in the order of the list: one [git remote add] and one
    [git push] for each of them, and at most three notes on deployment;
    an entry that is kept or skipped gives no command, and the function does
    not throw. *)
Theorem commands_for_added repositories :
  exists notes,
    generateRepositoryCommands repositories
    = Ok {| setup :=
              map (fun repo => "git remote add " +++ shown (rp_name repo) +++ " "
                               +++ shown (rp_url repo))
                  (filter is_add repositories);
            push :=
              map (fun repo => "git push -u " +++ shown (rp_name repo) +++ " main")
                  (filter is_add repositories);
            deploy := notes |} /\
    (List.length notes <= 3 * List.length (filter is_add repositories))%nat.
Proof. exact (commands_added repositories). Qed.

(** *** The summary *)

Lemma registered_name type config :
  lookup type repositoryTypes = Some config ->
  toString (or_else (Some (rt_name config)) (Some type)) = rt_name config.
Proof.
  intros Hconfig.
  destruct (lookup_cases type) as [[H|[H|[H|[H|[H|H]]]]]|H]; rewrite H in Hconfig;
    first [ injection Hconfig as <-; reflexivity | discriminate Hconfig ].
Qed.

Lemma summarize_returns repo :
  member_of (rp_type repo) <> None ->
  exists s,
    summarize repo = Ok s /\
    s_name s = rp_name repo /\ s_url s = rp_url repo /\
    s_visibility s = toString (or_else (rp_visibility repo) (Some "unknown")) /\
    forall config,
      lookup (rp_type repo) repositoryTypes = Some config ->
      s_type s = rt_name config /\
      s_features s
      = {| pages := supportsPages config; actions := supportsActions config;
           packages := supportsPackages config |}.
Proof.
  intros Hknown. unfold summarize.
  destruct (web_url_returns (rp_type repo) (as_details repo) Hknown) as [webUrl Hweb].
  rewrite Hweb. cbn [bind]. eexists. split; [reflexivity|].
  cbn [s_name s_url s_visibility s_type s_features]. repeat split.
  - rewrite (own_member _ _ H). cbn [name_if_any name_of].
    now apply registered_name.
  - now rewrite (own_member _ _ H).
Qed.

Lemma summary_conditions repositories :
  ((exists l, formatRepositorySummary repositories = Ok l) <->
   Forall (fun repo => member_of (rp_type repo) <> None) repositories) /\
  (forall l,
     formatRepositorySummary repositories = Ok l ->
     Forall2 (fun repo s =>
                s_name s = rp_name repo /\ s_url s = rp_url repo /\
                s_visibility s = toString (or_else (rp_visibility repo) (Some "unknown")) /\
                forall config,
                  lookup (rp_type repo) repositoryTypes = Some config ->
                  s_type s = rt_name config /\
                  s_features s
                  = {| pages := supportsPages config; actions := supportsActions config;
                       packages := supportsPackages config |})
             repositories l).
Proof.
  induction repositories as [|repo repos [IHiff IHall]]; cbn [formatRepositorySummary].
  - split; [split; [constructor|now exists []]|].
    intros l H. injection H as <-. constructor.
  - destruct (member_of (rp_type repo)) as [m|] eqn:Hm.
    + destruct (summarize_returns repo) as (s & Hs & Hfields); [congruence|].
      rewrite Hs. cbn [bind].
      destruct (formatRepositorySummary repos) as [ss|e]; cbn [bind].
      * split.
        -- split; [intros _|now eexists].
           constructor; [congruence|]. apply IHiff. now exists ss.
        -- intros l H. injection H as <-. constructor; [exact Hfields|now apply IHall].
      * split; [|discriminate]. split.
        -- intros [l H]. discriminate H.
        -- intros H. inversion H as [|? ? _ Hrest]; subst.
           apply IHiff in Hrest. destruct Hrest as [l Hl]. discriminate Hl.
    + unfold summarize.
      destruct (web_url_throws (rp_type repo) (as_details repo) Hm) as [msg Hmsg].
      rewrite Hmsg. cbn [bind]. split; [|discriminate]. split.
      * intros [l H]. discriminate H.
      * intros H. inversion H as [|? ? Hreg _]; subst. contradiction.
Qed.

(** X22.  The summary of a list of repositories is made exactly when the
    registry answers the type of every entry, with one of its six entries
    or with a member that it inherits, such as [toString]; an entry of any
    other type makes the whole call throw.  When the summary is made it has
    one entry for each repository, in order, with the name and the address
    of the repository, the visibility [unknown] where the entry has none,
    and for a registered type the display name and the features of the
    provider. *)
Theorem summary_needs_known_types repositories :
  ((exists l, formatRepositorySummary repositories = Ok l) <->
   Forall (fun repo => member_of (rp_type repo) <> None) repositories) /\
  (forall l,
     formatRepositorySummary repositories = Ok l ->
     Forall2 (fun repo s =>
                s_name s = rp_name repo /\ s_url s = rp_url repo /\
                s_visibility s = toString (or_else (rp_visibility repo) (Some "unknown")) /\
                forall config,
                  lookup (rp_type repo) repositoryTypes = Some config ->
                  s_type s = rt_name config /\
                  s_features s
                  = {| pages := supportsPages config; actions := supportsActions config;
                       packages := supportsPackages config |})
             repositories l).
Proof. exact (summary_conditions repositories). Qed.

(** *** Remotes that are kept *)

Lemma kept_not_added remotes : filter is_add (map kept remotes) = [].
Proof. induction remotes as [|r remotes IH]; [reflexivity|exact IH]. Qed.

Lemma kept_visibility remotes : forall l,
  Forall2 (fun repo s =>
             s_name s = rp_name repo /\ s_url s = rp_url repo /\
             s_visibility s = toString (or_else (rp_visibility repo) (Some "unknown")) /\
             forall config,
               lookup (rp_type repo) repositoryTypes = Some config ->
               s_type s = rt_name config /\
               s_features s
               = {| pages := supportsPages config; actions := supportsActions config;
                    packages := supportsPackages config |})
          (map kept remotes) l ->
  Forall (fun s => s_visibility s = "unknown") l.
Proof.
  induction remotes as [|r remotes IH]; intros l H; cbn [map] in H;
    inversion H as [|repo s reps ss (_ & _ & Hv & _) Hrest]; subst; constructor.
  - exact Hv.
  - now apply IH.
Qed.

(** X23.  The remotes read from any configuration file, kept as they are,
    can be summarised: the summary is made, it has one entry for each
    remote, each with the visibility [unknown], and no command is issued
    for them. *)
Theorem kept_remotes_summarised configContent :
  exists remotes l,
    parseGitRemotes configContent = Ok remotes /\
    formatRepositorySummary (map kept remotes) = Ok l /\
    List.length l = List.length remotes /\
    Forall (fun s => s_visibility s = "unknown") l /\
    generateRepositoryCommands (map kept remotes) = Ok commands0.
Proof.
  destruct (RemoteExtras.remotes_read configContent) as (remotes & Hparse & Hreg).
  assert (Hall : Forall (fun repo => member_of (rp_type repo) <> None)
                   (map kept remotes)).
  { apply Forall_map. revert Hreg. apply Forall_impl.
    intros r Hr. now apply registered_member. }
  destruct (summary_conditions (map kept remotes)) as [Hiff Hfields].
  apply Hiff in Hall. destruct Hall as [l Hl].
  exists remotes, l. split; [exact Hparse|]. split; [exact Hl|].
  specialize (Hfields l Hl). split; [|split].
  - apply Forall2_length in Hfields. now rewrite length_map in Hfields.
  - exact (kept_visibility remotes l Hfields).
  - destruct (commands_added (map kept remotes)) as (notes & Hc & Hlen).
    rewrite Hc. rewrite kept_not_added in *. cbn [map List.length] in *.
    destruct notes; [reflexivity|cbn in Hlen; lia].
Qed.

End CommandExtras.

(** ** The dialogue *)

Module PromptExtras.

Import Str RepositoryManager RepositoryRemotes RepositoryCommands RepositoryPrompts Vocabulary.
Import CommandExtras.

(** X24.  The visibilities offered for a repository are private and public,
    with internal between them for GitHub, GitLab and the Azure-style
    provider only.  The default visibility is always one of those offered,
    and each of them has a description of its own. *)
Theorem visibility_choices type :
  map c_value (getVisibilityChoices type)
  = (if String.eqb type "gitlab" || String.eqb type "azure" || String.eqb type "github"
     then ["private"; "internal"; "public"] else ["private"; "public"]) /\
  In (getDefaultVisibility type) (map c_value (getVisibilityChoices type)) /\
  Forall (fun v => getVisibilityDescription v <> "Unknown visibility")
    (map c_value (getVisibilityChoices type)).
Proof.
  unfold getVisibilityChoices, getDefaultVisibility.
  destruct (String.eqb type "gitlab") eqn:E1.
  - apply String.eqb_eq in E1. subst type. cbn. repeat split; auto.
    repeat constructor; discriminate.
  - destruct (String.eqb type "azure") eqn:E2.
    + apply String.eqb_eq in E2. subst type. cbn. repeat split; auto.
      repeat constructor; discriminate.
    + destruct (String.eqb type "github") eqn:E3; cbn; repeat split; auto;
        repeat constructor; discriminate.
Qed.

Lemma required_rejects_empty message input :
  required message input = Valid <-> input <> EmptyString.
Proof.
  unfold required. destruct input; cbn; split; congruence.
Qed.

Ltac check_validators :=
  repeat (apply Forall_cons;
          [ intros v Hv; first [ discriminate Hv
                               | injection Hv as <-; apply required_rejects_empty ] |]);
  apply Forall_nil.

Ltac check_defaults :=
  repeat (apply Forall_cons;
          [ intros Hl; first [ discriminate Hl
                             | eexists; split; [reflexivity|cbn; tauto] ] |]);
  apply Forall_nil.

(** X25.  The questions asked for a repository of a registered type are, in
    order: the name of the remote, the host for Gitea only, the owner, the
    project for the Azure-style provider only, the repository, the
    visibility and the protocol; for the custom type they are the name, the
    address and the visibility.  Every check of an answer accepts exactly
    the texts that are not empty, and the default of every list is one of
    its choices.  The call returns for every type that the registry answers,
    with an entry of its own or with a member that it inherits, and throws
    for every other type. *)
Theorem questions_for_type type projectName :
  match promptForRepositoryDetails type projectName with
  | Ok prompts =>
      member_of type <> None /\
      map p_name prompts
      = (if String.eqb type "custom" then ["name"; "url"; "visibility"]
         else ["name"] ++ (if String.eqb type "gitea" then ["host"] else [])
              ++ ["owner"] ++ (if String.eqb type "azure" then ["project"] else [])
              ++ ["repo"; "visibility"; "protocol"]) /\
      Forall (fun p => forall v, p_validate p = Some v ->
                                 forall input, v input = Valid <-> input <> EmptyString)
        prompts /\
      Forall (fun p => p_type p = "list" ->
                       exists d, p_default p = Some (Given (JStr d)) /\
                                 In d (map c_value (p_choices p)))
        prompts
  | Throw _ => member_of type = None
  end.
Proof.
  destruct (member_cases type) as [H|[Hnone Hl]].
  - cbn in H.
    repeat (destruct H as [H|H];
            [rewrite <- H; cbn; split; [discriminate|]; split; [reflexivity|];
             split; [check_validators|check_defaults]|]).
    contradiction.
  - destruct (unregistered_is_none_of type Hl) as (_ & _ & _ & Hc).
    unfold promptForRepositoryDetails. rewrite Hc, Hnone. reflexivity.
Qed.

Lemma offered_kept remotes : offered (map keep_item remotes) = map Keep remotes.
Proof.
  unfold offered. induction remotes as [|r remotes IH]; [reflexivity|].
  cbn [map flat_map keep_item app]. now rewrite IH.
Qed.

Lemma checked_kept remotes : checked (map keep_item remotes) = map Keep remotes.
Proof.
  unfold checked. induction remotes as [|r remotes IH]; [reflexivity|].
  cbn [map flat_map keep_item app]. now rewrite IH.
Qed.

(** X26.  The menu of repository choices offers, in order, to keep each of
    the existing remotes, to add a repository of each type of the registry,
    the custom type last, and to skip the configuration; the existing
    remotes are the entries checked beforehand, and no other. *)
Theorem repository_menu existingRemotes :
  offered (generateRepositoryChoices existingRemotes)
  = map Keep existingRemotes ++ map Add (map fst repositoryTypes) ++ [Skip] /\
  checked (generateRepositoryChoices existingRemotes) = map Keep existingRemotes.
Proof.
  unfold generateRepositoryChoices.
  destruct existingRemotes as [|r remotes]; [split; reflexivity|].
  change (0 <? List.length (r :: remotes))%nat with true. cbv iota.
  split.
  - unfold offered. rewrite !flat_map_app. fold (offered (map keep_item (r :: remotes))).
    rewrite offered_kept. cbn. rewrite !app_nil_r, <- !app_assoc. reflexivity.
  - unfold checked. rewrite !flat_map_app. fold (checked (map keep_item (r :: remotes))).
    rewrite checked_kept. cbn. now rewrite !app_nil_r.
Qed.

End PromptExtras.
